(** * GharSathi rental-marketplace backend: a shallow embedding of its
      controllers and Mongoose models, with the properties of its API.

    The Express handlers are [async] functions that read and write three
    MongoDB collections, call an external image store and answer every
    request with a JSON envelope.  They are embedded as computations in a
    state-and-exception monad over a [World] (the three collections, the
    image store, the clock and a trace of observable effects).  State
    written before an exception is raised stays written, as in the source,
    which is why the monad is defined here instead of stacking a state
    transformer over an error monad.

    Modelling boundaries.  Strings are sequences of 8-bit characters and
    case folding covers the ASCII letters.  Numbers are exact rationals
    (the rounding of doubles is not modelled).
    Request bodies carry, for every listing and user field, either nothing
    or a value of the JSON type the schema expects.  What the host platform
    decides (ObjectId casting, bcrypt, JWT, the image store's answers, the
    regular-expression engine beyond the operator-free fragment, numeric
    conversion beyond decimal numerals) is taken as a [Host] record. *)

From Stdlib Require Import List String Ascii Bool ZArith NArith QArith Lia.
From Stdlib Require Import Permutation Sorted.
Import ListNotations.
Local Close Scope Q_scope.
Local Open Scope string_scope.
Local Open Scope list_scope.

(* ================================================================== *)
(** * 1. Strings as JavaScript uses them                               *)
(* ================================================================== *)

Definition chars (s : string) : list ascii := list_ascii_of_string s.
Definition str (l : list ascii) : string := string_of_list_ascii l.

Definition isUpper (c : ascii) : bool :=
  let n := nat_of_ascii c in (65 <=? n)%nat && (n <=? 90)%nat.

Definition lowerChar (c : ascii) : ascii :=
  if isUpper c then ascii_of_nat (nat_of_ascii c + 32) else c.

(** [String.prototype.toLowerCase] *)
Definition toLowerCase (s : string) : string := str (map lowerChar (chars s)).

(** White space removed by [String.prototype.trim] (the 8-bit part). *)
Definition isSpace (c : ascii) : bool :=
  let n := nat_of_ascii c in
  (n =? 32)%nat || ((9 <=? n)%nat && (n <=? 13)%nat) || (n =? 160)%nat.

Fixpoint dropSpaces (l : list ascii) : list ascii :=
  match l with
  | c :: r => if isSpace c then dropSpaces r else l
  | [] => []
  end.

(** [String.prototype.trim], also Mongoose's [trim: true] setter. *)
Definition trim (s : string) : string :=
  str (rev (dropSpaces (rev (dropSpaces (chars s))))).

(** [s.split(sep)] for a one-character separator; never empty. *)
Fixpoint splitOn (sep : ascii) (l : list ascii) : list (list ascii) :=
  match l with
  | [] => [[]]
  | c :: r =>
      if Ascii.eqb c sep then [] :: splitOn sep r
      else match splitOn sep r with
           | seg :: segs => (c :: seg) :: segs
           | [] => [[c]]
           end
  end.

(** [Array.prototype.includes] on an array of string literals. *)
Definition includes (l : list string) (s : string) : bool :=
  existsb (String.eqb s) l.

(* ================================================================== *)
(** * 2. Values of the request that the handlers inspect dynamically   *)
(* ================================================================== *)

Inductive JsVal :=
| JUndefined
| JNull
| JBool (b : bool)
| JNum (q : Q)
| JStr (s : string).

(** [typeof v] *)
Definition typeof (v : JsVal) : string :=
  match v with
  | JUndefined => "undefined"
  | JNull => "object"
  | JBool _ => "boolean"
  | JNum _ => "number"
  | JStr _ => "string"
  end.

(** [arr.includes(v)] when [v] may be any value: only a string can be
    the same value as a string literal. *)
Definition includesVal (l : list string) (v : JsVal) : bool :=
  match v with
  | JStr s => includes l s
  | _ => false
  end.

(** Truthiness of an optional string field: [undefined] and the empty string are
    falsy. *)
Definition truthyStr (o : option string) : bool :=
  match o with
  | Some s => negb (s =? EmptyString)
  | None => false
  end.

(** Truthiness of an optional number field: [undefined] and [0] are
    falsy. *)
Definition truthyNum (o : option Q) : bool :=
  match o with
  | Some q => negb (Qeq_bool q 0)
  | None => false
  end.

(* ================================================================== *)
(** * 3. Documents                                                     *)
(* ================================================================== *)

Definition ObjectId := N.
Bind Scope N_scope with ObjectId.

Definition opt_eqb {A} (eqb : A -> A -> bool) (x y : option A) : bool :=
  match x, y with
  | Some a, Some b => eqb a b
  | None, None => true
  | _, _ => false
  end.

Fixpoint list_eqb {A} (eqb : A -> A -> bool) (x y : list A) : bool :=
  match x, y with
  | [], [] => true
  | a :: x', b :: y' => eqb a b && list_eqb eqb x' y'
  | _, _ => false
  end.

Module Role.
Inductive t := Tenant | Owner | Admin.

Definition ofString (s : string) : option t :=
  if s =? "Tenant" then Some Tenant
  else if s =? "Owner" then Some Owner
  else if s =? "Admin" then Some Admin
  else None.

Definition toString (r : t) : string :=
  match r with Tenant => "Tenant" | Owner => "Owner" | Admin => "Admin" end.

Definition eqb (a b : t) : bool :=
  match a, b with
  | Tenant, Tenant | Owner, Owner | Admin, Admin => true
  | _, _ => false
  end.
End Role.

Module User.
Record t := mk {
  _id : ObjectId;
  name : string;
  email : string;
  password : string;          (* the bcrypt hash *)
  role : Role.t;
  createdAt : Z;
  updatedAt : Z
}.
End User.

Module ListingType.
Inductive t := Room | Hostel | Apartment | Flat.

Definition values : list string := ["Room"; "Hostel"; "Apartment"; "Flat"].

Definition ofString (s : string) : option t :=
  if s =? "Room" then Some Room
  else if s =? "Hostel" then Some Hostel
  else if s =? "Apartment" then Some Apartment
  else if s =? "Flat" then Some Flat
  else None.

Definition toString (x : t) : string :=
  match x with
  | Room => "Room" | Hostel => "Hostel"
  | Apartment => "Apartment" | Flat => "Flat"
  end.

Definition eqb (a b : t) : bool :=
  match a, b with
  | Room, Room | Hostel, Hostel | Apartment, Apartment | Flat, Flat => true
  | _, _ => false
  end.
End ListingType.

Module Listing.
Record t := mk {
  _id : ObjectId;
  title : string;
  description : string;
  price : Q;
  location : string;
  latitude : option Q;
  longitude : option Q;
  type : ListingType.t;
  images : list string;
  ownerId : ObjectId;
  isApproved : bool;
  createdAt : Z;
  updatedAt : Z
}.

(** Same stored content, the two timestamps apart: what Mongoose's
    change tracking compares when [save] decides whether to write. *)
Definition sameFields (a b : t) : bool :=
  (title a =? title b)
  && (description a =? description b)
  && Qeq_bool (price a) (price b)
  && (location a =? location b)
  && opt_eqb Qeq_bool (latitude a) (latitude b)
  && opt_eqb Qeq_bool (longitude a) (longitude b)
  && ListingType.eqb (type a) (type b)
  && list_eqb String.eqb (images a) (images b)
  && N.eqb (ownerId a) (ownerId b)
  && Bool.eqb (isApproved a) (isApproved b).

Definition touch (now : Z) (l : t) : t :=
  mk (_id l) (title l) (description l) (price l) (location l) (latitude l)
     (longitude l) (type l) (images l) (ownerId l) (isApproved l)
     (createdAt l) now.

Definition setApproved (b : bool) (l : t) : t :=
  mk (_id l) (title l) (description l) (price l) (location l) (latitude l)
     (longitude l) (type l) (images l) (ownerId l) b
     (createdAt l) (updatedAt l).
End Listing.

Module Booking.
Inductive Status := Pending | Accepted | Rejected.

Definition statusOfString (s : string) : option Status :=
  if s =? "Pending" then Some Pending
  else if s =? "Accepted" then Some Accepted
  else if s =? "Rejected" then Some Rejected
  else None.

Definition status_eqb (a b : Status) : bool :=
  match a, b with
  | Pending, Pending | Accepted, Accepted | Rejected, Rejected => true
  | _, _ => false
  end.

Record t := mk {
  _id : ObjectId;
  listingId : ObjectId;
  tenantId : ObjectId;
  ownerId : ObjectId;
  status : Status;
  message : option string;
  createdAt : Z;
  updatedAt : Z
}.

Definition setStatus (s : Status) (b : t) : t :=
  mk (_id b) (listingId b) (tenantId b) (ownerId b) s (message b)
     (createdAt b) (updatedAt b).

Definition touch (now : Z) (b : t) : t :=
  mk (_id b) (listingId b) (tenantId b) (ownerId b) (status b) (message b)
     (createdAt b) now.
End Booking.

(* ================================================================== *)
(** * 4. Regular expressions                                           *)
(* ================================================================== *)

(** The user schema validates e-mail addresses with a regular expression
    and the listing search compiles the search text into one.  Both are
    run by a matcher built on derivatives. *)

Inductive CharSet :=
| CsAny                      (* every character *)
| CsDot                      (* [.]: every character but the line feed *)
| CsChar (c : ascii)         (* this character *)
| CsCharI (c : ascii)        (* this character, under flag [i] *)
| CsWord                     (* [\w] *)
| CsOneOf (l : list ascii).  (* [[...]] *)

Definition isWordChar (c : ascii) : bool :=
  let n := nat_of_ascii c in
  ((48 <=? n)%nat && (n <=? 57)%nat)
  || ((65 <=? n)%nat && (n <=? 90)%nat)
  || ((97 <=? n)%nat && (n <=? 122)%nat)
  || (n =? 95)%nat.

Definition inSet (cs : CharSet) (a : ascii) : bool :=
  match cs with
  | CsAny => true
  | CsDot => negb (nat_of_ascii a =? 10)%nat
  | CsChar c => Ascii.eqb a c
  | CsCharI c => Ascii.eqb (lowerChar a) (lowerChar c)
  | CsWord => isWordChar a
  | CsOneOf l => existsb (Ascii.eqb a) l
  end.

Inductive Regex :=
| Void
| Eps
| Sym (cs : CharSet)
| Seq (r s : Regex)
| Alt (r s : Regex)
| Star (r : Regex).

Definition plus (r : Regex) : Regex := Seq r (Star r).
Definition opt (r : Regex) : Regex := Alt Eps r.

Fixpoint nullable (r : Regex) : bool :=
  match r with
  | Void => false
  | Eps => true
  | Sym _ => false
  | Seq r s => nullable r && nullable s
  | Alt r s => nullable r || nullable s
  | Star _ => true
  end.

Definition charset_eqb (x y : CharSet) : bool :=
  match x, y with
  | CsAny, CsAny | CsDot, CsDot | CsWord, CsWord => true
  | CsChar a, CsChar b | CsCharI a, CsCharI b => Ascii.eqb a b
  | CsOneOf l, CsOneOf m => list_eqb Ascii.eqb l m
  | _, _ => false
  end.

Fixpoint regex_eqb (x y : Regex) : bool :=
  match x, y with
  | Void, Void | Eps, Eps => true
  | Sym a, Sym b => charset_eqb a b
  | Seq a b, Seq c d | Alt a b, Alt c d => regex_eqb a c && regex_eqb b d
  | Star a, Star b => regex_eqb a b
  | _, _ => false
  end.

(** Sequence and choice that drop what cannot match and do not repeat
    an alternative, so that derivatives stay small. *)
Definition mkSeq (r s : Regex) : Regex :=
  match r, s with
  | Void, _ => Void
  | _, Void => Void
  | Eps, _ => s
  | _, _ => Seq r s
  end.

Fixpoint altMem (r s : Regex) : bool :=
  regex_eqb r s
  || match s with
     | Alt a b => regex_eqb r a || altMem r b
     | _ => false
     end.

Fixpoint mkAlt (r s : Regex) : Regex :=
  match r with
  | Void => s
  | Alt a b => mkAlt a (mkAlt b s)
  | _ =>
      match s with
      | Void => r
      | _ => if altMem r s then s else Alt r s
      end
  end.

Fixpoint deriv (a : ascii) (r : Regex) : Regex :=
  match r with
  | Void => Void
  | Eps => Void
  | Sym cs => if inSet cs a then Eps else Void
  | Seq r s =>
      if nullable r then mkAlt (mkSeq (deriv a r) s) (deriv a s)
      else mkSeq (deriv a r) s
  | Alt r s => mkAlt (deriv a r) (deriv a s)
  | Star r => mkSeq (deriv a r) (Star r)
  end.

(** The whole of [l] matches [r] (a pattern anchored by [^] and [$]). *)
Fixpoint matches (r : Regex) (l : list ascii) : bool :=
  match l with
  | [] => nullable r
  | a :: l' => matches (deriv a r) l'
  end.

(** Some substring of [l] matches [r] (an unanchored pattern). *)
Definition searches (r : Regex) (l : list ascii) : bool :=
  matches (Seq (Star (Sym CsAny)) (Seq r (Star (Sym CsAny)))) l.

(** [/^\w+([\.-]?\w+)*@\w+([\.-]?\w+)*(\.\w{2,3})+$/], the [match]
    validator of the user schema's [email] path. *)
Definition emailRegex : Regex :=
  let w := Sym CsWord in
  let sep := opt (Sym (CsOneOf ["."; "-"]%char)) in
  Seq (plus w)
   (Seq (Star (Seq sep (plus w)))
    (Seq (Sym (CsChar "@"))
     (Seq (plus w)
      (Seq (Star (Seq sep (plus w)))
       (plus (Seq (Sym (CsChar ".")) (Seq w (Seq w (opt w))))))))).

(** Characters with a meaning of their own in a pattern. *)
Definition isSyntaxChar (c : ascii) : bool :=
  existsb (Ascii.eqb c)
    ["^"; "$"; "\"; "."; "*"; "+"; "?"; "("; ")"; "["; "]"; "{"; "}"; "|"]%char.

(** The operator-free fragment of pattern syntax: ordinary characters,
    the dot, and syntax characters escaped by a backslash.  [None] for
    every other pattern. *)
Fixpoint parseAtoms (l : list ascii) : option (list CharSet) :=
  match l with
  | [] => Some []
  | "\"%char :: c :: r =>
      if isSyntaxChar c || Ascii.eqb c "/"
      then option_map (cons (CsCharI c)) (parseAtoms r)
      else None
  | c :: r =>
      if Ascii.eqb c "." then option_map (cons CsDot) (parseAtoms r)
      else if isSyntaxChar c then None
      else option_map (cons (CsCharI c)) (parseAtoms r)
  end.

Definition seqOf (atoms : list CharSet) : Regex :=
  fold_right (fun cs r => Seq (Sym cs) r) Eps atoms.

(* ================================================================== *)
(** * 5. The host platform                                             *)
(* ================================================================== *)

(** A JavaScript number as far as the handlers can tell them apart. *)
Inductive JsNumber :=
| NaN
| Finite (q : Q)
| Infinity (negative : bool).

Inductive JwtResult :=
| Decoded (id : ObjectId)
| JsonWebTokenError
| TokenExpiredError.

Record Host := {
  (** Mongoose's cast of a string to an ObjectId; [None] is a CastError. *)
  castObjectId : string -> option ObjectId;
  (** [bcrypt.hash(plain, salt)], the salt drawn from a seed. *)
  bcryptHash : N -> string -> string;
  (** [bcrypt.compare(plain, hash)] *)
  bcryptCompare : string -> string -> bool;
  (** [jwt.sign({id}, secret, {expiresIn: '7d'})] at the given time. *)
  jwtSign : ObjectId -> Z -> string;
  (** [jwt.verify(token, secret)] at the given time. *)
  jwtVerify : string -> Z -> JwtResult;
  (** Whether [cloudinary.uploader.destroy(publicId)] rejects. *)
  destroyRejects : string -> bool;
  (** [new RegExp(p, 'i')] for a pattern outside the operator-free
      fragment: [None] is a SyntaxError, otherwise the search predicate. *)
  regExpHost : string -> option (string -> bool);
  (** [Number(s)] for a string that is not a decimal numeral. *)
  numberHost : string -> JsNumber
}.

Definition isDigit (c : ascii) : bool :=
  let n := nat_of_ascii c in (48 <=? n)%nat && (n <=? 57)%nat.

Fixpoint digitsValue (acc : N) (l : list ascii) : N :=
  match l with
  | [] => acc
  | c :: r => digitsValue (10 * acc + N.of_nat (nat_of_ascii c - 48)) r
  end.

(* ================================================================== *)
(** * 6. The world and the monad of the handlers                       *)
(* ================================================================== *)

Inductive Event :=
| DbRead (collection : string)
| DbWrite (collection : string)
| CloudDestroy (publicId : string)
| ConsoleLog (text : string)
| ConsoleError (tag : string).

Record World := mkWorld {
  users : list User.t;
  listings : list Listing.t;
  bookings : list Booking.t;
  cloud : list string;        (* public ids held by the image store *)
  now : Z;                    (* the clock, in milliseconds *)
  nextId : N;                 (* the next ObjectId to be generated *)
  entropy : N;                (* seed of the next salt *)
  trace : list Event
}.

Definition setUsers (us : list User.t) (w : World) : World :=
  mkWorld us (listings w) (bookings w) (cloud w) (now w) (nextId w)
          (entropy w) (trace w).
Definition setListings (ls : list Listing.t) (w : World) : World :=
  mkWorld (users w) ls (bookings w) (cloud w) (now w) (nextId w)
          (entropy w) (trace w).
Definition setBookings (bs : list Booking.t) (w : World) : World :=
  mkWorld (users w) (listings w) bs (cloud w) (now w) (nextId w)
          (entropy w) (trace w).
Definition setCloud (c : list string) (w : World) : World :=
  mkWorld (users w) (listings w) (bookings w) c (now w) (nextId w)
          (entropy w) (trace w).
Definition setNextId (n : N) (w : World) : World :=
  mkWorld (users w) (listings w) (bookings w) (cloud w) (now w) n
          (entropy w) (trace w).
Definition setEntropy (n : N) (w : World) : World :=
  mkWorld (users w) (listings w) (bookings w) (cloud w) (now w) (nextId w)
          n (trace w).
Definition addEvent (e : Event) (w : World) : World :=
  mkWorld (users w) (listings w) (bookings w) (cloud w) (now w) (nextId w)
          (entropy w) (trace w ++ [e]).

(** A thrown JavaScript error, by the properties the handlers test. *)
Record JsError := mkError {
  err_name : string;
  err_code : option N;
  err_messages : list string    (* [Object.values(error.errors)] *)
}.

Definition castError : JsError := mkError "CastError" None [].
Definition validationError (msgs : list string) : JsError :=
  mkError "ValidationError" None msgs.
Definition duplicateKeyError : JsError :=
  mkError "MongoServerError" (Some 11000%N) [].
Definition syntaxError : JsError := mkError "SyntaxError" None [].
Definition storeError : JsError := mkError "Error" None [].

Inductive Result (A : Type) :=
| Ok (a : A)
| Throw (e : JsError).
Arguments Ok {A} a.
Arguments Throw {A} e.

Definition M (A : Type) : Type := World -> Result A * World.

Definition ret {A} (a : A) : M A := fun w => (Ok a, w).

Definition bind {A B} (m : M A) (k : A -> M B) : M B :=
  fun w =>
    match m w with
    | (Ok a, w') => k a w'
    | (Throw e, w') => (Throw e, w')
    end.

Definition throw {A} (e : JsError) : M A := fun w => (Throw e, w).

(** [try { body } catch (error) { handler }] *)
Definition tryCatch {A} (body : M A) (handler : JsError -> M A) : M A :=
  fun w =>
    match body w with
    | (Ok a, w') => (Ok a, w')
    | (Throw e, w') => handler e w'
    end.

Definition gets {A} (f : World -> A) : M A := fun w => (Ok (f w), w).
Definition modify (f : World -> World) : M unit := fun w => (Ok tt, f w).
Definition emit (e : Event) : M unit := modify (addEvent e).

Declare Scope js_scope.
Delimit Scope js_scope with js.
Notation "x <- m ;; k" := (bind m (fun x => k))
  (at level 61, m at next level, right associativity) : js_scope.
Notation "m ;; k" := (bind m (fun _ => k))
  (at level 61, right associativity) : js_scope.
Local Open Scope js_scope.

(** The clock. *)
Definition dateNow : M Z := gets now.

(** A fresh ObjectId for a document being created. *)
Definition newObjectId : M ObjectId :=
  i <- gets nextId ;;
  modify (setNextId (N.succ i)) ;;
  ret i.

(* ------------------------------------------------------------------ *)
(** ** Responses                                                       *)
(* ------------------------------------------------------------------ *)

Record OwnerSummary := mkOwner {
  o_id : ObjectId;
  o_name : string;
  o_email : string
}.

(** A listing with [ownerId] populated by the owner's name and e-mail;
    [None] when the user no longer exists. *)
Record ListingView := mkView {
  v_listing : Listing.t;
  v_owner : option OwnerSummary
}.

Record ListingSummary := mkListingSummary {
  ls_id : ObjectId;
  ls_title : string;
  ls_location : string;
  ls_images : list string;
  ls_price : Q
}.

Record BookingView := mkBookingView {
  bv_booking : Booking.t;
  bv_listing : option ListingSummary;
  bv_tenant : option OwnerSummary
}.

Record AuthUser := mkAuthUser {
  au_id : ObjectId;
  au_name : string;
  au_email : string;
  au_role : Role.t
}.

Inductive Data :=
| NoData
| OneListing (l : Listing.t)
| OneListingView (v : ListingView)
| ManyListings (ls : list Listing.t)
| ManyListingViews (vs : list ListingView)
| OneBooking (b : Booking.t)
| ManyBookings (bs : list BookingView)
| Auth (user : AuthUser) (token : string).

Record Response := mkResponse {
  status : nat;
  success : bool;
  message : option string;
  count : option nat;
  data : Data
}.

(** [res.status(code).json({ success: false, message })] *)
Definition failure (code : nat) (msg : string) : Response :=
  mkResponse code false (Some msg) None NoData.

(* ================================================================== *)
(** * 7. The Mongoose models                                           *)
(* ================================================================== *)

(** Setters that rebuild a listing with one path replaced. *)
Module ListingSet.
Import Listing.
Definition title (x : string) (l : t) : t :=
  mk (_id l) x (description l) (price l) (location l) (latitude l)
     (longitude l) (type l) (images l) (ownerId l) (isApproved l)
     (createdAt l) (updatedAt l).
Definition description (x : string) (l : t) : t :=
  mk (_id l) (Listing.title l) x (price l) (location l) (latitude l)
     (longitude l) (type l) (images l) (ownerId l) (isApproved l)
     (createdAt l) (updatedAt l).
Definition price (x : Q) (l : t) : t :=
  mk (_id l) (Listing.title l) (Listing.description l) x (location l)
     (latitude l) (longitude l) (type l) (images l) (ownerId l)
     (isApproved l) (createdAt l) (updatedAt l).
Definition location (x : string) (l : t) : t :=
  mk (_id l) (Listing.title l) (Listing.description l) (Listing.price l) x
     (latitude l) (longitude l) (type l) (images l) (ownerId l)
     (isApproved l) (createdAt l) (updatedAt l).
Definition latitude (x : option Q) (l : t) : t :=
  mk (_id l) (Listing.title l) (Listing.description l) (Listing.price l)
     (Listing.location l) x (longitude l) (type l) (images l) (ownerId l)
     (isApproved l) (createdAt l) (updatedAt l).
Definition longitude (x : option Q) (l : t) : t :=
  mk (_id l) (Listing.title l) (Listing.description l) (Listing.price l)
     (Listing.location l) (Listing.latitude l) x (type l) (images l)
     (ownerId l) (isApproved l) (createdAt l) (updatedAt l).
Definition type (x : ListingType.t) (l : t) : t :=
  mk (_id l) (Listing.title l) (Listing.description l) (Listing.price l)
     (Listing.location l) (Listing.latitude l) (Listing.longitude l) x
     (images l) (ownerId l) (isApproved l) (createdAt l) (updatedAt l).
Definition images (x : list string) (l : t) : t :=
  mk (_id l) (Listing.title l) (Listing.description l) (Listing.price l)
     (Listing.location l) (Listing.latitude l) (Listing.longitude l)
     (Listing.type l) x (ownerId l) (isApproved l) (createdAt l)
     (updatedAt l).
End ListingSet.

(** ** Schema validators: one message for each failing path. *)

Definition validateTitle (s : string) : list string :=
  if s =? EmptyString then ["Title is required"]
  else if (String.length s <? 5)%nat
       then ["Title must be at least 5 characters long"]
  else if (100 <? String.length s)%nat
       then ["Title cannot exceed 100 characters"]
  else [].

Definition validateDescription (s : string) : list string :=
  if s =? EmptyString then ["Description is required"]
  else if (String.length s <? 20)%nat
       then ["Description must be at least 20 characters long"]
  else if (2000 <? String.length s)%nat
       then ["Description cannot exceed 2000 characters"]
  else [].

(** [min: [0, 'Price must be a positive number']] *)
Definition validatePrice (q : Q) : list string :=
  if Qle_bool 0 q then [] else ["Price must be a positive number"].

Definition validateLocation (s : string) : list string :=
  if s =? EmptyString then ["Location is required"] else [].

Definition validateRange (lo hi : Q) (msg : string) (o : option Q)
  : list string :=
  match o with
  | None => []
  | Some q => if Qle_bool lo q && Qle_bool q hi then [] else [msg]
  end.

Definition validateLatitude : option Q -> list string :=
  validateRange (-90) 90 "Latitude must be between -90 and 90".

Definition validateLongitude : option Q -> list string :=
  validateRange (-180) 180 "Longitude must be between -180 and 180".

(** [arr.every(url => typeof url === 'string' && url.length > 0)] *)
Definition validateImages (l : list string) : list string :=
  if forallb (fun url => negb (url =? EmptyString)) l then []
  else ["All image URLs must be valid strings"].

Definition validateListing (l : Listing.t) : list string :=
  validateTitle (Listing.title l)
  ++ validateDescription (Listing.description l)
  ++ validatePrice (Listing.price l)
  ++ validateLocation (Listing.location l)
  ++ validateLatitude (Listing.latitude l)
  ++ validateLongitude (Listing.longitude l)
  ++ validateImages (Listing.images l).

Definition validateName (s : string) : list string :=
  if s =? EmptyString then ["Name is required"]
  else if (String.length s <? 2)%nat
       then ["Name must be at least 2 characters long"]
  else if (50 <? String.length s)%nat
       then ["Name cannot exceed 50 characters"]
  else [].

Definition validateEmail (s : string) : list string :=
  if s =? EmptyString then ["Email is required"]
  else if matches emailRegex (chars s) then []
  else ["Please provide a valid email address"].

Definition validatePassword (s : string) : list string :=
  if s =? EmptyString then ["Password is required"]
  else if (String.length s <? 6)%nat
       then ["Password must be at least 6 characters long"]
  else [].

(** [maxlength: 500] on the booking message. *)
Definition validateMessage (o : option string) : list string :=
  match o with
  | Some s =>
      if (500 <? String.length s)%nat
      then ["Path `message` is longer than the maximum allowed length (500)."]
      else []
  | None => []
  end.

(** The setters of the user schema's [email] path, which Mongoose also
    applies to the conditions of a query. *)
Definition normalizeEmail (s : string) : string := trim (toLowerCase s).

(** Promises, once settled. *)
Inductive Settled (A : Type) :=
| Fulfilled (a : A)
| Rejected (e : JsError).
Arguments Fulfilled {A} a.
Arguments Rejected {A} e.

(** The first rejection among settled promises. *)
Fixpoint firstRejection {A} (ps : list (Settled A)) : option JsError :=
  match ps with
  | [] => None
  | Rejected e :: _ => Some e
  | Fulfilled _ :: r => firstRejection r
  end.

(** [await Promise.all(ps)] *)
Definition promiseAll {A} (ps : list (Settled A)) : M unit :=
  match firstRejection ps with
  | Some e => throw e
  | None => ret tt
  end.

(** [arr.map(f)] for an effectful [f], left to right. *)
Fixpoint mapM {A B} (f : A -> M B) (l : list A) : M (list B) :=
  match l with
  | [] => ret []
  | x :: r => y <- f x ;; ys <- mapM f r ;; ret (y :: ys)
  end.

(** Newest first: [.sort({ createdAt: -1 })], by insertion and stable. *)
Fixpoint insertNewest {A} (key : A -> Z) (x : A) (l : list A) : list A :=
  match l with
  | [] => [x]
  | y :: r => if (key y <=? key x)%Z then x :: l else y :: insertNewest key x r
  end.

Definition sortNewest {A} (key : A -> Z) (l : list A) : list A :=
  fold_right (insertNewest key) [] l.

(** A query on listings, after [Listing.find] has cast its conditions. *)
Record ListingConditions := mkConditions {
  c_isApproved : option bool;
  c_type : option string;
  c_gte : option JsNumber;
  c_lte : option JsNumber;
  c_or : option (string -> bool);   (* the regex on title or location *)
  c_ownerId : option ObjectId
}.

Definition noConditions : ListingConditions :=
  mkConditions None None None None None None.

Definition holdsOpt {A} (o : option A) (p : A -> bool) : bool :=
  match o with
  | Some a => p a
  | None => true
  end.

(** [price >= n] and [price <= n] as the store compares numbers. *)
Definition priceGte (p : Q) (n : JsNumber) : bool :=
  match n with
  | Finite q => Qle_bool q p
  | Infinity negative => negative
  | NaN => false
  end.

Definition priceLte (p : Q) (n : JsNumber) : bool :=
  match n with
  | Finite q => Qle_bool p q
  | Infinity negative => negb negative
  | NaN => false
  end.

Definition satisfies (c : ListingConditions) (l : Listing.t) : bool :=
  holdsOpt (c_isApproved c) (Bool.eqb (Listing.isApproved l))
  && holdsOpt (c_type c) (String.eqb (ListingType.toString (Listing.type l)))
  && holdsOpt (c_gte c) (priceGte (Listing.price l))
  && holdsOpt (c_lte c) (priceLte (Listing.price l))
  && holdsOpt (c_or c)
       (fun re => re (Listing.title l) || re (Listing.location l))
  && holdsOpt (c_ownerId c) (N.eqb (Listing.ownerId l)).

Definition isNaN (n : JsNumber) : bool :=
  match n with NaN => true | _ => false end.

Definition holdsSome {A} (o : option A) (p : A -> bool) : bool :=
  match o with
  | Some a => p a
  | None => false
  end.

Definition findListing (oid : ObjectId) (ls : list Listing.t)
  : option Listing.t :=
  find (fun l => N.eqb (Listing._id l) oid) ls.

Definition replaceListing (d : Listing.t) (ls : list Listing.t)
  : list Listing.t :=
  map (fun l => if N.eqb (Listing._id l) (Listing._id d) then d else l) ls.

Definition removeListing (oid : ObjectId) (ls : list Listing.t)
  : list Listing.t :=
  filter (fun l => negb (N.eqb (Listing._id l) oid)) ls.

Definition findUser (oid : ObjectId) (us : list User.t) : option User.t :=
  find (fun u => N.eqb (User._id u) oid) us.

Definition findUserByEmail (e : string) (us : list User.t) : option User.t :=
  find (fun u => User.email u =? e) us.

Definition ownerSummary (u : User.t) : OwnerSummary :=
  mkOwner (User._id u) (User.name u) (User.email u).

Definition listingSummary (l : Listing.t) : ListingSummary :=
  mkListingSummary (Listing._id l) (Listing.title l) (Listing.location l)
                   (Listing.images l) (Listing.price l).

Definition replaceBooking (d : Booking.t) (bs : list Booking.t)
  : list Booking.t :=
  map (fun b => if N.eqb (Booking._id b) (Booking._id d) then d else b) bs.

Section Models.
Variable host : Host.

(** Casting the string of a request to an ObjectId. *)
Definition castId (id : string) : M ObjectId :=
  match castObjectId host id with
  | Some oid => ret oid
  | None => throw castError
  end.

(** [Listing.findById(id)] *)
Definition Listing_findById (id : string) : M (option Listing.t) :=
  oid <- castId id ;;
  emit (DbRead "listings") ;;
  ls <- gets listings ;;
  ret (findListing oid ls).

(** [Listing.create({...})]: setters, validation, insertion. *)
Definition Listing_create (title description : string) (price : Q)
    (location : string) (latitude longitude : option Q) (type : string)
    (images : list string) (ownerId : ObjectId) (isApproved : bool)
  : M Listing.t :=
  let title := trim title in
  let description := trim description in
  let location := trim location in
  let typeErrors :=
    match ListingType.ofString type with
    | Some _ => []
    | None => ["Type must be either Room, Hostel, Apartment, or Flat"]
    end in
  let errors :=
    validateTitle title ++ validateDescription description
    ++ validatePrice price ++ validateLocation location
    ++ validateLatitude latitude ++ validateLongitude longitude
    ++ typeErrors ++ validateImages images in
  match errors, ListingType.ofString type with
  | [], Some ty =>
      oid <- newObjectId ;;
      t <- dateNow ;;
      let doc := Listing.mk oid title description price location latitude
                            longitude ty images ownerId isApproved t t in
      emit (DbWrite "listings") ;;
      modify (fun w => setListings (listings w ++ [doc]) w) ;;
      ret doc
  | _, _ => throw (validationError errors)
  end.

(** [listing.save()] on a document loaded as [orig] and now holding
    [doc]: validation, then a write (stamping [updatedAt]) when some
    path was modified. *)
Definition Listing_save (orig doc : Listing.t) : M Listing.t :=
  match validateListing doc with
  | [] =>
      if Listing.sameFields orig doc then ret doc
      else
        t <- dateNow ;;
        let doc := Listing.touch t doc in
        emit (DbWrite "listings") ;;
        modify (fun w => setListings (replaceListing doc (listings w)) w) ;;
        ret doc
  | errors => throw (validationError errors)
  end.

(** [Listing.findByIdAndDelete(id)] *)
Definition Listing_findByIdAndDelete (id : string) : M (option Listing.t) :=
  oid <- castId id ;;
  emit (DbWrite "listings") ;;
  ls <- gets listings ;;
  modify (setListings (removeListing oid ls)) ;;
  ret (findListing oid ls).

(** [Listing.findByIdAndUpdate(id, { isApproved }, { new: true })] *)
Definition Listing_findByIdAndUpdate (id : string) (isApproved : bool)
  : M (option Listing.t) :=
  oid <- castId id ;;
  emit (DbWrite "listings") ;;
  ls <- gets listings ;;
  match findListing oid ls with
  | None => ret None
  | Some l =>
      t <- dateNow ;;
      let doc := Listing.touch t (Listing.setApproved isApproved l) in
      modify (setListings (replaceListing doc ls)) ;;
      ret (Some doc)
  end.

(** [Listing.find(conditions).sort({ createdAt: -1 })]; a bound that is
    not a number cannot be cast. *)
Definition Listing_find (c : ListingConditions) : M (list Listing.t) :=
  if holdsSome (c_gte c) isNaN || holdsSome (c_lte c) isNaN
  then throw castError
  else
    emit (DbRead "listings") ;;
    ls <- gets listings ;;
    ret (sortNewest Listing.createdAt (filter (satisfies c) ls)).

(** [.populate('ownerId', 'name email')] *)
Definition populateOwner (l : Listing.t) : M ListingView :=
  emit (DbRead "users") ;;
  us <- gets users ;;
  ret (mkView l (option_map ownerSummary (findUser (Listing.ownerId l) us))).

(** [Booking.findOne({ _id: id, ownerId })] *)
Definition Booking_findOne_id_owner (id : string) (ownerId : ObjectId)
  : M (option Booking.t) :=
  oid <- castId id ;;
  emit (DbRead "bookings") ;;
  bs <- gets bookings ;;
  ret (find (fun b => N.eqb (Booking._id b) oid
                      && N.eqb (Booking.ownerId b) ownerId) bs).

(** [Booking.findOne({ listingId, tenantId })] *)
Definition Booking_findOne_listing_tenant (listingId : string)
    (tenantId : ObjectId) : M (option Booking.t) :=
  lid <- castId listingId ;;
  emit (DbRead "bookings") ;;
  bs <- gets bookings ;;
  ret (find (fun b => N.eqb (Booking.listingId b) lid
                      && N.eqb (Booking.tenantId b) tenantId) bs).

(** [Booking.create({ listingId, tenantId, ownerId, message })]; the
    unique index on (listingId, tenantId) is enforced by the store. *)
Definition Booking_create (listingId : string) (tenantId ownerId : ObjectId)
    (message : option string) : M Booking.t :=
  match castObjectId host listingId, validateMessage message with
  | Some lid, [] =>
      oid <- newObjectId ;;
      t <- dateNow ;;
      let doc := Booking.mk oid lid tenantId ownerId Booking.Pending
                            message t t in
      emit (DbWrite "bookings") ;;
      bs <- gets bookings ;;
      if existsb (fun b => N.eqb (Booking.listingId b) lid
                           && N.eqb (Booking.tenantId b) tenantId) bs
      then throw duplicateKeyError
      else modify (setBookings (bs ++ [doc])) ;; ret doc
  | None, errors =>
      throw (validationError
               ("Cast to ObjectId failed at path listingId" :: errors))
  | _, errors => throw (validationError errors)
  end.

(** [booking.save()] on a document loaded as [orig]. *)
Definition Booking_save (orig doc : Booking.t) : M Booking.t :=
  match validateMessage (Booking.message doc) with
  | [] =>
      if Booking.status_eqb (Booking.status orig) (Booking.status doc)
      then ret doc
      else
        t <- dateNow ;;
        let doc := Booking.touch t doc in
        emit (DbWrite "bookings") ;;
        modify (fun w => setBookings (replaceBooking doc (bookings w)) w) ;;
        ret doc
  | errors => throw (validationError errors)
  end.

(** [.populate('listingId', 'title location images price')
     .populate('tenantId', 'name email')] *)
Definition populateBooking (b : Booking.t) : M BookingView :=
  emit (DbRead "listings") ;;
  ls <- gets listings ;;
  emit (DbRead "users") ;;
  us <- gets users ;;
  ret (mkBookingView b
         (option_map listingSummary (findListing (Booking.listingId b) ls))
         (option_map ownerSummary (findUser (Booking.tenantId b) us))).

(** [Booking.find({ ownerId }).sort({ createdAt: -1 })] *)
Definition Booking_find_owner (ownerId : ObjectId) : M (list Booking.t) :=
  emit (DbRead "bookings") ;;
  bs <- gets bookings ;;
  ret (sortNewest Booking.createdAt
         (filter (fun b => N.eqb (Booking.ownerId b) ownerId) bs)).

(** [User.findOne({ email })]; with [select('+password')] or without,
    the record found is the same. *)
Definition User_findOne_email (email : string) : M (option User.t) :=
  emit (DbRead "users") ;;
  us <- gets users ;;
  ret (findUserByEmail (normalizeEmail email) us).

(** [User.findById(id)] for an id that is already an ObjectId. *)
Definition User_findById (oid : ObjectId) : M (option User.t) :=
  emit (DbRead "users") ;;
  us <- gets users ;;
  ret (findUser oid us).

(** [User.create({ name, email, password, role })]: setters,
    validation, the pre-save hook that hashes the password, insertion
    under the unique index on [email]. *)
Definition User_create (name email password role : string) : M User.t :=
  let name := trim name in
  let email := normalizeEmail email in
  let roleErrors :=
    match Role.ofString role with
    | Some _ => []
    | None => ["Role must be either Tenant, Owner, or Admin"]
    end in
  let errors :=
    validateName name ++ validateEmail email ++ validatePassword password
    ++ roleErrors in
  match errors, Role.ofString role with
  | [], Some r =>
      seed <- gets entropy ;;
      modify (setEntropy (N.succ seed)) ;;
      let hash := bcryptHash host seed password in
      oid <- newObjectId ;;
      t <- dateNow ;;
      let doc := User.mk oid name email hash r t t in
      emit (DbWrite "users") ;;
      us <- gets users ;;
      match findUserByEmail email us with
      | Some _ => throw duplicateKeyError
      | None => modify (setUsers (us ++ [doc])) ;; ret doc
      end
  | _, _ => throw (validationError errors)
  end.

(** [cloudinary.uploader.destroy(publicId)]: the call is issued at once
    and the promise settles one way or the other. *)
Definition cloudinary_destroy (publicId : string) : M (Settled unit) :=
  emit (CloudDestroy publicId) ;;
  if destroyRejects host publicId then ret (Rejected storeError)
  else
    modify (fun w =>
      setCloud (filter (fun p => negb (p =? publicId)) (cloud w)) w) ;;
    ret (Fulfilled tt).

(** [new RegExp(search, 'i')], as the predicate the store evaluates on
    a string field. *)
Definition newRegExp (pattern : string) : M (string -> bool) :=
  match parseAtoms (chars pattern) with
  | Some atoms => ret (fun s => searches (seqOf atoms) (chars s))
  | None =>
      match regExpHost host pattern with
      | Some re => ret re
      | None => throw syntaxError
      end
  end.

(** [Number(s)] *)
Definition Number (s : string) : JsNumber :=
  match chars s with
  | [] => Finite 0
  | c :: r =>
      if forallb isDigit (c :: r)
      then Finite (inject_Z (Z.of_N (digitsValue 0 (c :: r))))
      else numberHost host s
  end.

(** [generateToken(userId)] *)
Definition generateToken (userId : ObjectId) : M string :=
  t <- dateNow ;;
  ret (jwtSign host userId t).

End Models.

(* ================================================================== *)
(** * 8. Request bodies                                                *)
(* ================================================================== *)

Module ListingBody.
Record t := mk {
  title : option string;
  description : option string;
  price : option Q;
  location : option string;
  latitude : option Q;
  longitude : option Q;
  type : option string;
  images : option (list string)
}.
Definition empty : t := mk None None None None None None None None.
End ListingBody.

Module ListingQuery.
Record t := mk {
  type : option string;
  minPrice : option string;
  maxPrice : option string;
  search : option string
}.
End ListingQuery.

Module BookingBody.
Record t := mk {
  listingId : string;
  message : option string
}.
End BookingBody.

Module RegisterBody.
Record t := mk {
  name : option string;
  email : option string;
  password : option string;
  role : option string
}.
End RegisterBody.

Module LoginBody.
Record t := mk {
  email : option string;
  password : option string
}.
End LoginBody.

(** The value of a field that has passed a truthiness test. *)
Definition valStr (o : option string) : string :=
  match o with Some s => s | None => EmptyString end.

Definition valNum (o : option Q) : Q :=
  match o with Some q => q | None => 0%Q end.

(** [messages.join(', ')] *)
Definition joinMessages (msgs : list string) : string :=
  String.concat ", " msgs.

(** Helper to extract the public id from an image URL:
    [.../upload/v123/gharsathi/listings/abc.jpg] gives
    [gharsathi/listings/abc]; [null] only when splitting throws. *)
Definition getPublicIdFromUrl (url : string) : option string :=
  let splitUrl := splitOn "/" (chars url) in
  let filename := last splitUrl [] in
  let publicId := hd [] (splitOn "." filename) in
  Some ("gharsathi/listings/" ++ str publicId)%string.

(* ================================================================== *)
(** * 9. The controllers                                               *)
(* ================================================================== *)

Section Controllers.
Variable host : Host.

(* ---------------------------------------------------------------- *)
(** ** Listing controller                                            *)
(* ---------------------------------------------------------------- *)

Definition createListing (user : User.t) (body : ListingBody.t)
  : M Response :=
  let title := ListingBody.title body in
  let description := ListingBody.description body in
  let price := ListingBody.price body in
  let location := ListingBody.location body in
  let latitude := ListingBody.latitude body in
  let longitude := ListingBody.longitude body in
  let type := ListingBody.type body in
  let images := ListingBody.images body in
  tryCatch
    (if negb (truthyStr title) || negb (truthyStr description)
        || negb (truthyNum price) || negb (truthyStr location)
        || negb (truthyStr type)
     then ret (failure 400
       "Please provide all required fields: title, description, price, location, type")
     else if Qle_bool (valNum price) 0
     then ret (failure 400 "Price must be a positive number")
     else if negb (includes ListingType.values (valStr type))
     then ret (failure 400
       "Type must be either Room, Hostel, Apartment, or Flat")
     else
       listing <- Listing_create (valStr title) (valStr description)
                    (valNum price) (valStr location) latitude longitude
                    (valStr type)
                    (match images with Some l => l | None => [] end)
                    (User._id user)      (* set from authenticated user *)
                    true ;;              (* auto-approve for development *)
       ret (mkResponse 201 true (Some "Listing created successfully") None
                       (OneListing listing)))
    (fun error =>
       emit (ConsoleError "Create Listing Error:") ;;
       if err_name error =? "ValidationError"
       then ret (failure 400 (joinMessages (err_messages error)))
       else ret (failure 500 "Failed to create listing. Please try again.")).

Definition getOwnerListings (user : User.t) : M Response :=
  tryCatch
    (ls <- Listing_find
             (mkConditions None None None None None (Some (User._id user))) ;;
     ret (mkResponse 200 true None (Some (List.length ls)) (ManyListings ls)))
    (fun error =>
       emit (ConsoleError "Get Owner Listings Error:") ;;
       ret (failure 500 "Failed to fetch listings. Please try again.")).

Definition getAllListings (query : ListingQuery.t) : M Response :=
  let type := ListingQuery.type query in
  let minPrice := ListingQuery.minPrice query in
  let maxPrice := ListingQuery.maxPrice query in
  let search := ListingQuery.search query in
  tryCatch
    ((* only show approved *)
     let q_isApproved := Some true in
     (* filter by type *)
     let q_type :=
       if truthyStr type && negb (valStr type =? "All")
       then Some (valStr type) else None in
     (* filter by price range *)
     let q_gte :=
       if (truthyStr minPrice || truthyStr maxPrice) && truthyStr minPrice
       then Some (Number host (valStr minPrice)) else None in
     let q_lte :=
       if (truthyStr minPrice || truthyStr maxPrice) && truthyStr maxPrice
       then Some (Number host (valStr maxPrice)) else None in
     (* search (title or location) *)
     q_or <- (if truthyStr search
              then searchRegex <- newRegExp host (valStr search) ;;
                   ret (Some searchRegex)
              else ret None) ;;
     ls <- Listing_find
             (mkConditions q_isApproved q_type q_gte q_lte q_or None) ;;
     vs <- mapM populateOwner ls ;;
     ret (mkResponse 200 true None (Some (List.length vs))
                     (ManyListingViews vs)))
    (fun error =>
       emit (ConsoleError "Get All Listings Error:") ;;
       ret (failure 500 "Failed to fetch listings. Please try again.")).

(** Step 5 of [updateListing], "update listing fields": the assignments
    to the document that was loaded. *)
Definition assignFields (body : ListingBody.t) (listing : Listing.t)
  : Listing.t :=
  let title := ListingBody.title body in
  let description := ListingBody.description body in
  let price := ListingBody.price body in
  let location := ListingBody.location body in
  let latitude := ListingBody.latitude body in
  let longitude := ListingBody.longitude body in
  let type := ListingBody.type body in
  let images := ListingBody.images body in
  let l := listing in
  let l := if truthyStr title
           then ListingSet.title (trim (valStr title)) l else l in
  let l := if truthyStr description
           then ListingSet.description (trim (valStr description)) l
           else l in
  let l := if truthyNum price
           then ListingSet.price (valNum price) l else l in
  let l := if truthyStr location
           then ListingSet.location (trim (valStr location)) l
           else l in
  let l := match latitude with
           | Some x => ListingSet.latitude (Some x) l
           | None => l
           end in
  let l := match longitude with
           | Some x => ListingSet.longitude (Some x) l
           | None => l
           end in
  let l := if truthyStr type
           then match ListingType.ofString (valStr type) with
                | Some ty => ListingSet.type ty l
                | None => l   (* excluded by the test on the type *)
                end
           else l in
  let l := match images with
           | Some x => ListingSet.images x l
           | None => l
           end in
  l.

Definition updateListing (user : User.t) (id : string)
    (body : ListingBody.t) : M Response :=
  let price := ListingBody.price body in
  let type := ListingBody.type body in
  tryCatch
    (found <- Listing_findById host id ;;
     match found with
     | None => ret (failure 404 "Listing not found")
     | Some listing =>
         (* only the owner can update their listing *)
         if negb (N.eqb (Listing.ownerId listing) (User._id user))
         then ret (failure 403
                     "You are not authorized to update this listing")
         (* price !== undefined && price <= 0 *)
         else if match price with
                 | Some p => Qle_bool p 0
                 | None => false
                 end
         then ret (failure 400 "Price must be a positive number")
         else if truthyStr type
                 && negb (includes ListingType.values (valStr type))
         then ret (failure 400
                     "Type must be either Room, Hostel, Apartment, or Flat")
         else
           saved <- Listing_save listing (assignFields body listing) ;;
           ret (mkResponse 200 true (Some "Listing updated successfully")
                           None (OneListing saved))
     end)
    (fun error =>
       emit (ConsoleError "Update Listing Error:") ;;
       if err_name error =? "ValidationError"
       then ret (failure 400 (joinMessages (err_messages error)))
       else if err_name error =? "CastError"
       then ret (failure 400 "Invalid listing ID")
       else ret (failure 500 "Failed to update listing. Please try again.")).

(** The callback of [listing.images.map] in [deleteListing]: the
    promise of the deletion, or nothing to wait for. *)
Definition deleteImage (url : string) : M (Settled unit) :=
  match getPublicIdFromUrl url with
  | Some publicId => cloudinary_destroy host publicId
  | None => ret (Fulfilled tt)
  end.

Definition deleteListing (user : User.t) (id : string) : M Response :=
  tryCatch
    (found <- Listing_findById host id ;;
     match found with
     | None => ret (failure 404 "Listing not found")
     | Some listing =>
         if negb (N.eqb (Listing.ownerId listing) (User._id user))
         then ret (failure 403
                     "You are not authorized to delete this listing")
         else
           (* delete images from Cloudinary *)
           (if (0 <? List.length (Listing.images listing))%nat
            then
              deletePromises <- mapM deleteImage (Listing.images listing) ;;
              promiseAll deletePromises
            else ret tt) ;;
           (* delete listing *)
           Listing_findByIdAndDelete host id ;;
           ret (mkResponse 200 true (Some "Listing deleted successfully")
                           None NoData)
     end)
    (fun error =>
       emit (ConsoleError "Delete Listing Error:") ;;
       if err_name error =? "CastError"
       then ret (failure 400 "Invalid listing ID")
       else ret (failure 500 "Failed to delete listing. Please try again.")).

Definition getAdminListings : M Response :=
  tryCatch
    (ls <- Listing_find noConditions ;;
     vs <- mapM populateOwner ls ;;
     ret (mkResponse 200 true None (Some (List.length vs))
                     (ManyListingViews vs)))
    (fun error =>
       emit (ConsoleError "Get Admin Listings Error:") ;;
       ret (failure 500 "Failed to fetch listings")).

Definition updateListingStatus (id : string) (isApproved : JsVal)
  : M Response :=
  tryCatch
    (match isApproved with
     | JBool b =>
         found <- Listing_findByIdAndUpdate host id b ;;
         match found with
         | None => ret (failure 404 "Listing not found")
         | Some listing =>
             ret (mkResponse 200 true
                    (Some ("Listing "
                           ++ (if b then "approved" else "rejected")
                           ++ " successfully")%string)
                    None (OneListing listing))
         end
     | _ =>                       (* typeof isApproved !== 'boolean' *)
         ret (failure 400 "Invalid status provided")
     end)
    (fun error =>
       emit (ConsoleError "Update Status Error:") ;;
       ret (failure 500 "Failed to update listing status")).

Definition getListingById (id : string) : M Response :=
  tryCatch
    (found <- Listing_findById host id ;;
     match found with
     | None => ret (failure 404 "Listing not found")
     | Some listing =>
         v <- populateOwner listing ;;
         ret (mkResponse 200 true None None (OneListingView v))
     end)
    (fun error =>
       emit (ConsoleError "Get Listing By ID Error:") ;;
       if err_name error =? "CastError"
       then ret (failure 400 "Invalid listing ID")
       else ret (failure 500 "Failed to fetch listing details")).

(* ---------------------------------------------------------------- *)
(** ** Booking controller                                            *)
(* ---------------------------------------------------------------- *)

Definition createBooking (user : User.t) (body : BookingBody.t)
  : M Response :=
  let listingId := BookingBody.listingId body in
  let message := BookingBody.message body in
  let tenantId := User._id user in
  tryCatch
    (found <- Listing_findById host listingId ;;
     match found with
     | None => ret (failure 404 "Listing not found")
     | Some listing =>
         (* prevent owner from booking their own listing *)
         if N.eqb (Listing.ownerId listing) tenantId
         then ret (failure 400 "You cannot book your own listing")
         else
           existingBooking <-
             Booking_findOne_listing_tenant host listingId tenantId ;;
           match existingBooking with
           | Some _ =>
               ret (failure 400
                      "You have already sent a request for this listing")
           | None =>
               booking <- Booking_create host listingId tenantId
                            (Listing.ownerId listing) message ;;
               ret (mkResponse 201 true
                      (Some "Booking request sent successfully") None
                      (OneBooking booking))
           end
     end)
    (fun error =>
       emit (ConsoleError "Create Booking Error:") ;;
       ret (failure 500 "Failed to create booking request")).

Definition getOwnerBookings (user : User.t) : M Response :=
  tryCatch
    (bs <- Booking_find_owner (User._id user) ;;
     vs <- mapM populateBooking bs ;;
     ret (mkResponse 200 true None (Some (List.length vs))
                     (ManyBookings vs)))
    (fun error =>
       emit (ConsoleError "Get Owner Bookings Error:") ;;
       ret (failure 500 "Failed to fetch bookings")).

Definition updateBookingStatus (user : User.t) (id : string)
    (status : JsVal) : M Response :=
  tryCatch
    (if negb (includesVal ["Accepted"; "Rejected"] status)
     then ret (failure 400 "Invalid status")
     else
       found <- Booking_findOne_id_owner host id (User._id user) ;;
       match found, status with
       | None, _ => ret (failure 404 "Booking not found")
       | Some booking, JStr s =>
           match Booking.statusOfString s with
           | Some st =>
               saved <- Booking_save booking (Booking.setStatus st booking) ;;
               ret (mkResponse 200 true
                      (Some ("Booking request " ++ toLowerCase s)%string) None
                      (OneBooking saved))
           | None =>            (* the schema's enum; excluded above *)
               throw (validationError
                        [("`" ++ s ++ "` is not a valid enum value for path `status`.")%string])
           end
       | Some _, _ =>           (* not a string; excluded above *)
           throw (validationError ["Cast to String failed for path `status`"])
       end)
    (fun error =>
       emit (ConsoleError "Update Booking Status Error:") ;;
       ret (failure 500 "Failed to update booking status")).

(* ---------------------------------------------------------------- *)
(** ** Authentication controller                                     *)
(* ---------------------------------------------------------------- *)

Definition authUser (u : User.t) : AuthUser :=
  mkAuthUser (User._id u) (User.name u) (User.email u) (User.role u).

Definition register (body : RegisterBody.t) : M Response :=
  let name := RegisterBody.name body in
  let email := RegisterBody.email body in
  let password := RegisterBody.password body in
  let role := RegisterBody.role body in
  tryCatch
    (if negb (truthyStr name) || negb (truthyStr email)
        || negb (truthyStr password)
     then ret (failure 400 "Please provide name, email, and password")
     else if (String.length (valStr password) <? 6)%nat
     then ret (failure 400 "Password must be at least 6 characters long")
     else
       existingUser <- User_findOne_email (toLowerCase (valStr email)) ;;
       match existingUser with
       | Some _ =>
           ret (failure 400
                  "Email already registered. Please login instead.")
       | None =>
           let validRoles := ["Tenant"; "Owner"; "Admin"] in
           let userRole := if truthyStr role then valStr role
                           else "Tenant" in
           if negb (includes validRoles userRole)
           then ret (failure 400
                       "Invalid role. Must be Tenant, Owner, or Admin")
           else
             user <- User_create host (valStr name)
                       (toLowerCase (valStr email)) (valStr password)
                       userRole ;;
             token <- generateToken host (User._id user) ;;
             ret (mkResponse 201 true (Some "Registration successful") None
                             (Auth (authUser user) token))
       end)
    (fun error =>
       emit (ConsoleError "Registration Error:") ;;
       if err_name error =? "ValidationError"
       then ret (failure 400 (joinMessages (err_messages error)))
       else if opt_eqb N.eqb (err_code error) (Some 11000%N)
       then ret (failure 400
                   "Email already registered. Please login instead.")
       else ret (failure 500 "Registration failed. Please try again.")).

Definition login (body : LoginBody.t) : M Response :=
  let email := LoginBody.email body in
  let password := LoginBody.password body in
  tryCatch
    (if negb (truthyStr email) || negb (truthyStr password)
     then ret (failure 400 "Please provide email and password")
     else
       (* dev shortcut: auto-create the admin if it does not exist *)
       (if (valStr email =? "admin@gharsathi.com")
           && (valStr password =? "admin123")
        then
          adminUser <- User_findOne_email (valStr email) ;;
          match adminUser with
          | None =>
              emit (ConsoleLog "Creating default admin user...") ;;
              User_create host "System Admin" "admin@gharsathi.com"
                          "admin123" "Admin" ;;
              ret tt
          | Some _ => ret tt
          end
        else ret tt) ;;
       found <- User_findOne_email (toLowerCase (valStr email)) ;;
       match found with
       | None => ret (failure 401 "Invalid email or password")
       | Some user =>
           let isPasswordCorrect :=
             bcryptCompare host (valStr password) (User.password user) in
           if negb isPasswordCorrect
           then ret (failure 401 "Invalid email or password")
           else
             token <- generateToken host (User._id user) ;;
             ret (mkResponse 200 true (Some "Login successful") None
                             (Auth (authUser user) token))
       end)
    (fun error =>
       emit (ConsoleError "Login Error:") ;;
       ret (failure 500 "Login failed. Please try again.")).

(* ---------------------------------------------------------------- *)
(** ** Authentication middleware                                     *)
(* ---------------------------------------------------------------- *)

Definition startsWith (prefix s : string) : bool :=
  String.prefix prefix s.

(** [protect]: the response that ends the request, or the user that is
    attached to it before [next()]. *)
Definition protect (authorization : option string)
  : M (Response + User.t) :=
  tryCatch
    (let token :=
       match authorization with
       | Some h =>
           if negb (h =? EmptyString) && startsWith "Bearer" h
           then option_map str (nth_error (splitOn " " (chars h)) 1)
           else None
       | None => None
       end in
     if negb (truthyStr token)
     then ret (inl (failure 401
            "Not authorized. Please login to access this resource."))
     else
       t <- dateNow ;;
       match jwtVerify host (valStr token) t with
       | Decoded id =>
           found <- User_findById id ;;
           match found with
           | None => ret (inl (failure 401
                                 "User not found. Please login again."))
           | Some user => ret (inr user)
           end
       | JsonWebTokenError =>
           ret (inl (failure 401 "Invalid token. Please login again."))
       | TokenExpiredError =>
           ret (inl (failure 401 "Token expired. Please login again."))
       end)
    (fun error =>
       emit (ConsoleError "Auth Middleware Error:") ;;
       ret (inl (failure 500 "Authentication failed. Please try again."))).

(** [requireOwner]: [None] is [next()]. *)
Definition requireOwner (user : option User.t) : option Response :=
  match user with
  | None => Some (failure 401 "Not authorized. Please login first.")
  | Some u =>
      if negb (Role.eqb (User.role u) Role.Owner)
         && negb (Role.eqb (User.role u) Role.Admin)
      then Some (failure 403
        "Access denied. This resource is only available to property owners.")
      else None
  end.

(** [requireAdmin]: [None] is [next()]. *)
Definition requireAdmin (user : option User.t) : option Response :=
  match user with
  | None => Some (failure 401 "Not authorized. Please login first.")
  | Some u =>
      if negb (Role.eqb (User.role u) Role.Admin)
      then Some (failure 403
        "Access denied. This resource is only available to administrators.")
      else None
  end.

(* ---------------------------------------------------------------- *)
(** ** Routes                                                        *)
(* ---------------------------------------------------------------- *)

(** [router.METHOD(path, protect, handler)] *)
Definition protected (authorization : option string)
    (handler : User.t -> M Response) : M Response :=
  r <- protect authorization ;;
  match r with
  | inl response => ret response
  | inr user => handler user
  end.

(** [router.METHOD(path, protect, gate, handler)] *)
Definition gated (gate : option User.t -> option Response)
    (authorization : option string) (handler : User.t -> M Response)
  : M Response :=
  protected authorization
    (fun user =>
       match gate (Some user) with
       | Some response => ret response
       | None => handler user
       end).

Inductive Request :=
| POST_auth_register (body : RegisterBody.t)
| POST_auth_login (body : LoginBody.t)
| GET_listings (query : ListingQuery.t)
| POST_listings (authorization : option string) (body : ListingBody.t)
| GET_listings_mine (authorization : option string)
| PUT_listings_id (authorization : option string) (id : string)
                  (body : ListingBody.t)
| DELETE_listings_id (authorization : option string) (id : string)
| GET_listings_admin_all (authorization : option string)
| PATCH_listings_id_status (authorization : option string) (id : string)
                           (isApproved : JsVal)
| GET_listings_id (id : string)
| POST_bookings (authorization : option string) (body : BookingBody.t)
| GET_bookings_owner (authorization : option string)
| PATCH_bookings_id_status (authorization : option string) (id : string)
                           (status : JsVal).

(** The routers of the three resources. *)
Definition route (r : Request) : M Response :=
  match r with
  | POST_auth_register body => register body
  | POST_auth_login body => login body
  | GET_listings query => getAllListings query
  | POST_listings a body =>
      gated requireOwner a (fun user => createListing user body)
  | GET_listings_mine a => gated requireOwner a getOwnerListings
  | PUT_listings_id a id body =>
      gated requireOwner a (fun user => updateListing user id body)
  | DELETE_listings_id a id =>
      gated requireOwner a (fun user => deleteListing user id)
  | GET_listings_admin_all a =>
      gated requireAdmin a (fun _ => getAdminListings)
  | PATCH_listings_id_status a id isApproved =>
      gated requireAdmin a (fun _ => updateListingStatus id isApproved)
  | GET_listings_id id => getListingById id
  | POST_bookings a body =>
      protected a (fun user => createBooking user body)
  | GET_bookings_owner a => gated requireOwner a getOwnerBookings
  | PATCH_bookings_id_status a id status =>
      gated requireOwner a (fun user => updateBookingStatus user id status)
  end.

End Controllers.

(* ================================================================== *)
(** * 10. A sample host and sample data                                *)
(* ================================================================== *)

(** One concrete host, on which the handlers can be run. *)
Module Sample.

Definition isHex (c : ascii) : bool :=
  let n := nat_of_ascii c in
  ((48 <=? n)%nat && (n <=? 57)%nat)
  || ((65 <=? n)%nat && (n <=? 70)%nat)
  || ((97 <=? n)%nat && (n <=? 102)%nat).

Definition hexDigit (c : ascii) : N :=
  let n := nat_of_ascii c in
  N.of_nat (if (n <=? 57)%nat then n - 48
            else if (n <=? 70)%nat then n - 55 else n - 87).

(** Twenty-four hexadecimal digits. *)
Definition cast (s : string) : option ObjectId :=
  if (String.length s =? 24)%nat && forallb isHex (chars s)
  then Some (fold_left (fun acc c => (16 * acc + hexDigit c)%N) (chars s) 0%N)
  else None.

Definition hash (seed : N) (plain : string) : string :=
  ("$2b$10$" ++ plain)%string.

Definition compare (plain hashed : string) : bool :=
  hashed =? hash 0 plain.

Definition sign (id : ObjectId) (t : Z) : string :=
  if N.eqb id 1 then "owner-token"
  else if N.eqb id 2 then "admin-token"
  else if N.eqb id 3 then "tenant-token"
  else "token".

Definition verify (token : string) (t : Z) : JwtResult :=
  if token =? "owner-token" then Decoded 1
  else if token =? "admin-token" then Decoded 2
  else if token =? "tenant-token" then Decoded 3
  else if token =? "old-token" then TokenExpiredError
  else JsonWebTokenError.

Definition host : Host := {|
  castObjectId := cast;
  bcryptHash := hash;
  bcryptCompare := compare;
  jwtSign := sign;
  jwtVerify := verify;
  destroyRejects := fun publicId => publicId =? "gharsathi/listings/broken";
  regExpHost := fun _ => None;
  numberHost := fun _ => NaN
|}.

Definition owner : User.t :=
  User.mk 1 "Olivia Owner" "olivia@example.com" (hash 0 "secret1")
          Role.Owner 10 10.
Definition admin : User.t :=
  User.mk 2 "Adam Admin" "adam@example.com" (hash 0 "secret2")
          Role.Admin 20 20.
Definition tenant : User.t :=
  User.mk 3 "Tara Tenant" "tara@example.com" (hash 0 "secret3")
          Role.Tenant 30 30.

(** Ids as the requests spell them. *)
Definition id16 : string := "000000000000000000000010".
Definition id17 : string := "000000000000000000000011".
Definition id32 : string := "000000000000000000000020".

Definition room : Listing.t :=
  Listing.mk 16 "Sunny room near the park"
    "A bright furnished room, five minutes from the bus stop."
    1000 "Lalitpur" None None ListingType.Room
    ["https://res.cloudinary.com/demo/image/upload/v1/gharsathi/listings/abc.jpg"]
    1 true 100 100.

Definition flat : Listing.t :=
  Listing.mk 17 "Two bedroom flat"
    "A quiet flat on the second floor with parking."
    2500 "St. Mary Road" None None ListingType.Flat
    ["https://res.cloudinary.com/demo/image/upload/v1/gharsathi/listings/broken.jpg"]
    1 true 200 200.

Definition request : Booking.t :=
  Booking.mk 32 16 3 1 Booking.Accepted (Some "Is it still free?") 300 400.

(** The body of a request that creates a listing. *)
Definition newRoom : ListingBody.t :=
  ListingBody.mk (Some "Room with a view")
    (Some "A small room on the top floor, shared kitchen.")
    (Some 1000%Q) (Some "Bhaktapur") None None (Some "Room") None.

(** Bodies of requests that update a listing. *)
Definition priceZero : ListingBody.t :=
  ListingBody.mk None None (Some 0%Q) None None None None None.

Definition retitle : ListingBody.t :=
  ListingBody.mk (Some "Sunny room by the park") None None None None None
                 None None.

Definition world : World :=
  mkWorld [owner; admin; tenant] [room; flat] [request]
          ["gharsathi/listings/abc"; "gharsathi/listings/broken"]
          1000 64 0 [].

End Sample.

(** Requests on the sample world. *)
Module SampleRequests.
Import Sample.

Definition ownerToken : option string := Some "Bearer owner-token".
Definition adminToken : option string := Some "Bearer admin-token".
Definition tenantToken : option string := Some "Bearer tenant-token".

(** The owner rejects a booking request already accepted. *)
Definition rejectAccepted : Request :=
  PATCH_bookings_id_status ownerToken id32 (JStr "Rejected").

(** Somebody registers as an administrator. *)
Definition registerAdmin : RegisterBody.t :=
  RegisterBody.mk (Some "Eve") (Some "Eve@Example.com") (Some "hunter22")
                  (Some "Admin").

(** The development credentials, on a world without that account. *)
Definition devAdmin : LoginBody.t :=
  LoginBody.mk (Some "admin@gharsathi.com") (Some "admin123").



(** The owner deletes the listing whose image the store will not
    delete. *)
Definition deleteFlat : Request := DELETE_listings_id ownerToken id17.

End SampleRequests.

(* ================================================================== *)
(** * 11. Vocabulary of the properties                                 *)
(* ================================================================== *)

(** The world a computation leaves behind, and its answer. *)
Definition worldAfter {A} (m : M A) (w : World) : World := snd (m w).
Definition answer {A} (m : M A) (w : World) : Result A := fst (m w).

(** A computation that leaves one component of the world as it was. *)
Definition unchanged {A S} (proj : World -> S) (m : M A) : Prop :=
  forall w, proj (worldAfter m w) = proj w.

(** What may happen to a stored booking: it stays as it is, or its status
    is decided (set to a status other than Pending). *)
Definition bookingStep (b b' : Booking.t) : Prop :=
  b' = b
  \/ (Booking._id b' = Booking._id b
      /\ Booking.status b' <> Booking.Pending).

(** What may happen to the collection of bookings: every stored booking
    takes a step, in place, and bookings may be added at the end. *)
Definition bookingsEvolve (bs bs' : list Booking.t) : Prop :=
  exists kept added, bs' = kept ++ added /\ Forall2 bookingStep bs kept.

(** A computation under which the bookings only evolve. *)
Definition evolves {A} (m : M A) : Prop :=
  forall w, bookingsEvolve (bookings w) (bookings (worldAfter m w)).

(** The fields [create] requires of a body, as its controller tests them:
    title, description, price, location and type present, the price
    positive, the type one of the four. *)
Definition presentFields (body : ListingBody.t) : Prop :=
  truthyStr (ListingBody.title body) = true
  /\ truthyStr (ListingBody.description body) = true
  /\ (exists p, ListingBody.price body = Some p /\ (0 < p)%Q)
  /\ truthyStr (ListingBody.location body) = true
  /\ includes ListingType.values (valStr (ListingBody.type body)) = true.

(** The bounds the listing schema puts on the fields of a body: lengths
    of title and description, a location that is not blank, coordinates
    in range, image URLs that are not empty. *)
Definition withinSchema (body : ListingBody.t) : Prop :=
  validateTitle (trim (valStr (ListingBody.title body))) = []
  /\ validateDescription (trim (valStr (ListingBody.description body))) = []
  /\ validateLocation (trim (valStr (ListingBody.location body))) = []
  /\ validateLatitude (ListingBody.latitude body) = []
  /\ validateLongitude (ListingBody.longitude body) = []
  /\ validateImages (match ListingBody.images body with
                     | Some l => l
                     | None => []
                     end) = [].

(** The strings a regular expression denotes. *)
Inductive Lang : Regex -> list ascii -> Prop :=
| LangEps : Lang Eps []
| LangSym cs a : inSet cs a = true -> Lang (Sym cs) [a]
| LangSeq r s x y : Lang r x -> Lang s y -> Lang (Seq r s) (x ++ y)
| LangAltL r s x : Lang r x -> Lang (Alt r s) x
| LangAltR r s x : Lang s x -> Lang (Alt r s) x
| LangStarNil r : Lang (Star r) []
| LangStarCons r x y : Lang r x -> Lang (Star r) y -> Lang (Star r) (x ++ y).













(** Newest first. *)
Definition newerFirst (a b : Listing.t) : Prop :=
  (Listing.createdAt b <= Listing.createdAt a)%Z.

(** A body in which the empty title, description, location and type are
    left out. *)
Definition dropEmpty (o : option string) : option string :=
  if truthyStr o then o else None.

Definition withoutEmpty (body : ListingBody.t) : ListingBody.t :=
  ListingBody.mk (dropEmpty (ListingBody.title body))
                 (dropEmpty (ListingBody.description body))
                 (ListingBody.price body)
                 (dropEmpty (ListingBody.location body))
                 (ListingBody.latitude body)
                 (ListingBody.longitude body)
                 (dropEmpty (ListingBody.type body))
                 (ListingBody.images body).

(* ------------------------------------------------------------------ *)
(** ** Vocabulary of the properties of the other operations            *)
(* ------------------------------------------------------------------ *)

(** An invariant of the world that a computation keeps. *)
Definition preserves {A} (Inv : World -> Prop) (m : M A) : Prop :=
  forall w, Inv w -> Inv (worldAfter m w).

(** Requests served one after the other. *)
Definition serve (host : Host) (rs : list Request) (w : World) : World :=
  fold_left (fun w r => worldAfter (route host r) w) rs w.

(** What the unique index of the booking schema is on. *)
Definition bookingKey (b : Booking.t) : ObjectId * ObjectId :=
  (Booking.listingId b, Booking.tenantId b).

(** Bookings as the store keeps them: ids already generated, no id
    twice, no (listing, tenant) pair twice. *)
Definition bookingsWellKeyed (w : World) : Prop :=
  Forall (fun b => (Booking._id b < nextId w)%N) (bookings w)
  /\ NoDup (map Booking._id (bookings w))
  /\ NoDup (map bookingKey (bookings w)).

(** No e-mail address registered twice. *)
Definition uniqueEmails (w : World) : Prop :=
  NoDup (map User.email (users w)).

(** A listing that passes its schema and has a positive price. *)
Definition soundListing (l : Listing.t) : Prop :=
  validateListing l = [] /\ (0 < Listing.price l)%Q.

Definition listingsSound (w : World) : Prop :=
  Forall soundListing (listings w).

(** The booking that [createBooking] stores. *)
Definition newBooking (w : World) (listingId tenantId ownerId : ObjectId)
    (message : option string) : Booking.t :=
  Booking.mk (nextId w) listingId tenantId ownerId Booking.Pending message
             (now w) (now w).

(** The same (listing, tenant) pair as a booking. *)
Definition sameKey (listingId tenantId : ObjectId) (b : Booking.t) : bool :=
  N.eqb (Booking.listingId b) listingId && N.eqb (Booking.tenantId b) tenantId.

(** The users [us0] are still stored, in their places, before any user
    added since. *)
Definition usersKept (us0 : list User.t) (w : World) : Prop :=
  exists extra, users w = us0 ++ extra.

(** Nothing stored differs between two worlds (the clock, the id supply
    and the trace may). *)
Definition sameStore (w w' : World) : Prop :=
  users w' = users w /\ listings w' = listings w
  /\ bookings w' = bookings w /\ cloud w' = cloud w.

(** The middleware each router puts before the handler. *)
Inductive Gate := Public | AnyUser | OwnerOrAdmin | AdminOnly.

Definition gateOf (r : Request) : Gate :=
  match r with
  | POST_auth_register _ | POST_auth_login _
  | GET_listings _ | GET_listings_id _ => Public
  | POST_bookings _ _ => AnyUser
  | POST_listings _ _ | GET_listings_mine _ | PUT_listings_id _ _ _
  | DELETE_listings_id _ _ | GET_bookings_owner _
  | PATCH_bookings_id_status _ _ _ => OwnerOrAdmin
  | GET_listings_admin_all _ | PATCH_listings_id_status _ _ _ => AdminOnly
  end.

(** The [Authorization] header of a request. *)
Definition authorizationOf (r : Request) : option string :=
  match r with
  | POST_auth_register _ | POST_auth_login _
  | GET_listings _ | GET_listings_id _ => None
  | POST_bookings a _
  | POST_listings a _ | GET_listings_mine a | PUT_listings_id a _ _
  | DELETE_listings_id a _ | GET_bookings_owner a
  | PATCH_bookings_id_status a _ _
  | GET_listings_admin_all a | PATCH_listings_id_status a _ _ => a
  end.

(** A listing with its owner populated from the users of [w]. *)
Definition viewOf (w : World) (l : Listing.t) : ListingView :=
  mkView l (option_map ownerSummary (findUser (Listing.ownerId l) (users w))).

(** A booking with its listing and its tenant populated from [w]. *)
Definition bookingViewOf (w : World) (b : Booking.t) : BookingView :=
  mkBookingView b
    (option_map listingSummary (findListing (Booking.listingId b) (listings w)))
    (option_map ownerSummary (findUser (Booking.tenantId b) (users w))).

(** More sample data. *)
Module MoreSamples.

(** A message of 501 characters. *)
Definition longMessage : string := str (repeat "x"%char 501).

End MoreSamples.

(** Listings have distinct ids, all handed out already. *)
Definition listingsWellKeyed (w : World) : Prop :=
  Forall (fun l => (Listing._id l < nextId w)%N) (listings w)
  /\ NoDup (map Listing._id (listings w)).

(** A listing of [w0] that [w] still has, has kept what [proj] shows of
    it; ids of [w0] are not handed out again. *)
Definition keepsListings {T} (proj : Listing.t -> T) (w0 w : World) : Prop :=
  (nextId w0 <= nextId w)%N
  /\ listingsWellKeyed w
  /\ forall l0 l, In l0 (listings w0) -> In l (listings w) ->
                  Listing._id l = Listing._id l0 -> proj l = proj l0.

(** The owner of a listing and the time it was created. *)
Definition origin (l : Listing.t) : ObjectId * Z :=
  (Listing.ownerId l, Listing.createdAt l).

(** The route on which administrators approve and reject listings. *)
Definition isModeration (r : Request) : bool :=
  match r with
  | PATCH_listings_id_status _ _ _ => true
  | _ => false
  end.

(** The character [c] does not occur in [s]. *)
Definition lacks (c : ascii) (s : string) : bool :=
  forallb (fun x => negb (Ascii.eqb x c)) (chars s).

(** Every character a regular expression can read satisfies [p]. *)
Fixpoint alphabet (p : ascii -> bool) (r : Regex) : Prop :=
  match r with
  | Void | Eps => True
  | Sym cs => forall a, inSet cs a = true -> p a = true
  | Seq r s | Alt r s => alphabet p r /\ alphabet p s
  | Star r => alphabet p r
  end.

(** The characters of an e-mail address on either side of the at sign:
    letters, digits, the underscore, the dot and the hyphen. *)
Definition addressChar (c : ascii) : bool :=
  isWordChar c || Ascii.eqb c "." || Ascii.eqb c "-".

(* ================================================================== *)
(** * 12. Reasoning about the monad                                    *)
(* ================================================================== *)

(** Case analysis on the innermost scrutinee of the goal. *)
Ltac break_inner :=
  match goal with
  | |- context [match ?x with _ => _ end] =>
      lazymatch x with
      | context [match _ with _ => _ end] => fail
      | _ => destruct x eqn:?
      end
  end.

Ltac run_monad :=
  unfold tryCatch, bind, emit, modify, gets, ret, throw, dateNow,
    newObjectId, castId in *.

Section Frames.
Context {S : Type} (proj : World -> S).

Lemma unchanged_ret {A} (a : A) : unchanged proj (ret a).
Proof. now intros w. Qed.

Lemma unchanged_throw {A} (e : JsError) : unchanged proj (@throw A e).
Proof. now intros w. Qed.

Lemma unchanged_gets {A} (f : World -> A) : unchanged proj (gets f).
Proof. now intros w. Qed.

Lemma unchanged_modify (f : World -> World) :
  (forall w, proj (f w) = proj w) -> unchanged proj (modify f).
Proof. intros H w. apply H. Qed.

Lemma unchanged_bind {A B} (m : M A) (k : A -> M B) :
  unchanged proj m -> (forall a, unchanged proj (k a)) ->
  unchanged proj (bind m k).
Proof.
  intros Hm Hk w. unfold worldAfter, bind.
  specialize (Hm w). unfold worldAfter in Hm.
  destruct (m w) as [[a | e] w1]; cbn in *.
  - rewrite <- Hm. apply Hk.
  - exact Hm.
Qed.

Lemma unchanged_tryCatch {A} (m : M A) (h : JsError -> M A) :
  unchanged proj m -> (forall e, unchanged proj (h e)) ->
  unchanged proj (tryCatch m h).
Proof.
  intros Hm Hh w. unfold worldAfter, tryCatch.
  specialize (Hm w). unfold worldAfter in Hm.
  destruct (m w) as [[a | e] w1]; cbn in *.
  - exact Hm.
  - rewrite <- Hm. apply Hh.
Qed.

Lemma unchanged_mapM {A B} (f : A -> M B) (l : list A) :
  (forall x, unchanged proj (f x)) -> unchanged proj (mapM f l).
Proof.
  intros Hf. induction l as [| x l IH]; cbn.
  - apply unchanged_ret.
  - apply unchanged_bind; [apply Hf |].
    intros y. apply unchanged_bind; [exact IH |].
    intros ys. apply unchanged_ret.
Qed.
End Frames.

Ltac head_of t :=
  lazymatch t with
  | ?f _ => head_of f
  | _ => t
  end.

(** Steps through a computation by its head, leaving nothing to
    conversion. *)
Ltac frame_step :=
  lazymatch goal with
  | |- unchanged _ (ret _) => apply unchanged_ret
  | |- unchanged _ (throw _) => apply unchanged_throw
  | |- unchanged _ (gets _) => apply unchanged_gets
  | |- unchanged _ (bind _ _) => apply unchanged_bind; [| intros ?]
  | |- unchanged _ (tryCatch _ _) => apply unchanged_tryCatch; [| intros ?]
  | |- unchanged _ (mapM _ _) => apply unchanged_mapM; intros ?
  | |- unchanged _ (modify _) => apply unchanged_modify; intros ?; reflexivity
  | |- unchanged _ (match ?x with _ => _ end) => destruct x
  | |- unchanged _ (let _ := _ in _) => cbv zeta
  | |- unchanged _ ?m => let h := head_of m in unfold h
  end.

Ltac frame := repeat frame_step.

(** ** The booking workflow *)

Lemma includesVal_targets (v : JsVal) :
  includesVal ["Accepted"; "Rejected"] v = true ->
  v = JStr "Accepted" \/ v = JStr "Rejected".
Proof.
  destruct v as [| | b | q | s]; cbn; try discriminate.
  destruct (String.eqb_spec s "Accepted") as [-> | _]; [now left |].
  destruct (String.eqb_spec s "Rejected") as [-> | _]; [now right |].
  discriminate.
Qed.

Lemma find_none_joint (oid caller : ObjectId) (bs : list Booking.t) :
  (forall b, In b bs -> Booking._id b = oid -> Booking.ownerId b <> caller) ->
  find (fun b => N.eqb (Booking._id b) oid && N.eqb (Booking.ownerId b) caller)
       bs = None.
Proof.
  intros H.
  destruct (find _ bs) as [b |] eqn:E; [| reflexivity].
  apply find_some in E. destruct E as [Hin Hb].
  apply andb_true_iff in Hb. destruct Hb as [H1 H2].
  apply N.eqb_eq in H1, H2. exfalso. now apply (H b).
Qed.

(** C3, as the code has it.  [updateStatus] with a target outside
    {Accepted, Rejected} answers 400 "Invalid status" without touching
    the store (no lookup is traced); with a target inside the set and an
    id that is an ObjectId and that no booking carries together with the
    caller as owner, it answers 404 "Booking not found" after one
    lookup, the bookings unchanged; with a target inside the set and an
    id that is not an ObjectId, it answers 500, the error logged and no
    lookup traced; and it never answers 403, whatever the caller, the id
    and the store. *)
Theorem updateBookingStatus_not_found
    (host : Host) (user : User.t) (id : string) (target : JsVal) (w : World) :
  (includesVal ["Accepted"; "Rejected"] target = false ->
     updateBookingStatus host user id target w
     = (Ok (failure 400 "Invalid status"), w))
  /\ (includesVal ["Accepted"; "Rejected"] target = true ->
      forall oid, castObjectId host id = Some oid ->
      (forall b, In b (bookings w) -> Booking._id b = oid ->
                 Booking.ownerId b <> User._id user) ->
      updateBookingStatus host user id target w
      = (Ok (failure 404 "Booking not found"), addEvent (DbRead "bookings") w))
  /\ (includesVal ["Accepted"; "Rejected"] target = true ->
      castObjectId host id = None ->
      updateBookingStatus host user id target w
      = (Ok (failure 500 "Failed to update booking status"),
         addEvent (ConsoleError "Update Booking Status Error:") w))
  /\ (forall r w', updateBookingStatus host user id target w = (Ok r, w') ->
      status r <> 403).
Proof.
  split; [| split; [| split]].
  - intros Hbad. unfold updateBookingStatus, tryCatch. now rewrite Hbad.
  - intros Hok oid Hcast Hnone.
    unfold updateBookingStatus, tryCatch, Booking_findOne_id_owner, castId,
      bind, emit, modify, gets, ret.
    rewrite Hok, Hcast. cbn.
    now rewrite (find_none_joint oid (User._id user) (bookings w) Hnone).
  - intros Hok Hcast.
    unfold updateBookingStatus, tryCatch, Booking_findOne_id_owner, castId.
    now rewrite Hok, Hcast.
  - intros r w'.
    unfold updateBookingStatus, tryCatch, Booking_findOne_id_owner, castId,
      Booking_save, bind, emit, modify, gets, ret, throw, dateNow.
    repeat (break_inner; cbn);
      intros H; inversion H; subst; cbn; discriminate.
Qed.

Lemma bookings_frame_listing_ops host :
  (forall user body, unchanged bookings (createListing user body))
  /\ (forall user, unchanged bookings (getOwnerListings user))
  /\ (forall q, unchanged bookings (getAllListings host q))
  /\ (forall user id body, unchanged bookings (updateListing host user id body))
  /\ (forall user id, unchanged bookings (deleteListing host user id))
  /\ unchanged bookings getAdminListings
  /\ (forall id v, unchanged bookings (updateListingStatus host id v))
  /\ (forall id, unchanged bookings (getListingById host id)).
Proof.
  repeat split; intros; frame.
Qed.

Lemma bookings_frame_auth_ops host :
  (forall body, unchanged bookings (register host body))
  /\ (forall body, unchanged bookings (login host body))
  /\ (forall a, unchanged bookings (protect host a))
  /\ (forall user, unchanged bookings (getOwnerBookings user)).
Proof.
  repeat split; intros; frame.
Qed.

Lemma bookingStep_trans (a b c : Booking.t) :
  bookingStep a b -> bookingStep b c -> bookingStep a c.
Proof.
  intros [-> | [Hid Hst]] [-> | [Hid' Hst']]; unfold bookingStep; auto.
  right. split; [congruence | assumption].
Qed.

Lemma Forall2_step_refl (bs : list Booking.t) : Forall2 bookingStep bs bs.
Proof. induction bs; constructor; [now left | assumption]. Qed.

Lemma Forall2_step_trans (xs ys zs : list Booking.t) :
  Forall2 bookingStep xs ys -> Forall2 bookingStep ys zs ->
  Forall2 bookingStep xs zs.
Proof.
  intros H. revert zs.
  induction H as [| x y xs ys Hxy _ IH]; intros zs Hz.
  - inversion Hz. constructor.
  - inversion Hz as [| y' z ys' zs' Hyz Hrest]; subst.
    constructor; [eapply bookingStep_trans; eassumption | now apply IH].
Qed.

Lemma bookingsEvolve_refl (bs : list Booking.t) : bookingsEvolve bs bs.
Proof.
  exists bs, []. split; [now rewrite app_nil_r | apply Forall2_step_refl].
Qed.

Lemma bookingsEvolve_trans (xs ys zs : list Booking.t) :
  bookingsEvolve xs ys -> bookingsEvolve ys zs -> bookingsEvolve xs zs.
Proof.
  intros (k1 & a1 & -> & H1) (k2 & a2 & -> & H2).
  apply Forall2_app_inv_l in H2.
  destruct H2 as (k & a & Hk & Ha & ->).
  exists k, (a ++ a2). split; [now rewrite app_assoc |].
  eapply Forall2_step_trans; eassumption.
Qed.

Lemma bookingsEvolve_added (bs added : list Booking.t) :
  bookingsEvolve bs (bs ++ added).
Proof. exists bs, added. split; [reflexivity | apply Forall2_step_refl]. Qed.

Lemma bookingsEvolve_replace (d : Booking.t) (bs : list Booking.t) :
  Booking.status d <> Booking.Pending ->
  bookingsEvolve bs (replaceBooking d bs).
Proof.
  intros Hd. exists (replaceBooking d bs), [].
  split; [now rewrite app_nil_r |].
  induction bs as [| b bs IH]; cbn; constructor; [| exact IH].
  destruct (N.eqb_spec (Booking._id b) (Booking._id d)) as [E | _].
  - right. split; [now symmetry | assumption].
  - now left.
Qed.

Lemma unchanged_evolves {A} (m : M A) : unchanged bookings m -> evolves m.
Proof. intros H w. rewrite H. apply bookingsEvolve_refl. Qed.

Lemma evolves_bind {A B} (m : M A) (k : A -> M B) :
  evolves m -> (forall a, evolves (k a)) -> evolves (bind m k).
Proof.
  intros Hm Hk w. unfold worldAfter, bind.
  specialize (Hm w). unfold worldAfter in Hm.
  destruct (m w) as [[a | e] w1]; cbn in *; [| exact Hm].
  eapply bookingsEvolve_trans; [exact Hm | apply Hk].
Qed.

Lemma evolves_createBooking host user body :
  evolves (createBooking host user body).
Proof.
  intros w.
  unfold worldAfter, createBooking, Listing_findById,
    Booking_findOne_listing_tenant, Booking_create.
  run_monad.
  repeat (break_inner; cbn);
    first [apply bookingsEvolve_refl | apply bookingsEvolve_added].
Qed.

Lemma evolves_updateBookingStatus host user id target :
  evolves (updateBookingStatus host user id target).
Proof.
  intros w. unfold worldAfter, updateBookingStatus.
  destruct (includesVal ["Accepted"; "Rejected"] target) eqn:E; cbn;
    [| unfold tryCatch; cbn; apply bookingsEvolve_refl].
  apply includesVal_targets in E.
  unfold Booking_findOne_id_owner, Booking_save. run_monad.
  destruct E as [-> | ->]; cbn;
    repeat (break_inner; cbn);
    first [ apply bookingsEvolve_refl
          | match goal with
            | |- bookingsEvolve _ (map (fun b => if _ then ?d else b) _) =>
                apply (bookingsEvolve_replace d); cbn; discriminate
            end ].
Qed.

Lemma evolves_protected host a (h : User.t -> M Response) :
  (forall u, evolves (h u)) -> evolves (protected host a h).
Proof.
  intros Hh. unfold protected. apply evolves_bind.
  - apply unchanged_evolves, (bookings_frame_auth_ops host).
  - intros [r | u]; [apply unchanged_evolves, unchanged_ret | apply Hh].
Qed.

Lemma evolves_gated host gate a (h : User.t -> M Response) :
  (forall u, evolves (h u)) -> evolves (gated host gate a h).
Proof.
  intros Hh. unfold gated. apply evolves_protected. intros u.
  destruct (gate (Some u)); [apply unchanged_evolves, unchanged_ret | apply Hh].
Qed.

Lemma evolves_route host (r : Request) : evolves (route host r).
Proof.
  pose proof (bookings_frame_listing_ops host)
    as (L1 & L2 & L3 & L4 & L5 & L6 & L7 & L8).
  pose proof (bookings_frame_auth_ops host) as (A1 & A2 & A3 & A4).
  destruct r; cbn;
    try apply evolves_gated; try apply evolves_protected; intros;
    first [ apply evolves_createBooking
          | apply evolves_updateBookingStatus
          | apply unchanged_evolves; auto ].
Qed.

(** Any number of requests, one after the other. *)
Lemma evolves_requests host (rs : list Request) (w : World) :
  bookingsEvolve (bookings w)
    (bookings (fold_left (fun w r => worldAfter (route host r) w) rs w)).
Proof.
  revert w. induction rs as [| r rs IH]; intros w; cbn.
  - apply bookingsEvolve_refl.
  - eapply bookingsEvolve_trans; [apply evolves_route | apply IH].
Qed.

Lemma In_replaceBooking (d b : Booking.t) (bs : list Booking.t) :
  In b bs -> Booking._id b = Booking._id d -> In d (replaceBooking d bs).
Proof.
  intros Hin Hid. unfold replaceBooking. apply in_map_iff.
  exists b. split; [| assumption].
  now rewrite Hid, N.eqb_refl.
Qed.

Lemma setStatus_same (b : Booking.t) (st : Booking.Status) :
  Booking.status_eqb (Booking.status b) st = true -> Booking.setStatus st b = b.
Proof.
  destruct b as [i l t o s m c u]; cbn.
  destruct s, st; cbn; intros H; try discriminate; reflexivity.
Qed.

(** C1, as the code has it.  Over any sequence of requests the stored
    bookings only evolve: none is removed, and a status changes only by
    being set to Accepted or Rejected, never back to Pending.  Neither
    Accepted nor Rejected is terminal: [updateStatus] by the owner of the
    booking sets the requested target whatever the current status is. *)
Theorem booking_status_transitions (host : Host) :
  (forall (rs : list Request) (w : World),
      bookingsEvolve (bookings w)
        (bookings (fold_left (fun w r => worldAfter (route host r) w) rs w)))
  /\ (forall (user : User.t) (id : string) (oid : ObjectId) (b : Booking.t)
             (s : string) (w : World),
      castObjectId host id = Some oid ->
      find (fun b => N.eqb (Booking._id b) oid
                     && N.eqb (Booking.ownerId b) (User._id user))
           (bookings w) = Some b ->
      validateMessage (Booking.message b) = [] ->
      includes ["Accepted"; "Rejected"] s = true ->
      exists (st : Booking.Status) (saved : Booking.t) (w' : World),
        Booking.statusOfString s = Some st
        /\ updateBookingStatus host user id (JStr s) w
           = (Ok (mkResponse 200 true
                    (Some ("Booking request " ++ toLowerCase s)%string) None
                    (OneBooking saved)), w')
        /\ Booking.status saved = st
        /\ Booking._id saved = Booking._id b
        /\ In saved (bookings w')).
Proof.
  split; [intros rs w; apply evolves_requests |].
  intros user id oid b s w Hcast Hfind Hmsg Hs.
  assert (Hin : In b (bookings w)) by (eapply find_some; eassumption).
  assert (Hst : exists st, Booking.statusOfString s = Some st
                           /\ st <> Booking.Pending).
  { destruct (includesVal_targets (JStr s) Hs) as [E | E];
      inversion E; subst; cbn; eexists; split; try reflexivity; discriminate. }
  destruct Hst as (st & Hst & Hnp). exists st.
  unfold updateBookingStatus, Booking_findOne_id_owner, Booking_save.
  run_monad. cbn [includesVal]. rewrite Hs, Hcast. cbn.
  rewrite Hfind, Hst. cbn. rewrite Hmsg.
  destruct (Booking.status_eqb (Booking.status b) st) eqn:E; cbn.
  - rewrite (setStatus_same b st E).
    exists b, (addEvent (DbRead "bookings") w).
    repeat split; try assumption.
    destruct (Booking.status b), st; cbn in E; try discriminate; reflexivity.
  - eexists _, _.
    split; [reflexivity |]. split; [reflexivity |].
    split; [reflexivity |]. split; [reflexivity |].
    match goal with
    | |- In ?d _ => change (In d (replaceBooking d (bookings w)))
    end.
    apply (In_replaceBooking _ b _ Hin). reflexivity.
Qed.

Lemma booking_status_transitions_witness :
  exists st saved w',
    Booking.statusOfString "Rejected" = Some st
    /\ updateBookingStatus Sample.host Sample.owner Sample.id32
         (JStr "Rejected") Sample.world
       = (Ok (mkResponse 200 true (Some "Booking request rejected") None
                         (OneBooking saved)), w')
    /\ Booking.status saved = st
    /\ Booking._id saved = Booking._id Sample.request
    /\ In saved (bookings w').
Proof.
  apply (proj2 (booking_status_transitions Sample.host)
           Sample.owner Sample.id32 32%N Sample.request "Rejected"
           Sample.world); reflexivity.
Defined.

(** C1, as stated, fails: a booking that is Accepted is Rejected by a
    later [updateStatus] of its owner. *)
Lemma accepted_booking_is_not_terminal :
  map Booking.status (bookings Sample.world) = [Booking.Accepted]
  /\ map Booking.status
       (bookings (worldAfter (route Sample.host SampleRequests.rejectAccepted)
                             Sample.world))
     = [Booking.Rejected]
  /\ map Booking._id
       (bookings (worldAfter (route Sample.host SampleRequests.rejectAccepted)
                             Sample.world))
     = map Booking._id (bookings Sample.world).
Proof. vm_compute. repeat split. Qed.

(** An id that cannot be cast to an ObjectId never reaches the lookup:
    the cast error is caught and answered 500, for any valid target. *)
Lemma updateBookingStatus_malformed_id
    (host : Host) (user : User.t) (id : string) (target : JsVal) (w : World) :
  includesVal ["Accepted"; "Rejected"] target = true ->
  castObjectId host id = None ->
  updateBookingStatus host user id target w
  = (Ok (failure 500 "Failed to update booking status"),
     addEvent (ConsoleError "Update Booking Status Error:") w).
Proof.
  intros Hok Hcast.
  unfold updateBookingStatus, tryCatch, Booking_findOne_id_owner, castId.
  rewrite Hok, Hcast. reflexivity.
Qed.

(** In front of the controller, the route lets only owners and
    administrators through: a tenant is answered 403 by the gate. *)
Lemma requireOwner_forbids_tenants (u : User.t) :
  User.role u = Role.Tenant ->
  option_map status (requireOwner (Some u)) = Some 403.
Proof. intros H. unfold requireOwner. now rewrite H. Qed.

Lemma updateBookingStatus_not_found_witness :
  updateBookingStatus Sample.host Sample.admin Sample.id32 (JStr "Accepted")
    Sample.world
  = (Ok (failure 404 "Booking not found"),
     addEvent (DbRead "bookings") Sample.world)
  /\ updateBookingStatus Sample.host Sample.owner Sample.id32 (JStr "Pending")
       Sample.world
     = (Ok (failure 400 "Invalid status"), Sample.world)
  /\ updateBookingStatus Sample.host Sample.owner "32" (JStr "Rejected")
       Sample.world
     = (Ok (failure 500 "Failed to update booking status"),
        addEvent (ConsoleError "Update Booking Status Error:") Sample.world).
Proof.
  split; [| split].
  - apply (proj1 (proj2 (updateBookingStatus_not_found Sample.host
             Sample.admin Sample.id32 (JStr "Accepted") Sample.world))
             eq_refl 32%N eq_refl).
    intros b [<- | []] _. cbn. discriminate.
  - apply (proj1 (updateBookingStatus_not_found Sample.host
             Sample.owner Sample.id32 (JStr "Pending") Sample.world) eq_refl).
  - apply (proj1 (proj2 (proj2 (updateBookingStatus_not_found Sample.host
             Sample.owner "32" (JStr "Rejected") Sample.world)))
             eq_refl eq_refl).
Defined.

(** C3, as stated, fails: for an id that is not an ObjectId no booking
    matches the id and the caller jointly (none has that id), and the
    answer to a target of the set is 500, not 404. *)
Lemma malformed_booking_id_is_not_answered_404 :
  castObjectId Sample.host "not-an-id" = None
  /\ includesVal ["Accepted"; "Rejected"] (JStr "Accepted") = true
  /\ answer (updateBookingStatus Sample.host Sample.admin "not-an-id"
                                  (JStr "Accepted"))
            Sample.world
     = Ok (failure 500 "Failed to update booking status")
  /\ bookings (worldAfter
                 (updateBookingStatus Sample.host Sample.admin "not-an-id"
                                      (JStr "Accepted"))
                 Sample.world)
     = bookings Sample.world
  /\ In (ConsoleError "Update Booking Status Error:")
        (trace (worldAfter
                  (updateBookingStatus Sample.host Sample.admin "not-an-id"
                                       (JStr "Accepted"))
                  Sample.world)).
Proof. vm_compute. repeat split. now left. Qed.

(** ** Deleting a listing *)

Lemma bind_ok {A B} (m : M A) (k : A -> M B) (w w1 : World) (a : A) :
  m w = (Ok a, w1) -> bind m k w = k a w1.
Proof. intros H. unfold bind. now rewrite H. Qed.

Lemma bind_throw {A B} (m : M A) (k : A -> M B) (w w1 : World) (e : JsError) :
  m w = (Throw e, w1) -> bind m k w = (Throw e, w1).
Proof. intros H. unfold bind. now rewrite H. Qed.

(** All the deletions are issued; none touches the collections; the
    promises are all fulfilled exactly when the store rejects none. *)
Lemma mapM_deleteImage (host : Host) (urls : list string) (w : World) :
  exists ps w1,
    mapM (deleteImage host) urls w = (Ok ps, w1)
    /\ listings w1 = listings w
    /\ (forall e, firstRejection ps = Some e -> e = storeError)
    /\ (firstRejection ps = None <->
        forall url p, In url urls -> getPublicIdFromUrl url = Some p ->
                      destroyRejects host p = false).
Proof.
  revert w. induction urls as [| url urls IH]; intros w.
  - exists [], w. cbn. repeat split; intros; try contradiction; discriminate.
  - cbn [mapM].
    assert (H1 : exists s w1,
               deleteImage host url w = (Ok s, w1)
               /\ listings w1 = listings w
               /\ (s = Fulfilled tt \/ s = Rejected storeError)
               /\ (s = Fulfilled tt <->
                   forall p, getPublicIdFromUrl url = Some p ->
                             destroyRejects host p = false)).
    { unfold deleteImage, cloudinary_destroy.
      destruct (getPublicIdFromUrl url) as [p |] eqn:Ep.
      - run_monad. cbn.
        destruct (destroyRejects host p) eqn:Er; cbn;
          eexists _, _; (split; [reflexivity |]); (split; [reflexivity |]).
        + split; [now right |]. split.
          * intros Hu. discriminate.
          * intros H. specialize (H p eq_refl). congruence.
        + split; [now left |]. split; [| reflexivity].
          intros _ q Hq. congruence.
      - eexists _, _. split; [reflexivity |]. split; [reflexivity |].
        split; [now left |].
        split; [| reflexivity]. intros _ q Hq. discriminate. }
    destruct H1 as (s & w1 & Hrun1 & Hl1 & Hcases & Hs).
    destruct (IH w1) as (ps & w2 & Hrun2 & Hl2 & Herr & Hps).
    exists (s :: ps), w2.
    rewrite (bind_ok _ _ _ _ _ Hrun1), (bind_ok _ _ _ _ _ Hrun2).
    split; [reflexivity |]. split; [congruence |].
    split; [| split].
    + intros e. destruct Hcases as [-> | ->]; cbn.
      * apply Herr.
      * intros H. now inversion H.
    + intros Hnone url' p [<- | Hin] Hp.
      * destruct Hcases as [-> | ->]; [| discriminate].
        now apply (proj1 Hs).
      * destruct Hcases as [-> | ->]; [| discriminate].
        cbn in Hnone. now apply (proj1 Hps Hnone url' p).
    + intros Hall.
      assert (Hf : s = Fulfilled tt).
      { apply (proj2 Hs). intros p Hp. apply (Hall url p); [now left | exact Hp]. }
      rewrite Hf. cbn. apply (proj2 Hps).
      intros url' p Hin Hp. apply (Hall url' p); [now right | exact Hp].
Qed.

Lemma Listing_findById_ok (host : Host) (id : string) (oid : ObjectId)
    (w : World) :
  castObjectId host id = Some oid ->
  Listing_findById host id w
  = (Ok (findListing oid (listings w)), addEvent (DbRead "listings") w).
Proof. intros H. unfold Listing_findById, castId. now rewrite H. Qed.

Lemma Listing_findById_malformed (host : Host) (id : string) (w : World) :
  castObjectId host id = None ->
  Listing_findById host id w = (Throw castError, w).
Proof. intros H. unfold Listing_findById, castId. now rewrite H. Qed.

Lemma Listing_findByIdAndDelete_ok (host : Host) (id : string)
    (oid : ObjectId) (w : World) :
  castObjectId host id = Some oid ->
  Listing_findByIdAndDelete host id w
  = (Ok (findListing oid (listings w)),
     setListings (removeListing oid (listings w))
                 (addEvent (DbWrite "listings") w)).
Proof. intros H. unfold Listing_findByIdAndDelete, castId. now rewrite H. Qed.

Lemma findListing_removed (oid : ObjectId) (ls : list Listing.t) :
  findListing oid (removeListing oid ls) = None.
Proof.
  unfold findListing, removeListing.
  destruct (find _ (filter _ _)) as [x |] eqn:E; [| reflexivity].
  apply find_some in E. destruct E as [Hin Hx].
  apply filter_In in Hin. destruct Hin as [_ Hneg].
  rewrite Hx in Hneg. discriminate.
Qed.

(** The stage of [deleteListing] that deletes the images. *)
Lemma delete_images_stage (host : Host) (urls : list string) (w : World) :
  exists r w1,
    (if (0 <? List.length urls)%nat
     then bind (mapM (deleteImage host) urls) promiseAll
     else ret tt) w = (r, w1)
    /\ listings w1 = listings w
    /\ (r = Ok tt \/ r = Throw storeError)
    /\ (r = Ok tt <->
        forall url p, In url urls -> getPublicIdFromUrl url = Some p ->
                      destroyRejects host p = false).
Proof.
  destruct (0 <? List.length urls)%nat eqn:Elen.
  - destruct (mapM_deleteImage host urls w)
      as (ps & w1 & Hrun & Hl & Herr & Hps).
    rewrite (bind_ok _ _ _ _ _ Hrun). unfold promiseAll.
    destruct (firstRejection ps) as [e |] eqn:Ef.
    + rewrite (Herr e eq_refl).
      exists (Throw storeError), w1.
      split; [reflexivity |]. split; [exact Hl |]. split; [now right |].
      split.
      * intros Hu. discriminate.
      * intros Hall. apply (proj2 Hps) in Hall. discriminate.
    + exists (Ok tt), w1. split; [reflexivity |]. split; [exact Hl |].
      split; [now left |].
      split; [intros _; now apply (proj1 Hps) | reflexivity].
  - exists (Ok tt), w. split; [reflexivity |]. split; [reflexivity |].
    split; [now left |]. split; [| reflexivity].
    intros _ url p Hin. destruct urls; [contradiction | discriminate].
Qed.

(** C2, as the code has it.  When the owner deletes a listing, the
    deletions of its images are awaited together before the record is
    touched: if the image store rejects none of them, the record is
    removed and the answer is 200; if it rejects any, the record is not
    removed, the error is logged and the answer is 500. *)
Theorem deleteListing_awaits_images
    (host : Host) (user : User.t) (id : string) (oid : ObjectId)
    (l : Listing.t) (w : World) :
  castObjectId host id = Some oid ->
  findListing oid (listings w) = Some l ->
  Listing.ownerId l = User._id user ->
  ((forall url p, In url (Listing.images l) ->
                  getPublicIdFromUrl url = Some p ->
                  destroyRejects host p = false) ->
     answer (deleteListing host user id) w
     = Ok (mkResponse 200 true (Some "Listing deleted successfully") None NoData)
     /\ listings (worldAfter (deleteListing host user id) w)
        = removeListing oid (listings w)
     /\ findListing oid (listings (worldAfter (deleteListing host user id) w))
        = None)
  /\ ((exists url p, In url (Listing.images l)
                     /\ getPublicIdFromUrl url = Some p
                     /\ destroyRejects host p = true) ->
      answer (deleteListing host user id) w
      = Ok (failure 500 "Failed to delete listing. Please try again.")
      /\ listings (worldAfter (deleteListing host user id) w) = listings w
      /\ In (ConsoleError "Delete Listing Error:")
            (trace (worldAfter (deleteListing host user id) w))).
Proof.
  intros Hcast Hfind Hown.
  set (w0 := addEvent (DbRead "listings") w).
  destruct (delete_images_stage host (Listing.images l) w0)
    as (r & w1 & Hstage & Hl1 & Hcases & Hr).
  unfold answer, worldAfter, deleteListing, tryCatch.
  rewrite (bind_ok _ _ _ _ _ (Listing_findById_ok host id oid w Hcast)).
  fold w0. rewrite Hfind, Hown, N.eqb_refl. cbn [negb].
  destruct Hcases as [-> | ->].
  - rewrite (bind_ok _ _ _ _ _ Hstage).
    rewrite (bind_ok _ _ _ _ _ (Listing_findByIdAndDelete_ok host id oid w1 Hcast)).
    cbn. rewrite Hl1. cbn. split.
    + intros _. repeat split. apply findListing_removed.
    + intros (url & p & Hin & Hp & Hrej).
      rewrite (proj1 Hr eq_refl url p Hin Hp) in Hrej.
      discriminate.
  - rewrite (bind_throw _ _ _ _ _ Hstage). split.
    + intros Hall. apply (proj2 Hr) in Hall. discriminate.
    + intros _. cbn. repeat split; [exact Hl1 |].
      apply in_or_app. right. now left.
Qed.

Lemma deleteListing_awaits_images_witness :
  answer (deleteListing Sample.host Sample.owner Sample.id16) Sample.world
  = Ok (mkResponse 200 true (Some "Listing deleted successfully") None NoData)
  /\ listings (worldAfter (deleteListing Sample.host Sample.owner Sample.id16)
                          Sample.world)
     = removeListing 16 (listings Sample.world)
  /\ findListing 16
       (listings (worldAfter (deleteListing Sample.host Sample.owner
                                            Sample.id16) Sample.world))
     = None.
Proof.
  apply (proj1 (deleteListing_awaits_images Sample.host Sample.owner
                  Sample.id16 16%N Sample.room Sample.world
                  eq_refl eq_refl eq_refl)).
  intros url p [<- | []] Hp. vm_compute in Hp. inversion Hp. reflexivity.
Defined.

(** C2, as stated, fails: the store rejects the deletion of the one image
    of a listing; its owner's delete request is answered 500 and the
    listing record is still there. *)
Lemma rejected_image_deletion_blocks_delete :
  Listing.ownerId Sample.flat = User._id Sample.owner
  /\ In Sample.flat (listings Sample.world)
  /\ answer (route Sample.host SampleRequests.deleteFlat) Sample.world
     = Ok (failure 500 "Failed to delete listing. Please try again.")
  /\ listings (worldAfter (route Sample.host SampleRequests.deleteFlat)
                          Sample.world)
     = listings Sample.world.
Proof. vm_compute. repeat split. right. now left. Qed.

(** ** Malformed listing ids *)

(** C10. For an id that cannot be cast to an ObjectId and a boolean
    [isApproved], [setApproval] answers 500 and leaves the listings as
    they are, where [getById], [update] and [delete] answer 400 "Invalid
    listing ID" for the same id. *)
Theorem updateListingStatus_malformed_id
    (host : Host) (id : string) (b : bool) (w : World) :
  castObjectId host id = None ->
  answer (updateListingStatus host id (JBool b)) w
  = Ok (failure 500 "Failed to update listing status")
  /\ listings (worldAfter (updateListingStatus host id (JBool b)) w)
     = listings w
  /\ answer (getListingById host id) w = Ok (failure 400 "Invalid listing ID")
  /\ (forall user body,
        answer (updateListing host user id body) w
        = Ok (failure 400 "Invalid listing ID"))
  /\ (forall user,
        answer (deleteListing host user id) w
        = Ok (failure 400 "Invalid listing ID")).
Proof.
  intros Hcast.
  unfold answer, worldAfter, updateListingStatus, getListingById,
    updateListing, deleteListing, Listing_findByIdAndUpdate, Listing_findById.
  run_monad. rewrite Hcast. cbn. repeat split.
Qed.

Lemma updateListingStatus_malformed_id_witness :
  answer (updateListingStatus Sample.host "not-an-id" (JBool true)) Sample.world
  = Ok (failure 500 "Failed to update listing status")
  /\ answer (getListingById Sample.host "not-an-id") Sample.world
     = Ok (failure 400 "Invalid listing ID").
Proof.
  destruct (updateListingStatus_malformed_id Sample.host "not-an-id" true
              Sample.world eq_refl) as (H1 & _ & H2 & _).
  split; [exact H1 | exact H2].
Defined.

(** ** Creating a listing *)

Lemma positive_not_le (p : Q) : (0 < p)%Q -> Qle_bool p 0 = false.
Proof.
  intros Hp. destruct (Qle_bool p 0) eqn:E; [| reflexivity].
  apply Qle_bool_iff in E. exfalso. exact (Qlt_not_le _ _ Hp E).
Qed.

Lemma positive_truthy (p : Q) : (0 < p)%Q -> truthyNum (Some p) = true.
Proof.
  intros Hp. cbn. destruct (Qeq_bool p 0) eqn:E; [| reflexivity].
  apply Qeq_bool_iff in E. rewrite E in Hp.
  exfalso. exact (Qlt_irrefl _ Hp).
Qed.

Lemma positive_valid_price (p : Q) : (0 < p)%Q -> validatePrice p = [].
Proof.
  intros Hp. unfold validatePrice.
  destruct (Qle_bool 0 p) eqn:E; [reflexivity |].
  assert (H : Qle_bool 0 p = true) by (apply Qle_bool_iff, Qlt_le_weak, Hp).
  congruence.
Qed.

Lemma includes_values_ofString (s : string) :
  includes ListingType.values s = true ->
  exists ty, ListingType.ofString s = Some ty.
Proof.
  unfold includes, ListingType.values, ListingType.ofString. cbn.
  destruct (s =? "Room"); [now eexists |].
  destruct (s =? "Hostel"); [now eexists |].
  destruct (s =? "Apartment"); [now eexists |].
  destruct (s =? "Flat"); [now eexists | discriminate].
Qed.

Lemma includes_values_truthy (o : option string) :
  includes ListingType.values (valStr o) = true -> truthyStr o = true.
Proof. destruct o as [[| c s] |]; cbn; intros H; try discriminate; reflexivity. Qed.

(** [Listing.create] either throws a validation error and writes
    nothing, or appends the document it returns. *)
Lemma Listing_create_cases (title description : string) (price : Q)
    (location : string) (latitude longitude : option Q) (type : string)
    (images : list string) (ownerId : ObjectId) (isApproved : bool)
    (w : World) :
  (exists msgs,
     Listing_create title description price location latitude longitude
                    type images ownerId isApproved w
     = (Throw (validationError msgs), w))
  \/ (exists doc w',
        Listing_create title description price location latitude longitude
                       type images ownerId isApproved w
        = (Ok doc, w')
        /\ Listing.isApproved doc = isApproved
        /\ Listing.ownerId doc = ownerId
        /\ listings w' = listings w ++ [doc]).
Proof.
  unfold Listing_create.
  match goal with
  | |- context [match ?errs with nil => _ | cons _ _ => _ end] =>
      generalize errs
  end.
  intros errors.
  destruct errors as [| m ms]; [| left; now eexists].
  destruct (ListingType.ofString type) as [ty |]; [| left; now eexists].
  right. run_monad. cbn. eexists _, _. repeat split.
Qed.

(** C4. A body with title, description, positive price, location and a
    type of the closed set, within the bounds of the listing schema, is
    accepted: the answer is 201 and the listing created is approved at
    once and owned by the caller.  And whenever [create] answers 201, the
    listing it returns and stores is approved and owned by the caller. *)
Theorem createListing_auto_approved
    (user : User.t) (body : ListingBody.t) (w : World) :
  (presentFields body -> withinSchema body ->
   exists listing,
     answer (createListing user body) w
     = Ok (mkResponse 201 true (Some "Listing created successfully") None
                      (OneListing listing))
     /\ Listing.isApproved listing = true
     /\ Listing.ownerId listing = User._id user
     /\ listings (worldAfter (createListing user body) w)
        = listings w ++ [listing])
  /\ (forall r, answer (createListing user body) w = Ok r -> status r = 201 ->
      exists listing,
        data r = OneListing listing
        /\ Listing.isApproved listing = true
        /\ Listing.ownerId listing = User._id user
        /\ In listing (listings (worldAfter (createListing user body) w))).
Proof.
  split.
  - intros (Ht & Hd & (p & Hprice & Hp) & Hl & Hty) (V1 & V2 & V3 & V4 & V5 & V6).
    destruct (includes_values_ofString _ Hty) as [ty Hof].
    unfold answer, worldAfter, createListing, Listing_create.
    rewrite Ht, Hd, Hl, (includes_values_truthy _ Hty), Hprice,
      (positive_truthy p Hp), Hty.
    cbn [negb orb valNum]. rewrite (positive_not_le p Hp).
    rewrite V1, V2, V3, V4, V5, V6, (positive_valid_price p Hp), Hof.
    run_monad. cbn. eexists. repeat split.
  - intros r.
    unfold answer, worldAfter, createListing, tryCatch.
    destruct (negb (truthyStr (ListingBody.title body))
              || negb (truthyStr (ListingBody.description body))
              || negb (truthyNum (ListingBody.price body))
              || negb (truthyStr (ListingBody.location body))
              || negb (truthyStr (ListingBody.type body)));
      [cbn; intros H; inversion H; subst; discriminate |].
    destruct (Qle_bool (valNum (ListingBody.price body)) 0);
      [cbn; intros H; inversion H; subst; discriminate |].
    destruct (negb (includes ListingType.values
                             (valStr (ListingBody.type body))));
      [cbn; intros H; inversion H; subst; discriminate |].
    match goal with
    | |- context [Listing_create ?a ?b ?c ?d ?e ?f ?g ?h ?i ?j] =>
        destruct (Listing_create_cases a b c d e f g h i j w)
          as [[msgs Hrun] | (doc & w' & Hrun & Happ & Hown & Hls)]
    end.
    + rewrite (bind_throw _ _ _ _ _ Hrun). cbn.
      intros H; inversion H; subst; discriminate.
    + rewrite (bind_ok _ _ _ _ _ Hrun). cbn.
      intros H; inversion H; subst; cbn. intros _.
      exists doc. repeat split; try assumption.
      rewrite Hls. apply in_or_app. right. now left.
Qed.

Lemma createListing_auto_approved_witness :
  exists listing,
    answer (createListing Sample.owner Sample.newRoom) Sample.world
    = Ok (mkResponse 201 true (Some "Listing created successfully") None
                     (OneListing listing))
    /\ Listing.isApproved listing = true
    /\ Listing.ownerId listing = User._id Sample.owner
    /\ listings (worldAfter (createListing Sample.owner Sample.newRoom)
                            Sample.world)
       = listings Sample.world ++ [listing].
Proof.
  apply (proj1 (createListing_auto_approved Sample.owner Sample.newRoom
                  Sample.world)).
  - repeat split; try reflexivity. exists 1000%Q. split; reflexivity.
  - repeat split.
Defined.

(** ** The matcher and the language of a regular expression *)

Lemma list_eqb_ascii_eq (x y : list ascii) :
  list_eqb Ascii.eqb x y = true -> x = y.
Proof.
  revert y. induction x as [| a x IH]; intros [| b y]; cbn;
    try discriminate; [reflexivity |].
  intros H. apply andb_true_iff in H. destruct H as [Hab Hxy].
  apply Ascii.eqb_eq in Hab. subst. f_equal. now apply IH.
Qed.

Lemma charset_eqb_eq (x y : CharSet) : charset_eqb x y = true -> x = y.
Proof.
  destruct x, y; cbn; try discriminate; try reflexivity; intros H.
  - apply Ascii.eqb_eq in H. now subst.
  - apply Ascii.eqb_eq in H. now subst.
  - apply list_eqb_ascii_eq in H. now subst.
Qed.

Lemma regex_eqb_eq (x y : Regex) : regex_eqb x y = true -> x = y.
Proof.
  revert y. induction x as [| | cs | r IHr s IHs | r IHr s IHs | r IHr];
    intros [| | cs' | r' s' | r' s' | r']; cbn; try discriminate;
    try reflexivity; intros H.
  - apply charset_eqb_eq in H. now subst.
  - apply andb_true_iff in H. destruct H as [H1 H2].
    now rewrite (IHr _ H1), (IHs _ H2).
  - apply andb_true_iff in H. destruct H as [H1 H2].
    now rewrite (IHr _ H1), (IHs _ H2).
  - now rewrite (IHr _ H).
Qed.

Lemma Lang_Void (l : list ascii) : ~ Lang Void l.
Proof. intros H. inversion H. Qed.

Lemma Lang_Eps (l : list ascii) : Lang Eps l <-> l = [].
Proof. split; [intros H; now inversion H | intros ->; constructor]. Qed.

Lemma Lang_Seq (r s : Regex) (l : list ascii) :
  Lang (Seq r s) l <-> exists x y, l = x ++ y /\ Lang r x /\ Lang s y.
Proof.
  split.
  - intros H. inversion H; subst. now eexists _, _.
  - intros (x & y & -> & Hx & Hy). now constructor.
Qed.

Lemma Lang_Alt (r s : Regex) (l : list ascii) :
  Lang (Alt r s) l <-> Lang r l \/ Lang s l.
Proof.
  split.
  - intros H. inversion H; subst; auto.
  - intros [H | H]; [now apply LangAltL | now apply LangAltR].
Qed.

Lemma nullable_Lang (r : Regex) : nullable r = true <-> Lang r [].
Proof.
  induction r as [| | cs | r IHr s IHs | r IHr s IHs | r IHr]; cbn.
  - split; [discriminate | intros H; inversion H].
  - split; [constructor | reflexivity].
  - split; [discriminate | intros H; inversion H].
  - rewrite andb_true_iff, IHr, IHs, Lang_Seq. split.
    + intros [H1 H2]. now exists [], [].
    + intros (x & y & E & Hx & Hy). symmetry in E.
      apply app_eq_nil in E. destruct E; subst. now split.
  - rewrite orb_true_iff, IHr, IHs, Lang_Alt. reflexivity.
  - split; [constructor | reflexivity].
Qed.

Lemma Lang_mkSeq (r s : Regex) (l : list ascii) :
  Lang (mkSeq r s) l <-> Lang (Seq r s) l.
Proof.
  rewrite Lang_Seq.
  assert (Hvoid_r : forall t, (exists x y, l = x ++ y /\ Lang Void x /\ Lang t y)
                              -> False).
  { intros t (x & y & _ & H & _). inversion H. }
  assert (Hvoid_s : forall t, (exists x y, l = x ++ y /\ Lang t x /\ Lang Void y)
                              -> False).
  { intros t (x & y & _ & _ & H). inversion H. }
  assert (Heps : Lang s l <-> exists x y, l = x ++ y /\ Lang Eps x /\ Lang s y).
  { split.
    - intros H. exists [], l. repeat split; [constructor | exact H].
    - intros (x & y & -> & Hx & Hy). inversion Hx. exact Hy. }
  destruct r, s; cbn [mkSeq];
    try (split; [intros H; inversion H | intros H; exfalso; eauto]; fail);
    try exact Heps; try apply Lang_Seq.
Qed.

Lemma altMem_sound (r s : Regex) (l : list ascii) :
  altMem r s = true -> Lang r l -> Lang s l.
Proof.
  revert r. induction s as [| | cs | a IHa b IHb | a IHa b IHb | a IHa];
    intros r; cbn [altMem]; intros H Hl;
    try (rewrite orb_false_r in H; apply regex_eqb_eq in H; now subst).
  apply orb_true_iff in H. destruct H as [H | H].
  - apply regex_eqb_eq in H. now subst.
  - apply orb_true_iff in H. destruct H as [H | H].
    + apply regex_eqb_eq in H. subst. now apply LangAltL.
    + apply LangAltR. now apply (IHb r).
Qed.

Lemma Lang_mkAlt (r s : Regex) (l : list ascii) :
  Lang (mkAlt r s) l <-> Lang r l \/ Lang s l.
Proof.
  assert (Hleaf : forall r s,
             Lang (match s with
                   | Void => r
                   | _ => if altMem r s then s else Alt r s
                   end) l <-> Lang r l \/ Lang s l).
  { intros r0 s0.
    destruct s0; try (split; [auto | intros [H | H]; [exact H | inversion H]]; fail);
      (destruct (altMem r0 _) eqn:E;
       [ split; [auto | intros [H | H]; [now apply (altMem_sound r0 _ l E) | exact H]]
       | apply Lang_Alt ]). }
  revert s. induction r as [| | cs | a IHa b IHb | a IHa b IHb | a IHa];
    intros s; cbn [mkAlt]; try apply Hleaf.
  - split; [auto | intros [H | H]; [inversion H | exact H]].
  - rewrite IHa, IHb, Lang_Alt. tauto.
Qed.

Lemma Lang_Star_cons (r : Regex) (a : ascii) (l : list ascii) :
  Lang (Star r) (a :: l) <->
  exists x y, l = x ++ y /\ Lang r (a :: x) /\ Lang (Star r) y.
Proof.
  split.
  - intros H. remember (Star r) as sr eqn:Esr. remember (a :: l) as al eqn:Eal.
    revert l Eal.
    induction H as [| | | | | r' | r' x y Hx _ Hy IHy]; intros l Eal;
      try discriminate.
    inversion Esr; subst r'.
    destruct x as [| c x]; cbn in Eal.
    + now apply IHy.
    + inversion Eal; subst. now exists x, y.
  - intros (x & y & -> & Hx & Hy).
    change (a :: x ++ y) with ((a :: x) ++ y). now constructor.
Qed.

Lemma Lang_deriv (a : ascii) (r : Regex) (l : list ascii) :
  Lang (deriv a r) l <-> Lang r (a :: l).
Proof.
  revert l. induction r as [| | cs | r IHr s IHs | r IHr s IHs | r IHr];
    intros l; cbn [deriv].
  - split; intros H; inversion H.
  - split; intros H; inversion H.
  - destruct (inSet cs a) eqn:E.
    + rewrite Lang_Eps. split.
      * intros ->. now constructor.
      * intros H. now inversion H.
    + split; intros H; inversion H; subst. congruence.
  - assert (Hcons : Lang (mkSeq (deriv a r) s) l <->
                    exists x y, l = x ++ y /\ Lang r (a :: x) /\ Lang s y).
    { rewrite Lang_mkSeq, Lang_Seq. split.
      - intros (x & y & E & Hx & Hy). exists x, y. now rewrite <- IHr.
      - intros (x & y & E & Hx & Hy). exists x, y. now rewrite IHr. }
    assert (Hsplit : Lang (Seq r s) (a :: l) <->
                     (exists x y, l = x ++ y /\ Lang r (a :: x) /\ Lang s y)
                     \/ (Lang r [] /\ Lang s (a :: l))).
    { rewrite Lang_Seq. split.
      - intros (x & y & E & Hx & Hy). destruct x as [| c x]; cbn in E.
        + right. subst y. now split.
        + left. inversion E; subst. now exists x, y.
      - intros [(x & y & -> & Hx & Hy) | [Hx Hy]].
        + now exists (a :: x), y.
        + now exists [], (a :: l). }
    rewrite Hsplit.
    destruct (nullable r) eqn:En.
    + rewrite Lang_mkAlt, Hcons, IHs.
      apply nullable_Lang in En. tauto.
    + rewrite Hcons. split; [auto |].
      intros [H | [H _]]; [exact H |].
      apply nullable_Lang in H. congruence.
  - rewrite Lang_mkAlt, IHr, IHs, Lang_Alt. reflexivity.
  - rewrite Lang_mkSeq, Lang_Seq, Lang_Star_cons. split.
    + intros (x & y & E & Hx & Hy). exists x, y. now rewrite <- IHr.
    + intros (x & y & E & Hx & Hy). exists x, y. now rewrite IHr.
Qed.

Lemma matches_Lang (r : Regex) (l : list ascii) :
  matches r l = true <-> Lang r l.
Proof.
  revert r. induction l as [| a l IH]; intros r; cbn [matches].
  - apply nullable_Lang.
  - rewrite IH. apply Lang_deriv.
Qed.



(** ** Browsing the approved listings *)








(** *** Sorting *)

Lemma insertNewest_perm {A} (key : A -> Z) (x : A) (l : list A) :
  Permutation (insertNewest key x l) (x :: l).
Proof.
  induction l as [| y l IH]; cbn; [reflexivity |].
  destruct (key y <=? key x)%Z; [reflexivity |].
  rewrite IH. apply perm_swap.
Qed.

Lemma sortNewest_perm {A} (key : A -> Z) (l : list A) :
  Permutation (sortNewest key l) l.
Proof.
  induction l as [| x l IH]; cbn; [constructor |].
  rewrite insertNewest_perm. now constructor.
Qed.

Lemma insertNewest_sorted {A} (key : A -> Z) (x : A) (l : list A) :
  StronglySorted (fun a b => (key b <= key a)%Z) l ->
  StronglySorted (fun a b => (key b <= key a)%Z) (insertNewest key x l).
Proof.
  induction l as [| y l IH]; intros Hs; cbn.
  - constructor; constructor.
  - inversion Hs as [| y' l' Hl Hy]; subst.
    destruct (Z.leb_spec (key y) (key x)) as [Hle | Hgt].
    + constructor; [exact Hs |]. constructor; [exact Hle |].
      eapply Forall_impl; [| exact Hy]. cbn. intros b Hb. lia.
    + constructor; [now apply IH |].
      eapply Permutation_Forall; [symmetry; apply insertNewest_perm |].
      constructor; [lia | exact Hy].
Qed.

Lemma sortNewest_sorted {A} (key : A -> Z) (l : list A) :
  StronglySorted (fun a b => (key b <= key a)%Z) (sortNewest key l).
Proof.
  induction l as [| x l IH]; cbn; [constructor |].
  now apply insertNewest_sorted.
Qed.

(** *** The query *)




Lemma approved_cond (l : Listing.t) :
  holdsOpt (Some true) (Bool.eqb (Listing.isApproved l)) = Listing.isApproved l.
Proof. cbn. now destruct (Listing.isApproved l). Qed.





(** ** Updating a listing *)

Lemma Listing_save_cases (orig doc : Listing.t) (w : World) :
  (exists m ms, validateListing doc = m :: ms
                /\ Listing_save orig doc w
                   = (Throw (validationError (m :: ms)), w))
  \/ (validateListing doc = [] /\ Listing.sameFields orig doc = true
      /\ Listing_save orig doc w = (Ok doc, w))
  \/ (validateListing doc = [] /\ Listing.sameFields orig doc = false
      /\ Listing_save orig doc w
         = (Ok (Listing.touch (now w) doc),
            setListings (replaceListing (Listing.touch (now w) doc)
                                        (listings w))
                        (addEvent (DbWrite "listings") w))).
Proof.
  unfold Listing_save.
  destruct (validateListing doc) as [| m ms]; [| left; now eexists _, _].
  destruct (Listing.sameFields orig doc); [right; left | right; right];
    repeat split.
Qed.

Lemma findListing_id (oid : ObjectId) (ls : list Listing.t) (l : Listing.t) :
  findListing oid ls = Some l -> Listing._id l = oid.
Proof.
  intros H. apply find_some in H. destruct H as [_ H]. now apply N.eqb_eq.
Qed.

Lemma findListing_replace (oid : ObjectId) (ls : list Listing.t)
    (l d : Listing.t) :
  findListing oid ls = Some l -> Listing._id d = oid ->
  findListing oid (replaceListing d ls) = Some d.
Proof.
  intros Hfind <-. induction ls as [| x ls IH]; [discriminate |].
  unfold findListing, replaceListing in *. cbn [find map] in *.
  destruct (N.eqb_spec (Listing._id x) (Listing._id d)) as [Ex | Ex].
  - now rewrite N.eqb_refl.
  - destruct (N.eqb_spec (Listing._id x) (Listing._id d)); [contradiction |].
    now apply IH.
Qed.

(** The assignments of step 5 touch neither the id, nor the owner, nor
    the approval, nor the timestamps. *)
Lemma assignFields_frame (body : ListingBody.t) (l : Listing.t) :
  Listing._id (assignFields body l) = Listing._id l
  /\ Listing.ownerId (assignFields body l) = Listing.ownerId l
  /\ Listing.isApproved (assignFields body l) = Listing.isApproved l
  /\ Listing.createdAt (assignFields body l) = Listing.createdAt l
  /\ Listing.updatedAt (assignFields body l) = Listing.updatedAt l.
Proof.
  unfold assignFields. cbv zeta.
  destruct (truthyStr (ListingBody.title body)),
    (truthyStr (ListingBody.description body)),
    (truthyNum (ListingBody.price body)),
    (truthyStr (ListingBody.location body)),
    (ListingBody.latitude body), (ListingBody.longitude body),
    (truthyStr (ListingBody.type body)),
    (ListingType.ofString (valStr (ListingBody.type body))),
    (ListingBody.images body); repeat split.
Qed.

(** A field that is not supplied, or supplied falsy, keeps its value. *)
Lemma assignFields_skips (body : ListingBody.t) (l : Listing.t) :
  (truthyStr (ListingBody.title body) = false ->
   Listing.title (assignFields body l) = Listing.title l)
  /\ (truthyStr (ListingBody.description body) = false ->
      Listing.description (assignFields body l) = Listing.description l)
  /\ (truthyNum (ListingBody.price body) = false ->
      Listing.price (assignFields body l) = Listing.price l)
  /\ (truthyStr (ListingBody.location body) = false ->
      Listing.location (assignFields body l) = Listing.location l)
  /\ (ListingBody.latitude body = None ->
      Listing.latitude (assignFields body l) = Listing.latitude l)
  /\ (ListingBody.longitude body = None ->
      Listing.longitude (assignFields body l) = Listing.longitude l)
  /\ (truthyStr (ListingBody.type body) = false ->
      Listing.type (assignFields body l) = Listing.type l)
  /\ (ListingBody.images body = None ->
      Listing.images (assignFields body l) = Listing.images l).
Proof.
  unfold assignFields. cbv zeta.
  destruct (truthyStr (ListingBody.title body)),
    (truthyStr (ListingBody.description body)),
    (truthyNum (ListingBody.price body)),
    (truthyStr (ListingBody.location body)),
    (ListingBody.latitude body), (ListingBody.longitude body),
    (truthyStr (ListingBody.type body)),
    (ListingType.ofString (valStr (ListingBody.type body))),
    (ListingBody.images body);
    repeat split; intros H; try discriminate; reflexivity.
Qed.

Lemma truthyStr_dropEmpty (o : option string) :
  truthyStr (dropEmpty o) = truthyStr o.
Proof. unfold dropEmpty. now destruct (truthyStr o) eqn:E. Qed.

Lemma valStr_dropEmpty (o : option string) :
  truthyStr o = true -> valStr (dropEmpty o) = valStr o.
Proof. unfold dropEmpty. now intros ->. Qed.

Lemma assignFields_withoutEmpty (body : ListingBody.t) (l : Listing.t) :
  assignFields (withoutEmpty body) l = assignFields body l.
Proof.
  unfold assignFields, withoutEmpty. cbv zeta. cbn [ListingBody.title
    ListingBody.description ListingBody.price ListingBody.location
    ListingBody.latitude ListingBody.longitude ListingBody.type
    ListingBody.images].
  rewrite !truthyStr_dropEmpty.
  destruct (truthyStr (ListingBody.title body)) eqn:E1;
    [rewrite (valStr_dropEmpty _ E1) |];
    (destruct (truthyStr (ListingBody.description body)) eqn:E2;
     [rewrite (valStr_dropEmpty _ E2) |]);
    (destruct (truthyStr (ListingBody.location body)) eqn:E3;
     [rewrite (valStr_dropEmpty _ E3) |]);
    (destruct (truthyStr (ListingBody.type body)) eqn:E4;
     [rewrite (valStr_dropEmpty _ E4) |]);
    reflexivity.
Qed.

(** What a successful update did. *)
Lemma updateListing_success (host : Host) (user : User.t) (id : string)
    (body : ListingBody.t) (w : World) (r : Response) :
  answer (updateListing host user id body) w = Ok r -> status r = 200 ->
  exists oid l,
    castObjectId host id = Some oid
    /\ findListing oid (listings w) = Some l
    /\ Listing.ownerId l = User._id user
    /\ ((data r = OneListing (assignFields body l)
         /\ listings (worldAfter (updateListing host user id body) w)
            = listings w)
        \/ (data r = OneListing (Listing.touch (now w) (assignFields body l))
            /\ Listing.sameFields l (assignFields body l) = false
            /\ listings (worldAfter (updateListing host user id body) w)
               = replaceListing (Listing.touch (now w) (assignFields body l))
                                (listings w))).
Proof.
  unfold answer, worldAfter, updateListing, tryCatch.
  destruct (castObjectId host id) as [oid |] eqn:Hcast.
  - rewrite (bind_ok _ _ _ _ _ (Listing_findById_ok host id oid w Hcast)).
    destruct (findListing oid (listings w)) as [l |] eqn:Hfind;
      [| cbn; intros H; inversion H; subst; discriminate].
    destruct (N.eqb_spec (Listing.ownerId l) (User._id user)) as [Hown | Hown];
      cbn [negb]; [| cbn; intros H; inversion H; subst; discriminate].
    destruct (match ListingBody.price body with
              | Some p => Qle_bool p 0
              | None => false
              end);
      [cbn; intros H; inversion H; subst; discriminate |].
    destruct (truthyStr (ListingBody.type body)
              && negb (includes ListingType.values
                                (valStr (ListingBody.type body))));
      [cbn; intros H; inversion H; subst; discriminate |].
    destruct (Listing_save_cases l (assignFields body l)
                (addEvent (DbRead "listings") w))
      as [(m & ms & _ & Hrun) | [(_ & _ & Hrun) | (_ & Hdiff & Hrun)]].
    + rewrite (bind_throw _ _ _ _ _ Hrun). cbn.
      intros H; inversion H; subst; discriminate.
    + rewrite (bind_ok _ _ _ _ _ Hrun). cbn.
      intros H _. inversion H; subst. exists oid, l.
      repeat split; try assumption. left. now split.
    + rewrite (bind_ok _ _ _ _ _ Hrun). cbn.
      intros H _. inversion H; subst. exists oid, l.
      repeat split; try assumption. right. repeat split. exact Hdiff.
  - rewrite (bind_throw _ _ _ _ _ (Listing_findById_malformed host id w Hcast)).
    cbn. intros H; inversion H; subst; discriminate.
Qed.

(** What an update request leaves in the store, whatever its answer:
    the listing of that id, with every field that was not supplied, or
    was supplied falsy, as it was. *)
Lemma updateListing_skips (host : Host) (user : User.t) (id : string)
    (oid : ObjectId) (l : Listing.t) (w : World) (body : ListingBody.t) :
  castObjectId host id = Some oid ->
  findListing oid (listings w) = Some l ->
  exists l',
    findListing oid (listings (worldAfter (updateListing host user id body) w))
    = Some l'
    /\ (truthyStr (ListingBody.title body) = false ->
        Listing.title l' = Listing.title l)
    /\ (truthyStr (ListingBody.description body) = false ->
        Listing.description l' = Listing.description l)
    /\ (truthyNum (ListingBody.price body) = false ->
        Listing.price l' = Listing.price l)
    /\ (truthyStr (ListingBody.location body) = false ->
        Listing.location l' = Listing.location l)
    /\ (truthyStr (ListingBody.type body) = false ->
        Listing.type l' = Listing.type l).
Proof.
  intros Hcast Hfind.
  assert (Hsame : forall w', listings w' = listings w ->
            exists l',
              findListing oid (listings w') = Some l'
              /\ (truthyStr (ListingBody.title body) = false ->
                  Listing.title l' = Listing.title l)
              /\ (truthyStr (ListingBody.description body) = false ->
                  Listing.description l' = Listing.description l)
              /\ (truthyNum (ListingBody.price body) = false ->
                  Listing.price l' = Listing.price l)
              /\ (truthyStr (ListingBody.location body) = false ->
                  Listing.location l' = Listing.location l)
              /\ (truthyStr (ListingBody.type body) = false ->
                  Listing.type l' = Listing.type l)).
  { intros w' Hw'. exists l. rewrite Hw'. repeat split; try assumption. }
  unfold worldAfter, updateListing, tryCatch.
  rewrite (bind_ok _ _ _ _ _ (Listing_findById_ok host id oid w Hcast)).
  rewrite Hfind.
  destruct (negb (Listing.ownerId l =? User._id user)%N);
    [apply Hsame; reflexivity |].
  destruct (match ListingBody.price body with
            | Some p => Qle_bool p 0
            | None => false
            end);
    [apply Hsame; reflexivity |].
  destruct (truthyStr (ListingBody.type body)
            && negb (includes ListingType.values
                              (valStr (ListingBody.type body))));
    [apply Hsame; reflexivity |].
  destruct (Listing_save_cases l (assignFields body l)
              (addEvent (DbRead "listings") w))
    as [(m & ms & _ & Hrun) | [(_ & _ & Hrun) | (_ & _ & Hrun)]].
  - rewrite (bind_throw _ _ _ _ _ Hrun).
    destruct (err_name (validationError (m :: ms)) =? "ValidationError");
      apply Hsame; reflexivity.
  - rewrite (bind_ok _ _ _ _ _ Hrun). apply Hsame; reflexivity.
  - rewrite (bind_ok _ _ _ _ _ Hrun). cbn [snd ret listings setListings].
    pose proof (assignFields_skips body l) as (S1 & S2 & S3 & S4 & _ & _ & S7 & _).
    eexists. split.
    + apply (findListing_replace oid _ l); [exact Hfind |].
      cbn. rewrite (proj1 (assignFields_frame body l)).
      now apply (findListing_id oid (listings w)).
    + repeat split; assumption.
Qed.

(** C6. For an existing listing and its owner as caller: a supplied
    price of zero (or less) is rejected with 400 "Price must be a
    positive number" and nothing is written; with no price supplied the
    stored price stays as it was; a field among title, description,
    price, location and type whose supplied value is empty or falsy is
    skipped, the stored value staying as it was, and an empty title,
    description, location or type is treated as not supplied at all. *)
Theorem updateListing_partial_patch
    (host : Host) (user : User.t) (id : string) (oid : ObjectId)
    (l : Listing.t) (w : World) :
  castObjectId host id = Some oid ->
  findListing oid (listings w) = Some l ->
  Listing.ownerId l = User._id user ->
  (forall body p,
      ListingBody.price body = Some p -> (p <= 0)%Q ->
      updateListing host user id body w
      = (Ok (failure 400 "Price must be a positive number"),
         addEvent (DbRead "listings") w))
  /\ (forall body,
        ListingBody.price body = None ->
        exists l',
          findListing oid
            (listings (worldAfter (updateListing host user id body) w))
          = Some l'
          /\ Listing.price l' = Listing.price l)
  /\ (forall body,
        exists l',
          findListing oid
            (listings (worldAfter (updateListing host user id body) w))
          = Some l'
          /\ (truthyStr (ListingBody.title body) = false ->
              Listing.title l' = Listing.title l)
          /\ (truthyStr (ListingBody.description body) = false ->
              Listing.description l' = Listing.description l)
          /\ (truthyNum (ListingBody.price body) = false ->
              Listing.price l' = Listing.price l)
          /\ (truthyStr (ListingBody.location body) = false ->
              Listing.location l' = Listing.location l)
          /\ (truthyStr (ListingBody.type body) = false ->
              Listing.type l' = Listing.type l))
  /\ (forall body,
        updateListing host user id body w
        = updateListing host user id (withoutEmpty body) w).
Proof.
  intros Hcast Hfind Hown. split; [| split; [| split]].
  - intros body p Hprice Hp.
    unfold updateListing, tryCatch.
    rewrite (bind_ok _ _ _ _ _ (Listing_findById_ok host id oid w Hcast)).
    rewrite Hfind, Hown, N.eqb_refl, Hprice. cbn [negb].
    apply Qle_bool_iff in Hp. now rewrite Hp.
  - intros body Hprice.
    destruct (updateListing_skips host user id oid l w body Hcast Hfind)
      as (l' & Hl' & _ & _ & Hp & _).
    exists l'. split; [exact Hl' |]. apply Hp. now rewrite Hprice.
  - intros body. now apply updateListing_skips.
  - intros body. unfold updateListing, tryCatch.
    rewrite !(bind_ok _ _ _ _ _ (Listing_findById_ok host id oid w Hcast)).
    rewrite Hfind, assignFields_withoutEmpty.
    unfold withoutEmpty.
    cbn [ListingBody.price ListingBody.type].
    rewrite truthyStr_dropEmpty.
    destruct (truthyStr (ListingBody.type body)) eqn:E;
      [now rewrite (valStr_dropEmpty _ E) | reflexivity].
Qed.

Lemma updateListing_partial_patch_witness :
  updateListing Sample.host Sample.owner Sample.id16 Sample.priceZero
                Sample.world
  = (Ok (failure 400 "Price must be a positive number"),
     addEvent (DbRead "listings") Sample.world)
  /\ exists l',
       findListing 16
         (listings (worldAfter (updateListing Sample.host Sample.owner
                                  Sample.id16 Sample.retitle) Sample.world))
       = Some l'
       /\ Listing.price l' = Listing.price Sample.room.
Proof.
  destruct (updateListing_partial_patch Sample.host Sample.owner Sample.id16
              16%N Sample.room Sample.world eq_refl eq_refl eq_refl)
    as (P1 & P2 & _).
  split.
  - apply (P1 Sample.priceZero 0%Q eq_refl). discriminate.
  - apply (P2 Sample.retitle eq_refl).
Defined.

(** A price of zero is the one falsy value that is not passed over in
    silence: the request that supplies it is refused, where the same
    request without a price is carried out. *)
Lemma zero_price_is_refused_not_ignored :
  truthyNum (ListingBody.price Sample.priceZero) = false
  /\ answer (updateListing Sample.host Sample.owner Sample.id16
                           Sample.priceZero) Sample.world
     = Ok (failure 400 "Price must be a positive number")
  /\ answer (updateListing Sample.host Sample.owner Sample.id16
                           ListingBody.empty) Sample.world
     = Ok (mkResponse 200 true (Some "Listing updated successfully") None
                      (OneListing Sample.room)).
Proof. vm_compute. repeat split. Qed.

(** C9, as the code has it.  After a successful update the listing
    returned has the id, the owner, the approval and the creation time it
    had, and every field that was not supplied (or was supplied falsy)
    has the value it had.  The time of the last update is the one field
    that changes without being supplied: either nothing is written and it
    stays, or the returned listing replaces the old one in the collection
    and carries the time of the write. *)
Theorem updateListing_frame
    (host : Host) (user : User.t) (id : string) (body : ListingBody.t)
    (w : World) (r : Response) :
  answer (updateListing host user id body) w = Ok r -> status r = 200 ->
  exists oid l saved,
    castObjectId host id = Some oid
    /\ findListing oid (listings w) = Some l
    /\ Listing.ownerId l = User._id user
    /\ data r = OneListing saved
    /\ Listing._id saved = Listing._id l
    /\ Listing.ownerId saved = Listing.ownerId l
    /\ Listing.isApproved saved = Listing.isApproved l
    /\ Listing.createdAt saved = Listing.createdAt l
    /\ (truthyStr (ListingBody.title body) = false ->
        Listing.title saved = Listing.title l)
    /\ (truthyStr (ListingBody.description body) = false ->
        Listing.description saved = Listing.description l)
    /\ (truthyNum (ListingBody.price body) = false ->
        Listing.price saved = Listing.price l)
    /\ (truthyStr (ListingBody.location body) = false ->
        Listing.location saved = Listing.location l)
    /\ (ListingBody.latitude body = None ->
        Listing.latitude saved = Listing.latitude l)
    /\ (ListingBody.longitude body = None ->
        Listing.longitude saved = Listing.longitude l)
    /\ (truthyStr (ListingBody.type body) = false ->
        Listing.type saved = Listing.type l)
    /\ (ListingBody.images body = None ->
        Listing.images saved = Listing.images l)
    /\ ((listings (worldAfter (updateListing host user id body) w)
         = listings w
         /\ Listing.updatedAt saved = Listing.updatedAt l)
        \/ (listings (worldAfter (updateListing host user id body) w)
            = replaceListing saved (listings w)
            /\ Listing.updatedAt saved = now w)).
Proof.
  intros Hrun Hok.
  destruct (updateListing_success host user id body w r Hrun Hok)
    as (oid & l & Hcast & Hfind & Hown & Hcases).
  pose proof (assignFields_frame body l) as (F1 & F2 & F3 & F4 & F5).
  pose proof (assignFields_skips body l)
    as (S1 & S2 & S3 & S4 & S5 & S6 & S7 & S8).
  destruct Hcases as [[Hdata Hls] | (Hdata & _ & Hls)].
  - exists oid, l, (assignFields body l).
    repeat split; try assumption. left. now split.
  - exists oid, l, (Listing.touch (now w) (assignFields body l)).
    repeat split; try assumption. right. now split.
Qed.

Lemma updateListing_frame_witness :
  exists oid l saved,
    castObjectId Sample.host Sample.id16 = Some oid
    /\ findListing oid (listings Sample.world) = Some l
    /\ Listing.ownerId l = User._id Sample.owner
    /\ Listing._id saved = Listing._id l
    /\ Listing.ownerId saved = Listing.ownerId l
    /\ Listing.isApproved saved = Listing.isApproved l
    /\ Listing.createdAt saved = Listing.createdAt l
    /\ Listing.price saved = Listing.price l.
Proof.
  destruct (updateListing_frame Sample.host Sample.owner Sample.id16
              Sample.retitle Sample.world
              (mkResponse 200 true (Some "Listing updated successfully") None
                 (OneListing
                    (Listing.touch 1000
                       (ListingSet.title "Sunny room by the park"
                                         Sample.room))))
              eq_refl eq_refl)
    as (oid & l & saved & H1 & H2 & H3 & _ & H5 & H6 & H7 & H8 & _ & _ & H11 & _).
  exists oid, l, saved. repeat split; try assumption. now apply H11.
Defined.

(** C9, as stated, fails: an update that supplies a title alone also
    changes the time of the last update, which was not supplied. *)
Lemma update_changes_updatedAt :
  exists saved,
    answer (updateListing Sample.host Sample.owner Sample.id16 Sample.retitle)
           Sample.world
    = Ok (mkResponse 200 true (Some "Listing updated successfully") None
                     (OneListing saved))
    /\ findListing 16
         (listings (worldAfter (updateListing Sample.host Sample.owner
                                  Sample.id16 Sample.retitle) Sample.world))
       = Some saved
    /\ findListing 16 (listings Sample.world) = Some Sample.room
    /\ Listing.updatedAt Sample.room = 100%Z
    /\ Listing.updatedAt saved = 1000%Z.
Proof. eexists. vm_compute. repeat split. Qed.

(** ** Registration and login *)

Lemma truthy_nonempty (s : string) : s <> EmptyString -> truthyStr (Some s) = true.
Proof. destruct s; [contradiction | reflexivity]. Qed.

Lemma valid_name_nonempty (name : string) :
  validateName (trim name) = [] -> name <> EmptyString.
Proof. intros H ->. discriminate. Qed.

Lemma valid_email_nonempty (email : string) :
  validateEmail (normalizeEmail (toLowerCase email)) = [] ->
  email <> EmptyString.
Proof. intros H ->. discriminate. Qed.

Lemma valid_password_long (password : string) :
  validatePassword password = [] ->
  password <> EmptyString /\ (String.length password <? 6)%nat = false.
Proof.
  unfold validatePassword. destruct password as [| c s]; [discriminate |].
  change (String c s =? EmptyString) with false. cbv iota.
  destruct (String.length (String c s) <? 6)%nat; [discriminate |].
  intros _. split; [discriminate | reflexivity].
Qed.

Lemma lowerChar_idempotent (c : ascii) : lowerChar (lowerChar c) = lowerChar c.
Proof. destruct c as [[] [] [] [] [] [] [] []]; reflexivity. Qed.

Lemma toLowerCase_idempotent (s : string) :
  toLowerCase (toLowerCase s) = toLowerCase s.
Proof.
  unfold toLowerCase, str, chars.
  rewrite list_ascii_of_string_of_list_ascii, map_map.
  f_equal. apply map_ext. exact lowerChar_idempotent.
Qed.

Lemma User_findOne_email_run (email : string) (w : World) :
  User_findOne_email email w
  = (Ok (findUserByEmail (normalizeEmail email) (users w)),
     addEvent (DbRead "users") w).
Proof. reflexivity. Qed.

Lemma generateToken_run (host : Host) (id : ObjectId) (w : World) :
  generateToken host id w = (Ok (jwtSign host id (now w)), w).
Proof. reflexivity. Qed.

(** [User.create] on valid fields and a fresh address. *)
Lemma User_create_ok (host : Host) (name email password role : string)
    (r : Role.t) (w : World) :
  validateName (trim name) = [] ->
  validateEmail (normalizeEmail email) = [] ->
  validatePassword password = [] ->
  Role.ofString role = Some r ->
  findUserByEmail (normalizeEmail email) (users w) = None ->
  exists w',
    User_create host name email password role w
    = (Ok (User.mk (nextId w) (trim name) (normalizeEmail email)
                   (bcryptHash host (entropy w) password) r (now w) (now w)),
       w')
    /\ users w'
       = users w ++ [User.mk (nextId w) (trim name) (normalizeEmail email)
                             (bcryptHash host (entropy w) password) r
                             (now w) (now w)].
Proof.
  intros Hname Hemail Hpw Hrole Hfresh.
  unfold User_create. rewrite Hname, Hemail, Hpw, Hrole. cbn [app].
  run_monad. cbn. unfold findUserByEmail in Hfresh. rewrite Hfresh.
  eexists. split; reflexivity.
Qed.

(** C8. The registration route takes no token.  A request with a valid
    name, a valid e-mail address that is not registered yet, a password
    of six characters or more and the role "Admin" is answered 201, and
    the user it stores has the role Admin. *)
Theorem register_admin
    (host : Host) (name email password : string) (w : World) :
  validateName (trim name) = [] ->
  validateEmail (normalizeEmail (toLowerCase email)) = [] ->
  validatePassword password = [] ->
  findUserByEmail (normalizeEmail (toLowerCase email)) (users w) = None ->
  exists user token,
    answer (route host (POST_auth_register
                          (RegisterBody.mk (Some name) (Some email)
                                           (Some password) (Some "Admin")))) w
    = Ok (mkResponse 201 true (Some "Registration successful") None
                     (Auth (authUser user) token))
    /\ User.role user = Role.Admin
    /\ User.email user = normalizeEmail (toLowerCase email)
    /\ users (worldAfter
                (route host (POST_auth_register
                               (RegisterBody.mk (Some name) (Some email)
                                                (Some password) (Some "Admin"))))
                w)
       = users w ++ [user].
Proof.
  intros Hname Hemail Hpw Hfresh.
  pose proof (valid_name_nonempty name Hname) as Hn.
  pose proof (valid_email_nonempty email Hemail) as He.
  destruct (valid_password_long password Hpw) as [Hp Hlen].
  destruct (User_create_ok host name (toLowerCase email) password "Admin"
              Role.Admin (addEvent (DbRead "users") w)
              Hname Hemail Hpw eq_refl Hfresh)
    as (w' & Hcreate & Husers).
  unfold answer, worldAfter, route, register, tryCatch.
  cbn [RegisterBody.name RegisterBody.email RegisterBody.password
       RegisterBody.role valStr].
  rewrite (truthy_nonempty name Hn), (truthy_nonempty email He),
    (truthy_nonempty password Hp), Hlen.
  cbn [negb orb].
  rewrite (bind_ok _ _ _ _ _ (User_findOne_email_run _ w)), Hfresh.
  change (includes ["Tenant"; "Owner"; "Admin"]
            (if truthyStr (Some "Admin") then "Admin" else "Tenant"))
    with true.
  cbn [negb].
  change (if truthyStr (Some "Admin") then "Admin" else "Tenant")
    with "Admin".
  rewrite (bind_ok _ _ _ _ _ Hcreate).
  rewrite (bind_ok _ _ _ _ _ (generateToken_run host _ w')).
  eexists _, _. cbn [fst snd ret]. repeat split. exact Husers.
Qed.

Lemma register_admin_witness :
  exists user token,
    answer (route Sample.host (POST_auth_register SampleRequests.registerAdmin))
           Sample.world
    = Ok (mkResponse 201 true (Some "Registration successful") None
                     (Auth (authUser user) token))
    /\ User.role user = Role.Admin
    /\ User.email user = "eve@example.com"
    /\ users (worldAfter
                (route Sample.host
                       (POST_auth_register SampleRequests.registerAdmin))
                Sample.world)
       = users Sample.world ++ [user].
Proof.
  apply (register_admin Sample.host "Eve" "Eve@Example.com" "hunter22"
           Sample.world);
    vm_compute; reflexivity.
Defined.

(** *** Login *)

Lemma normalized_admin_email :
  normalizeEmail "admin@gharsathi.com"
  = normalizeEmail (toLowerCase "admin@gharsathi.com").
Proof. vm_compute. reflexivity. Qed.




(* ================================================================== *)
(** * 13. Further properties of the operations                         *)
(* ================================================================== *)


(** ** Requesting a booking *)

Lemma Booking_findOne_listing_tenant_ok (host : Host) (listingId : string)
    (lid tenantId : ObjectId) (w : World) :
  castObjectId host listingId = Some lid ->
  Booking_findOne_listing_tenant host listingId tenantId w
  = (Ok (find (sameKey lid tenantId) (bookings w)),
     addEvent (DbRead "bookings") w).
Proof.
  intros H. unfold Booking_findOne_listing_tenant, castId. now rewrite H.
Qed.

Lemma existsb_find_none {A} (f : A -> bool) (l : list A) :
  find f l = None -> existsb f l = false.
Proof.
  induction l as [| x l IH]; cbn; [reflexivity |].
  destruct (f x); [discriminate | exact IH].
Qed.

Lemma Booking_create_ok (host : Host) (listingId : string)
    (lid tenantId ownerId : ObjectId) (message : option string) (w : World) :
  castObjectId host listingId = Some lid ->
  validateMessage message = [] ->
  find (sameKey lid tenantId) (bookings w) = None ->
  Booking_create host listingId tenantId ownerId message w
  = (Ok (newBooking w lid tenantId ownerId message),
     setBookings (bookings w ++ [newBooking w lid tenantId ownerId message])
       (addEvent (DbWrite "bookings") (setNextId (N.succ (nextId w)) w))).
Proof.
  intros Hcast Hmsg Hnone. unfold Booking_create.
  rewrite Hcast, Hmsg. run_monad. cbn.
  change (existsb _ (bookings w))
    with (existsb (sameKey lid tenantId) (bookings w)).
  now rewrite (existsb_find_none _ _ Hnone).
Qed.

(** X1. [createBooking] refuses without writing anything: 404 when the
    listing does not exist, 400 when the caller owns the listing, 400
    when the caller already has a booking for that listing. *)
Theorem createBooking_refusals
    (host : Host) (user : User.t) (body : BookingBody.t) (lid : ObjectId)
    (w : World) :
  castObjectId host (BookingBody.listingId body) = Some lid ->
  (findListing lid (listings w) = None ->
   createBooking host user body w
   = (Ok (failure 404 "Listing not found"), addEvent (DbRead "listings") w))
  /\ (forall l,
        findListing lid (listings w) = Some l ->
        Listing.ownerId l = User._id user ->
        createBooking host user body w
        = (Ok (failure 400 "You cannot book your own listing"),
           addEvent (DbRead "listings") w))
  /\ (forall l b,
        findListing lid (listings w) = Some l ->
        Listing.ownerId l <> User._id user ->
        find (sameKey lid (User._id user)) (bookings w) = Some b ->
        createBooking host user body w
        = (Ok (failure 400 "You have already sent a request for this listing"),
           addEvent (DbRead "bookings") (addEvent (DbRead "listings") w))).
Proof.
  intros Hcast. unfold createBooking, tryCatch.
  rewrite (bind_ok _ _ _ _ _ (Listing_findById_ok host _ lid w Hcast)).
  split; [| split].
  - intros Hnone. now rewrite Hnone.
  - intros l Hfind Hown. now rewrite Hfind, Hown, N.eqb_refl.
  - intros l b Hfind Hown Hdup. rewrite Hfind.
    destruct (N.eqb_spec (Listing.ownerId l) (User._id user)) as [E | _];
      [contradiction |].
    rewrite (bind_ok _ _ _ _ _
               (Booking_findOne_listing_tenant_ok host _ lid _ _ Hcast)).
    cbn [bookings addEvent]. now rewrite Hdup.
Qed.

Lemma createBooking_refusals_witness :
  createBooking Sample.host Sample.owner
    (BookingBody.mk Sample.id16 None) Sample.world
  = (Ok (failure 400 "You cannot book your own listing"),
     addEvent (DbRead "listings") Sample.world)
  /\ createBooking Sample.host Sample.tenant
       (BookingBody.mk Sample.id16 None) Sample.world
     = (Ok (failure 400 "You have already sent a request for this listing"),
        addEvent (DbRead "bookings")
                 (addEvent (DbRead "listings") Sample.world))
  /\ createBooking Sample.host Sample.tenant
       (BookingBody.mk Sample.id32 None) Sample.world
     = (Ok (failure 404 "Listing not found"),
        addEvent (DbRead "listings") Sample.world).
Proof.
  split; [| split].
  - apply (proj1 (proj2 (createBooking_refusals Sample.host Sample.owner
             (BookingBody.mk Sample.id16 None) 16%N Sample.world eq_refl))
             Sample.room); reflexivity.
  - apply (proj2 (proj2 (createBooking_refusals Sample.host Sample.tenant
             (BookingBody.mk Sample.id16 None) 16%N Sample.world eq_refl))
             Sample.room Sample.request); try reflexivity. discriminate.
  - apply (proj1 (createBooking_refusals Sample.host Sample.tenant
             (BookingBody.mk Sample.id32 None) 32%N Sample.world eq_refl)).
    reflexivity.
Defined.

(** X2. A request for a listing that exists, by a caller who does not own
    it and has no booking for it yet, with a message within 500
    characters, is answered 201; the booking stored is Pending, for the
    caller as tenant, and carries the owner the listing has at that
    time; it is added to the bookings, none of which changes. *)
Theorem createBooking_pending
    (host : Host) (user : User.t) (body : BookingBody.t) (lid : ObjectId)
    (l : Listing.t) (w : World) :
  castObjectId host (BookingBody.listingId body) = Some lid ->
  findListing lid (listings w) = Some l ->
  Listing.ownerId l <> User._id user ->
  find (sameKey lid (User._id user)) (bookings w) = None ->
  validateMessage (BookingBody.message body) = [] ->
  exists booking,
    answer (createBooking host user body) w
    = Ok (mkResponse 201 true (Some "Booking request sent successfully") None
                     (OneBooking booking))
    /\ Booking.status booking = Booking.Pending
    /\ Booking.listingId booking = lid
    /\ Booking.tenantId booking = User._id user
    /\ Booking.ownerId booking = Listing.ownerId l
    /\ Booking.message booking = BookingBody.message body
    /\ bookings (worldAfter (createBooking host user body) w)
       = bookings w ++ [booking].
Proof.
  intros Hcast Hfind Hown Hnone Hmsg.
  unfold answer, worldAfter, createBooking, tryCatch.
  rewrite (bind_ok _ _ _ _ _ (Listing_findById_ok host _ lid w Hcast)).
  rewrite Hfind.
  destruct (N.eqb_spec (Listing.ownerId l) (User._id user)) as [E | _];
    [contradiction |].
  rewrite (bind_ok _ _ _ _ _
             (Booking_findOne_listing_tenant_ok host _ lid _ _ Hcast)).
  cbn [bookings addEvent]. rewrite Hnone.
  rewrite (bind_ok _ _ _ _ _
             (Booking_create_ok host _ lid _ _ _
                (addEvent (DbRead "bookings") (addEvent (DbRead "listings") w))
                Hcast Hmsg Hnone)).
  eexists. cbn. repeat split.
Qed.

Lemma createBooking_pending_witness :
  exists booking,
    answer (createBooking Sample.host Sample.tenant
              (BookingBody.mk Sample.id17 (Some "Can I visit on Sunday?")))
           Sample.world
    = Ok (mkResponse 201 true (Some "Booking request sent successfully") None
                     (OneBooking booking))
    /\ Booking.status booking = Booking.Pending
    /\ Booking.listingId booking = 17%N
    /\ Booking.tenantId booking = User._id Sample.tenant
    /\ Booking.ownerId booking = Listing.ownerId Sample.flat
    /\ Booking.message booking = Some "Can I visit on Sunday?"
    /\ bookings (worldAfter (createBooking Sample.host Sample.tenant
                     (BookingBody.mk Sample.id17
                                     (Some "Can I visit on Sunday?")))
                   Sample.world)
       = bookings Sample.world ++ [booking].
Proof.
  apply (createBooking_pending Sample.host Sample.tenant
           (BookingBody.mk Sample.id17 (Some "Can I visit on Sunday?"))
           17%N Sample.flat Sample.world); try reflexivity.
  discriminate.
Defined.

(** X3. [createBooking] has one catch branch, for everything: a listing
    id that is not an ObjectId, and a message longer than the schema's
    500 characters on an otherwise acceptable request, are both answered
    500, and no booking is stored. *)
Theorem createBooking_errors_are_500
    (host : Host) (user : User.t) (body : BookingBody.t) (w : World) :
  (castObjectId host (BookingBody.listingId body) = None ->
   createBooking host user body w
   = (Ok (failure 500 "Failed to create booking request"),
      addEvent (ConsoleError "Create Booking Error:") w))
  /\ (forall lid l,
        castObjectId host (BookingBody.listingId body) = Some lid ->
        findListing lid (listings w) = Some l ->
        Listing.ownerId l <> User._id user ->
        find (sameKey lid (User._id user)) (bookings w) = None ->
        validateMessage (BookingBody.message body) <> [] ->
        answer (createBooking host user body) w
        = Ok (failure 500 "Failed to create booking request")
        /\ bookings (worldAfter (createBooking host user body) w)
           = bookings w).
Proof.
  split.
  - intros Hcast. unfold createBooking, tryCatch.
    now rewrite (bind_throw _ _ _ _ _
                   (Listing_findById_malformed host _ w Hcast)).
  - intros lid l Hcast Hfind Hown Hnone Hmsg.
    unfold answer, worldAfter, createBooking, tryCatch.
    rewrite (bind_ok _ _ _ _ _ (Listing_findById_ok host _ lid w Hcast)).
    rewrite Hfind.
    destruct (N.eqb_spec (Listing.ownerId l) (User._id user)) as [E | _];
      [contradiction |].
    rewrite (bind_ok _ _ _ _ _
               (Booking_findOne_listing_tenant_ok host _ lid _ _ Hcast)).
    cbn [bookings addEvent]. rewrite Hnone.
    unfold Booking_create. rewrite Hcast.
    destruct (validateMessage (BookingBody.message body)) as [| m ms];
      [contradiction |].
    cbn. split; reflexivity.
Qed.

Lemma createBooking_errors_are_500_witness :
  createBooking Sample.host Sample.tenant
    (BookingBody.mk "not-an-id" None) Sample.world
  = (Ok (failure 500 "Failed to create booking request"),
     addEvent (ConsoleError "Create Booking Error:") Sample.world)
  /\ answer (createBooking Sample.host Sample.tenant
               (BookingBody.mk Sample.id17 (Some MoreSamples.longMessage)))
            Sample.world
     = Ok (failure 500 "Failed to create booking request")
  /\ bookings (worldAfter
                 (createBooking Sample.host Sample.tenant
                    (BookingBody.mk Sample.id17
                                    (Some MoreSamples.longMessage)))
                 Sample.world)
     = bookings Sample.world.
Proof.
  split.
  - apply (proj1 (createBooking_errors_are_500 Sample.host Sample.tenant
                    (BookingBody.mk "not-an-id" None) Sample.world)).
    reflexivity.
  - apply (proj2 (createBooking_errors_are_500 Sample.host Sample.tenant
                    (BookingBody.mk Sample.id17
                                    (Some MoreSamples.longMessage))
                    Sample.world) 17%N Sample.flat);
      try reflexivity; vm_compute; discriminate.
Defined.

(** ** Invariants of the world *)

Section Preserves.
Context (Inv : World -> Prop).

Lemma preserves_ret {A} (a : A) : preserves Inv (ret a).
Proof. now intros w H. Qed.

Lemma preserves_throw {A} (e : JsError) : preserves Inv (@throw A e).
Proof. now intros w H. Qed.

Lemma preserves_gets {A} (f : World -> A) : preserves Inv (gets f).
Proof. now intros w H. Qed.

Lemma preserves_modify (f : World -> World) :
  (forall w, Inv w -> Inv (f w)) -> preserves Inv (modify f).
Proof. intros Hf w H. now apply Hf. Qed.

Lemma preserves_bind {A B} (m : M A) (k : A -> M B) :
  preserves Inv m -> (forall a, preserves Inv (k a)) ->
  preserves Inv (bind m k).
Proof.
  intros Hm Hk w H. unfold worldAfter, bind.
  specialize (Hm w H). unfold worldAfter in Hm.
  destruct (m w) as [[a | e] w1]; cbn in *; [now apply Hk | exact Hm].
Qed.

Lemma preserves_tryCatch {A} (m : M A) (h : JsError -> M A) :
  preserves Inv m -> (forall e, preserves Inv (h e)) ->
  preserves Inv (tryCatch m h).
Proof.
  intros Hm Hh w H. unfold worldAfter, tryCatch.
  specialize (Hm w H). unfold worldAfter in Hm.
  destruct (m w) as [[a | e] w1]; cbn in *; [exact Hm | now apply Hh].
Qed.

Lemma preserves_mapM {A B} (f : A -> M B) (l : list A) :
  (forall x, preserves Inv (f x)) -> preserves Inv (mapM f l).
Proof.
  intros Hf. induction l as [| x l IH]; cbn.
  - apply preserves_ret.
  - apply preserves_bind; [apply Hf |].
    intros y. apply preserves_bind; [exact IH |].
    intros ys. apply preserves_ret.
Qed.
End Preserves.

Lemma preserves_serve (host : Host) (Inv : World -> Prop) :
  (forall r, preserves Inv (route host r)) ->
  forall rs w, Inv w -> Inv (serve host rs w).
Proof.
  intros Hr rs. unfold serve.
  induction rs as [| r rs IH]; intros w H; cbn; [exact H |].
  apply IH. now apply Hr.
Qed.

(** Steps through a computation by its head; [ops] is tried on the
    operations that write what the invariant is about. *)
Ltac inv_step ops :=
  lazymatch goal with
  | |- preserves _ (ret _) => apply preserves_ret
  | |- preserves _ (throw _) => apply preserves_throw
  | |- preserves _ (gets _) => apply preserves_gets
  | |- preserves _ (bind _ _) => apply preserves_bind; [| intros ?]
  | |- preserves _ (tryCatch _ _) => apply preserves_tryCatch; [| intros ?]
  | |- preserves _ (mapM _ _) => apply preserves_mapM; intros ?
  | |- preserves _ (match ?x with _ => _ end) => destruct x
  | |- preserves _ (let _ := _ in _) => cbv zeta
  | |- preserves _ ?m =>
      first [ ops
            | lazymatch m with
              | modify _ =>
                  apply preserves_modify;
                  let w := fresh "w" in let H := fresh "H" in
                  intros w H; exact H
              | _ => let h := head_of m in unfold h
              end ]
  end.

(** *** The ids handed out only grow *)

Lemma next_newObjectId (n : N) :
  preserves (fun w => (n <= nextId w)%N) newObjectId.
Proof. intros w H. cbn. lia. Qed.

Ltac next_ops :=
  idtac;
  lazymatch goal with
  | |- preserves _ newObjectId => apply next_newObjectId
  end.

Lemma next_route (host : Host) (n : N) (r : Request) :
  preserves (fun w => (n <= nextId w)%N) (route host r).
Proof.
  destruct r; unfold route, gated, protected; repeat inv_step next_ops.
Qed.

(** *** One booking per listing and tenant *)

Lemma NoDup_map_In_eq {A B} (f : A -> B) (l : list A) (x y : A) :
  NoDup (map f l) -> In x l -> In y l -> f x = f y -> x = y.
Proof.
  induction l as [| a l IH]; cbn; [contradiction |].
  intros Hnd Hx Hy E. inversion Hnd as [| ? ? Hnotin Hnd']; subst.
  destruct Hx as [-> | Hx], Hy as [-> | Hy]; auto.
  - exfalso. apply Hnotin. rewrite E. now apply in_map.
  - exfalso. apply Hnotin. rewrite <- E. now apply in_map.
Qed.

Lemma NoDup_snoc {A} (l : list A) (x : A) :
  NoDup l -> ~ In x l -> NoDup (l ++ [x]).
Proof.
  intros Hl Hx. apply NoDup_app; [exact Hl | |].
  - constructor; [intros [] | constructor].
  - intros a Ha [<- | []]. contradiction.
Qed.

Lemma existsb_sameKey_false (lid tid : ObjectId) (bs : list Booking.t) :
  existsb (sameKey lid tid) bs = false ->
  ~ In (lid, tid) (map bookingKey bs).
Proof.
  intros H Hin. apply in_map_iff in Hin as (b & Hk & Hb).
  assert (existsb (sameKey lid tid) bs = true) as E; [| congruence].
  apply existsb_exists. exists b. split; [exact Hb |].
  unfold bookingKey in Hk. injection Hk as <- <-.
  unfold sameKey. now rewrite !N.eqb_refl.
Qed.

Lemma wellKeyed_frame (w w' : World) :
  bookings w' = bookings w -> (nextId w <= nextId w')%N ->
  bookingsWellKeyed w -> bookingsWellKeyed w'.
Proof.
  unfold bookingsWellKeyed. intros -> Hle (Hlt & Hids & Hkeys).
  repeat split; try assumption.
  eapply Forall_impl; [| exact Hlt]. cbn. intros b Hb. lia.
Qed.

Lemma wellKeyed_added (w w' : World) (doc : Booking.t) :
  bookings w' = bookings w ++ [doc] ->
  nextId w' = N.succ (nextId w) ->
  Booking._id doc = nextId w ->
  existsb (sameKey (Booking.listingId doc) (Booking.tenantId doc))
          (bookings w) = false ->
  bookingsWellKeyed w -> bookingsWellKeyed w'.
Proof.
  unfold bookingsWellKeyed. intros -> -> Hid Hkey (Hlt & Hids & Hkeys).
  rewrite !map_app. cbn [map]. repeat split.
  - apply Forall_app. split.
    + eapply Forall_impl; [| exact Hlt]. cbn. intros b Hb. lia.
    + constructor; [lia | constructor].
  - apply NoDup_snoc; [exact Hids |].
    rewrite Hid. intros Hin. apply in_map_iff in Hin as (b & Hb & Hin).
    rewrite Forall_forall in Hlt. specialize (Hlt b Hin). lia.
  - apply NoDup_snoc; [exact Hkeys |].
    now apply existsb_sameKey_false.
Qed.

Lemma wellKeyed_replaced (w w' : World) (orig doc : Booking.t) :
  bookings w' = replaceBooking doc (bookings w) ->
  nextId w' = nextId w ->
  In orig (bookings w) ->
  Booking._id doc = Booking._id orig ->
  bookingKey doc = bookingKey orig ->
  bookingsWellKeyed w -> bookingsWellKeyed w'.
Proof.
  unfold bookingsWellKeyed. intros -> -> Hin Hid Hkey (Hlt & Hids & Hkeys).
  assert (map Booking._id (replaceBooking doc (bookings w))
          = map Booking._id (bookings w)) as Eids.
  { unfold replaceBooking. rewrite map_map. apply map_ext. intros b.
    destruct (N.eqb_spec (Booking._id b) (Booking._id doc)); congruence. }
  assert (map bookingKey (replaceBooking doc (bookings w))
          = map bookingKey (bookings w)) as Ekeys.
  { unfold replaceBooking. rewrite map_map. apply map_ext_in. intros b Hb.
    destruct (N.eqb_spec (Booking._id b) (Booking._id doc)) as [E | _];
      [| reflexivity].
    rewrite Hkey. f_equal. symmetry.
    apply (NoDup_map_In_eq Booking._id (bookings w)); congruence. }
  rewrite Eids, Ekeys. repeat split; try assumption.
  rewrite Forall_forall in *. intros b Hb.
  unfold replaceBooking in Hb. apply in_map_iff in Hb as (b0 & Hb0 & Hin0).
  destruct (N.eqb_spec (Booking._id b0) (Booking._id doc)) as [E | _];
    subst b; [| now apply Hlt].
  rewrite Hid. now apply Hlt.
Qed.

Lemma wellKeyed_createBooking host user body :
  preserves bookingsWellKeyed (createBooking host user body).
Proof.
  intros w H. unfold worldAfter, createBooking, Listing_findById,
    Booking_findOne_listing_tenant, Booking_create.
  run_monad. cbn. repeat (break_inner; cbn).
  all: try (eapply wellKeyed_frame; [| | exact H]; cbn; [reflexivity | lia]).
  eapply wellKeyed_added; [| | | | exact H]; cbn; try reflexivity.
  assumption.
Qed.

Lemma wellKeyed_updateBookingStatus host user id target :
  preserves bookingsWellKeyed (updateBookingStatus host user id target).
Proof.
  intros w H. unfold worldAfter, updateBookingStatus,
    Booking_findOne_id_owner, Booking_save.
  run_monad. cbn. repeat (break_inner; cbn).
  all: try (eapply wellKeyed_frame; [| | exact H]; cbn; [reflexivity | lia]).
  match goal with
  | Hfind : find _ (bookings w) = Some ?t
    |- context [if _ then ?doc else _] =>
      apply find_some in Hfind as [Hin _];
      apply (wellKeyed_replaced w _ t doc); try assumption; reflexivity
  end.
Qed.

Lemma wellKeyed_quiet {A} (m : M A) :
  unchanged bookings m ->
  (forall n, preserves (fun w => (n <= nextId w)%N) m) ->
  preserves bookingsWellKeyed m.
Proof.
  intros Hb Hn w H. apply (wellKeyed_frame w); [apply Hb | | exact H].
  apply (Hn (nextId w) w). lia.
Qed.

Ltac wellKeyed_ops :=
  idtac;
  lazymatch goal with
  | |- preserves _ (createBooking _ _ _) => apply wellKeyed_createBooking
  | |- preserves _ (updateBookingStatus _ _ _ _) =>
      apply wellKeyed_updateBookingStatus
  | |- preserves _ (protect _ _) =>
      apply wellKeyed_quiet; [frame | intros ?; repeat inv_step next_ops]
  end.

Lemma wellKeyed_route (host : Host) (r : Request) :
  preserves bookingsWellKeyed (route host r).
Proof.
  destruct r; unfold route, gated, protected;
    try (apply wellKeyed_quiet;
         [frame | intros ?; repeat inv_step next_ops]; fail);
    repeat inv_step wellKeyed_ops.
Qed.

(** X4. The unique index on (listing, tenant) holds in every world the
    API can reach: over any sequence of requests, starting from
    bookings with distinct ids below the id supply and distinct
    (listing, tenant) pairs, the stored bookings keep distinct ids and
    there is never a second booking of one tenant for one listing. *)
Theorem bookings_stay_unique
    (host : Host) (rs : list Request) (w : World) :
  bookingsWellKeyed w -> bookingsWellKeyed (serve host rs w).
Proof. apply preserves_serve, wellKeyed_route. Qed.

Lemma bookings_stay_unique_witness :
  bookingsWellKeyed
    (serve Sample.host
       [POST_bookings SampleRequests.tenantToken
          (BookingBody.mk Sample.id17 (Some "Can I visit on Sunday?"));
        POST_bookings SampleRequests.tenantToken
          (BookingBody.mk Sample.id17 None);
        SampleRequests.rejectAccepted]
       Sample.world).
Proof.
  apply bookings_stay_unique. unfold bookingsWellKeyed. cbn.
  repeat split; repeat constructor; cbn; try lia; intuition discriminate.
Defined.

(** ** Registration and login *)

(** X5. [register] refuses with 400, storing no user: when the name,
    the e-mail address or the password is missing or empty; when the
    password has fewer than six characters; when the address, lowered
    and trimmed, is that of a stored user; when a role is given that is
    not one of Tenant, Owner, Admin.  The first two are answered before
    the store is read. *)
Theorem register_refusals
    (host : Host) (body : RegisterBody.t) (w : World) :
  let present :=
    truthyStr (RegisterBody.name body)
    && truthyStr (RegisterBody.email body)
    && truthyStr (RegisterBody.password body) in
  let long :=
    (6 <=? String.length (valStr (RegisterBody.password body)))%nat in
  let stored :=
    findUserByEmail
      (normalizeEmail (toLowerCase (valStr (RegisterBody.email body))))
      (users w) in
  (present = false ->
   register host body w
   = (Ok (failure 400 "Please provide name, email, and password"), w))
  /\ (present = true -> long = false ->
      register host body w
      = (Ok (failure 400 "Password must be at least 6 characters long"), w))
  /\ (forall u, present = true -> long = true -> stored = Some u ->
      register host body w
      = (Ok (failure 400 "Email already registered. Please login instead."),
         addEvent (DbRead "users") w))
  /\ (present = true -> long = true -> stored = None ->
      truthyStr (RegisterBody.role body) = true ->
      includes ["Tenant"; "Owner"; "Admin"] (valStr (RegisterBody.role body))
      = false ->
      register host body w
      = (Ok (failure 400 "Invalid role. Must be Tenant, Owner, or Admin"),
         addEvent (DbRead "users") w)).
Proof.
  intros present long stored. subst present long stored.
  unfold register, tryCatch.
  destruct (truthyStr (RegisterBody.name body)),
    (truthyStr (RegisterBody.email body)),
    (truthyStr (RegisterBody.password body));
    cbn [andb orb negb];
    try (repeat split; intros; first [discriminate | reflexivity]).
  rewrite Nat.ltb_antisym.
  destruct (6 <=? String.length (valStr (RegisterBody.password body)))%nat;
    cbn [negb];
    try (repeat split; intros; first [discriminate | reflexivity]).
  rewrite (bind_ok _ _ _ _ _ (User_findOne_email_run _ w)).
  repeat split; try discriminate.
  - intros u _ _ ->. reflexivity.
  - intros _ _ -> -> ->. reflexivity.
Qed.

Lemma register_refusals_witness :
  register Sample.host
    (RegisterBody.mk (Some "Eve") (Some "eve@example.com") None None)
    Sample.world
  = (Ok (failure 400 "Please provide name, email, and password"),
     Sample.world)
  /\ register Sample.host
       (RegisterBody.mk (Some "Eve") (Some "eve@example.com") (Some "12345")
                        None)
       Sample.world
     = (Ok (failure 400 "Password must be at least 6 characters long"),
        Sample.world)
  /\ register Sample.host
       (RegisterBody.mk (Some "Tara") (Some " TARA@example.com")
                        (Some "secret9") None)
       Sample.world
     = (Ok (failure 400 "Email already registered. Please login instead."),
        addEvent (DbRead "users") Sample.world)
  /\ register Sample.host
       (RegisterBody.mk (Some "Eve") (Some "eve@example.com")
                        (Some "hunter22") (Some "admin"))
       Sample.world
     = (Ok (failure 400 "Invalid role. Must be Tenant, Owner, or Admin"),
        addEvent (DbRead "users") Sample.world).
Proof.
  split; [| split; [| split]].
  - apply (proj1 (register_refusals Sample.host
      (RegisterBody.mk (Some "Eve") (Some "eve@example.com") None None)
      Sample.world)).
    reflexivity.
  - apply (proj1 (proj2 (register_refusals Sample.host
      (RegisterBody.mk (Some "Eve") (Some "eve@example.com") (Some "12345")
                       None)
      Sample.world))); reflexivity.
  - apply (proj1 (proj2 (proj2 (register_refusals Sample.host
      (RegisterBody.mk (Some "Tara") (Some " TARA@example.com")
                       (Some "secret9") None)
      Sample.world))) Sample.tenant); reflexivity.
  - apply (proj2 (proj2 (proj2 (register_refusals Sample.host
      (RegisterBody.mk (Some "Eve") (Some "eve@example.com")
                       (Some "hunter22") (Some "admin"))
      Sample.world)))); reflexivity.
Defined.

(** *** Accounts are kept *)

Lemma usersKept_User_create host us0 name email password role :
  preserves (usersKept us0) (User_create host name email password role).
Proof.
  intros w [extra H]. unfold worldAfter, User_create.
  run_monad. cbn. repeat (break_inner; cbn); try (now exists extra).
  rewrite H, <- app_assoc. eexists. reflexivity.
Qed.

Ltac usersKept_ops :=
  idtac;
  lazymatch goal with
  | |- preserves _ (User_create _ _ _ _ _) => apply usersKept_User_create
  end.

Lemma usersKept_route (host : Host) us0 (r : Request) :
  preserves (usersKept us0) (route host r).
Proof.
  destruct r; unfold route, gated, protected; repeat inv_step usersKept_ops.
Qed.

Lemma findUserByEmail_kept (e : string) (us extra : list User.t) (u : User.t) :
  findUserByEmail e us = Some u -> findUserByEmail e (us ++ extra) = Some u.
Proof.
  unfold findUserByEmail. induction us as [| x us IH]; cbn; [discriminate |].
  destruct (User.email x =? e); [trivial | exact IH].
Qed.

Lemma findUserByEmail_added (e : string) (us : list User.t) (u : User.t) :
  findUserByEmail e us = None -> User.email u = e ->
  findUserByEmail e (us ++ [u]) = Some u.
Proof.
  unfold findUserByEmail. intros Hnone He.
  induction us as [| x us IH]; cbn in *.
  - now rewrite He, String.eqb_refl.
  - destruct (User.email x =? e); [discriminate | now apply IH].
Qed.

(** [login] with the password of a stored account. *)
Lemma login_ok (host : Host) (email password : string) (u : User.t)
    (w : World) :
  email <> EmptyString -> password <> EmptyString ->
  findUserByEmail (normalizeEmail (toLowerCase email)) (users w) = Some u ->
  bcryptCompare host password (User.password u) = true ->
  exists w',
    login host (LoginBody.mk (Some email) (Some password)) w
    = (Ok (mkResponse 200 true (Some "Login successful") None
             (Auth (authUser u) (jwtSign host (User._id u) (now w)))),
       w')
    /\ users w' = users w.
Proof.
  intros He Hp Hsome Hpw.
  unfold login, tryCatch.
  cbn [LoginBody.email LoginBody.password valStr].
  rewrite (truthy_nonempty email He), (truthy_nonempty password Hp).
  cbn [negb orb].
  destruct ((email =? "admin@gharsathi.com") && (password =? "admin123"))
    eqn:E.
  - apply andb_true_iff in E. destruct E as [Ee Ep].
    apply String.eqb_eq in Ee, Ep. subst email password.
    erewrite bind_ok.
    2:{ rewrite (bind_ok _ _ _ _ _ (User_findOne_email_run _ w)).
        rewrite normalized_admin_email, Hsome. reflexivity. }
    rewrite (bind_ok _ _ _ _ _ (User_findOne_email_run _ _)).
    cbn [users addEvent]. rewrite Hsome, Hpw. cbn [negb].
    eexists. split; reflexivity.
  - erewrite bind_ok; [| reflexivity].
    rewrite (bind_ok _ _ _ _ _ (User_findOne_email_run _ w)), Hsome, Hpw.
    cbn [negb]. eexists. split; reflexivity.
Qed.

(** [User.create] on valid fields and a fresh address, with the world
    it leaves. *)
Lemma User_create_run (host : Host) (name email password role : string)
    (r : Role.t) (w : World) :
  validateName (trim name) = [] ->
  validateEmail (normalizeEmail email) = [] ->
  validatePassword password = [] ->
  Role.ofString role = Some r ->
  findUserByEmail (normalizeEmail email) (users w) = None ->
  let user := User.mk (nextId w) (trim name) (normalizeEmail email)
                (bcryptHash host (entropy w) password) r (now w) (now w) in
  User_create host name email password role w
  = (Ok user,
     setUsers (users w ++ [user])
       (addEvent (DbWrite "users")
          (setNextId (N.succ (nextId w))
             (setEntropy (N.succ (entropy w)) w)))).
Proof.
  intros Hname Hemail Hpw Hrole Hfresh.
  unfold User_create. rewrite Hname, Hemail, Hpw, Hrole. cbn [app].
  run_monad. cbn. unfold findUserByEmail in Hfresh. now rewrite Hfresh.
Qed.

Lemma role_included (s : string) (r : Role.t) :
  Role.ofString s = Some r -> includes ["Tenant"; "Owner"; "Admin"] s = true.
Proof.
  unfold Role.ofString, includes. cbn [existsb].
  destruct (s =? "Tenant"), (s =? "Owner"), (s =? "Admin");
    first [reflexivity | discriminate].
Qed.

(** [register] on valid fields, a fresh address and a role of the
    schema, given or defaulted. *)
Lemma register_ok (host : Host) (name email password : string)
    (role : option string) (r : Role.t) (w : World) :
  validateName (trim name) = [] ->
  validateEmail (normalizeEmail (toLowerCase email)) = [] ->
  validatePassword password = [] ->
  findUserByEmail (normalizeEmail (toLowerCase email)) (users w) = None ->
  Role.ofString (if truthyStr role then valStr role else "Tenant") = Some r ->
  let user := User.mk (nextId w) (trim name)
                (normalizeEmail (toLowerCase email))
                (bcryptHash host (entropy w) password) r (now w) (now w) in
  exists w',
    register host
      (RegisterBody.mk (Some name) (Some email) (Some password) role) w
    = (Ok (mkResponse 201 true (Some "Registration successful") None
             (Auth (authUser user) (jwtSign host (nextId w) (now w)))),
       w')
    /\ users w' = users w ++ [user].
Proof.
  intros Hname Hemail Hpw Hfresh Hrole user.
  pose proof (valid_name_nonempty name Hname) as Hn.
  pose proof (valid_email_nonempty email Hemail) as He.
  destruct (valid_password_long password Hpw) as [Hp Hlen].
  unfold register, tryCatch.
  cbn [RegisterBody.name RegisterBody.email RegisterBody.password
       RegisterBody.role valStr].
  rewrite (truthy_nonempty name Hn), (truthy_nonempty email He),
    (truthy_nonempty password Hp), Hlen.
  cbn [negb orb].
  rewrite (bind_ok _ _ _ _ _ (User_findOne_email_run _ w)), Hfresh.
  rewrite (role_included _ _ Hrole). cbn [negb].
  rewrite (bind_ok _ _ _ _ _
             (User_create_run host name (toLowerCase email) password _ r
                (addEvent (DbRead "users") w) Hname Hemail Hpw Hrole Hfresh)).
  eexists. split; reflexivity.
Qed.

Lemma serve_app (host : Host) (rs1 rs2 : list Request) (w : World) :
  serve host (rs1 ++ rs2) w = serve host rs2 (serve host rs1 w).
Proof. unfold serve. apply fold_left_app. Qed.

(** X6. Registration and login round trip.  After a registration with
    valid fields, an address not stored yet and a role of the schema
    (Tenant when none is given), answered 201, and after any requests
    served since, a login with the same address and password is
    answered 200 for that account, with the role it registered with:
    on a host whose [bcrypt.compare] accepts the password against the
    hash [bcrypt.hash] made of it.  No request removes an account or
    changes its password. *)
Theorem register_then_login
    (host : Host) (name email password : string) (role : option string)
    (r : Role.t) (rs : list Request) (w : World) :
  validateName (trim name) = [] ->
  validateEmail (normalizeEmail (toLowerCase email)) = [] ->
  validatePassword password = [] ->
  findUserByEmail (normalizeEmail (toLowerCase email)) (users w) = None ->
  Role.ofString (if truthyStr role then valStr role else "Tenant") = Some r ->
  bcryptCompare host password (bcryptHash host (entropy w) password) = true ->
  let account :=
    mkAuthUser (nextId w) (trim name) (normalizeEmail (toLowerCase email)) r in
  let registration :=
    POST_auth_register
      (RegisterBody.mk (Some name) (Some email) (Some password) role) in
  (exists token,
     answer (route host registration) w
     = Ok (mkResponse 201 true (Some "Registration successful") None
                      (Auth account token)))
  /\ (exists token,
        answer (route host
                  (POST_auth_login
                     (LoginBody.mk (Some email) (Some password))))
               (serve host (registration :: rs) w)
        = Ok (mkResponse 200 true (Some "Login successful") None
                         (Auth account token))).
Proof.
  intros Hname Hemail Hpw Hfresh Hrole Hcmp account registration.
  destruct (register_ok host name email password role r w
              Hname Hemail Hpw Hfresh Hrole) as (w1 & Hreg & Husers).
  split.
  - eexists. unfold answer, registration, route. rewrite Hreg. reflexivity.
  - change (registration :: rs) with ([registration] ++ rs).
    rewrite serve_app.
    assert (serve host [registration] w = w1) as ->.
    { unfold serve, worldAfter, registration, route. cbn [fold_left].
      now rewrite Hreg. }
    destruct (preserves_serve host (usersKept (users w1))
                (usersKept_route host (users w1)) rs w1) as [extra Hkept].
    { exists []. now rewrite app_nil_r. }
    pose proof (valid_email_nonempty email Hemail) as He.
    destruct (valid_password_long password Hpw) as [Hp _].
    destruct (login_ok host email password
                (User.mk (nextId w) (trim name)
                   (normalizeEmail (toLowerCase email))
                   (bcryptHash host (entropy w) password) r (now w) (now w))
                (serve host rs w1) He Hp) as (w2 & Hlogin & _).
    + rewrite Hkept, Husers. apply findUserByEmail_kept.
      now apply findUserByEmail_added.
    + exact Hcmp.
    + eexists. unfold answer, route. rewrite Hlogin. reflexivity.
Qed.

Lemma register_then_login_witness :
  (exists token,
     answer (route Sample.host
               (POST_auth_register
                  (RegisterBody.mk (Some "Eve") (Some "Eve@Example.com")
                                   (Some "hunter22") None)))
            Sample.world
     = Ok (mkResponse 201 true (Some "Registration successful") None
             (Auth (mkAuthUser 64 "Eve" "eve@example.com" Role.Tenant)
                   token)))
  /\ (exists token,
        answer (route Sample.host
                  (POST_auth_login
                     (LoginBody.mk (Some "Eve@Example.com")
                                   (Some "hunter22"))))
               (serve Sample.host
                  [POST_auth_register
                     (RegisterBody.mk (Some "Eve") (Some "Eve@Example.com")
                                      (Some "hunter22") None);
                   SampleRequests.deleteFlat;
                   POST_auth_login SampleRequests.devAdmin]
                  Sample.world)
        = Ok (mkResponse 200 true (Some "Login successful") None
                (Auth (mkAuthUser 64 "Eve" "eve@example.com" Role.Tenant)
                      token))).
Proof.
  apply (register_then_login Sample.host "Eve" "Eve@Example.com" "hunter22"
           None Role.Tenant
           [SampleRequests.deleteFlat; POST_auth_login SampleRequests.devAdmin]
           Sample.world); vm_compute; reflexivity.
Defined.

(** *** One account per address *)

Lemma findUserByEmail_none (e : string) (us : list User.t) :
  find (fun u => User.email u =? e) us = None -> ~ In e (map User.email us).
Proof.
  induction us as [| x us IH]; cbn; [tauto |].
  destruct (String.eqb_spec (User.email x) e) as [E | E]; [discriminate |].
  intros Hnone [Hx | Hin]; [contradiction | now apply IH].
Qed.

Lemma uniqueEmails_User_create host name email password role :
  preserves uniqueEmails (User_create host name email password role).
Proof.
  intros w H. unfold worldAfter, User_create.
  run_monad. cbn. repeat (break_inner; cbn); try exact H.
  unfold uniqueEmails in *. cbn. rewrite map_app. cbn [map].
  apply NoDup_snoc; [exact H |]. cbn. now apply findUserByEmail_none.
Qed.

Ltac uniqueEmails_ops :=
  idtac;
  lazymatch goal with
  | |- preserves _ (User_create _ _ _ _ _) => apply uniqueEmails_User_create
  end.

Lemma uniqueEmails_route (host : Host) (r : Request) :
  preserves uniqueEmails (route host r).
Proof.
  destruct r; unfold route, gated, protected; repeat inv_step uniqueEmails_ops.
Qed.

(** X7. The unique index on the e-mail address holds in every world
    the API can reach: starting from users with distinct addresses, no
    sequence of requests (registrations, logins with the development
    pair, anything else) stores two users with one address. *)
Theorem emails_stay_unique (host : Host) (rs : list Request) (w : World) :
  uniqueEmails w -> uniqueEmails (serve host rs w).
Proof. apply preserves_serve, uniqueEmails_route. Qed.

Lemma emails_stay_unique_witness :
  uniqueEmails
    (serve Sample.host
       [POST_auth_register SampleRequests.registerAdmin;
        POST_auth_register SampleRequests.registerAdmin;
        POST_auth_login SampleRequests.devAdmin;
        POST_auth_login SampleRequests.devAdmin]
       Sample.world).
Proof.
  apply emails_stay_unique. unfold uniqueEmails. cbn.
  repeat constructor; cbn; intuition discriminate.
Defined.

(** ** Authentication and the role gates *)

Lemma protect_frame (host : Host) (authorization : option string) :
  unchanged users (protect host authorization)
  /\ unchanged listings (protect host authorization)
  /\ unchanged bookings (protect host authorization)
  /\ unchanged cloud (protect host authorization).
Proof. repeat split; frame. Qed.


Lemma protected_refused host a (h : User.t -> M Response) resp w :
  answer (protect host a) w = Ok (inl resp) ->
  protected host a h w = (Ok resp, worldAfter (protect host a) w).
Proof.
  unfold answer, worldAfter, protected, bind.
  destruct (protect host a w) as [[[r | u] | e] w']; cbn;
    intros H; inversion H; subst; reflexivity.
Qed.

Lemma protected_passed host a (h : User.t -> M Response) user w :
  answer (protect host a) w = Ok (inr user) ->
  protected host a h w = h user (worldAfter (protect host a) w).
Proof.
  unfold answer, worldAfter, protected, bind.
  destruct (protect host a w) as [[[r | u] | e] w']; cbn;
    intros H; inversion H; subst; reflexivity.
Qed.

Lemma requireOwner_tenant (u : User.t) :
  User.role u = Role.Tenant ->
  requireOwner (Some u)
  = Some (failure 403
      "Access denied. This resource is only available to property owners.").
Proof. unfold requireOwner. now intros ->. Qed.

Lemma requireAdmin_others (u : User.t) :
  User.role u <> Role.Admin ->
  requireAdmin (Some u)
  = Some (failure 403
      "Access denied. This resource is only available to administrators.").
Proof.
  unfold requireAdmin. destruct (User.role u); intros H;
    first [reflexivity | now contradiction H].
Qed.

(** X9. Access control of the routers.  On every route behind
    [protect], a request that [protect] answers (401) gets that answer
    and its handler does not run; on the routes for owners a caller
    whose role is Tenant, and on the routes for administrators a caller
    whose role is not Admin, is answered 403.  In each case nothing
    stored changes. *)
Theorem routes_are_gated (host : Host) (r : Request) (w : World) :
  gateOf r <> Public ->
  let entry := protect host (authorizationOf r) in
  (forall response,
      answer entry w = Ok (inl response) ->
      answer (route host r) w = Ok response
      /\ sameStore w (worldAfter (route host r) w))
  /\ (forall user,
        answer entry w = Ok (inr user) ->
        gateOf r = OwnerOrAdmin -> User.role user = Role.Tenant ->
        answer (route host r) w
        = Ok (failure 403
            "Access denied. This resource is only available to property owners.")
        /\ sameStore w (worldAfter (route host r) w))
  /\ (forall user,
        answer entry w = Ok (inr user) ->
        gateOf r = AdminOnly -> User.role user <> Role.Admin ->
        answer (route host r) w
        = Ok (failure 403
            "Access denied. This resource is only available to administrators.")
        /\ sameStore w (worldAfter (route host r) w)).
Proof.
  intros Hgate entry.
  assert (sameStore w (worldAfter entry w)) as Hsame.
  { destruct (protect_frame host (authorizationOf r)) as (Hu & Hl & Hb & Hc).
    repeat split; [apply Hu | apply Hl | apply Hb | apply Hc]. }
  subst entry.
  split; [| split].
  - intros response Hin.
    destruct r; try (now contradiction Hgate);
      unfold answer, worldAfter, route, gated in *;
      cbn [authorizationOf] in *;
      rewrite (protected_refused _ _ _ _ _ Hin); cbn [fst snd];
      (split; [reflexivity | exact Hsame]).
  - intros user Hin Hg Hrole.
    destruct r; try discriminate Hg;
      unfold answer, worldAfter, route, gated in *;
      cbn [authorizationOf] in *;
      rewrite (protected_passed _ _ _ _ _ Hin),
        (requireOwner_tenant _ Hrole); cbn [fst snd ret];
      (split; [reflexivity | exact Hsame]).
  - intros user Hin Hg Hrole.
    destruct r; try discriminate Hg;
      unfold answer, worldAfter, route, gated in *;
      cbn [authorizationOf] in *;
      rewrite (protected_passed _ _ _ _ _ Hin),
        (requireAdmin_others _ Hrole); cbn [fst snd ret];
      (split; [reflexivity | exact Hsame]).
Qed.

Lemma routes_are_gated_witness :
  answer (route Sample.host
            (DELETE_listings_id SampleRequests.tenantToken Sample.id16))
         Sample.world
  = Ok (failure 403
      "Access denied. This resource is only available to property owners.")
  /\ sameStore Sample.world
       (worldAfter (route Sample.host
                      (DELETE_listings_id SampleRequests.tenantToken
                                          Sample.id16))
                   Sample.world).
Proof.
  apply (proj1 (proj2 (routes_are_gated Sample.host
           (DELETE_listings_id SampleRequests.tenantToken Sample.id16)
           Sample.world ltac:(discriminate))) Sample.tenant);
    reflexivity.
Defined.

(** ** Reading the listings *)

Lemma sameStore_refl (w : World) : sameStore w w.
Proof. repeat split. Qed.

Lemma sameStore_trans (a b c : World) :
  sameStore a b -> sameStore b c -> sameStore a c.
Proof.
  unfold sameStore. intros (U & L & B & C) (U' & L' & B' & C').
  repeat split; congruence.
Qed.

Lemma sameStore_frame {A} (m : M A) (w : World) :
  unchanged users m -> unchanged listings m -> unchanged bookings m ->
  unchanged cloud m -> sameStore w (worldAfter m w).
Proof. intros U L B C. repeat split; [apply U | apply L | apply B | apply C]. Qed.

Ltac read_only := apply sameStore_frame; frame.

Lemma mapM_populateOwner_run (ls : list Listing.t) (w : World) :
  exists w',
    mapM populateOwner ls w = (Ok (map (viewOf w) ls), w')
    /\ sameStore w w'.
Proof.
  revert w. induction ls as [| l ls IH]; intros w.
  - exists w. split; [reflexivity | apply sameStore_refl].
  - cbn [mapM map].
    destruct (IH (addEvent (DbRead "users") w)) as (w' & Hrun & Hsame).
    exists w'. split; [| exact Hsame].
    assert (populateOwner l w
            = (Ok (viewOf w l), addEvent (DbRead "users") w)) as Hp
      by reflexivity.
    rewrite (bind_ok _ _ _ _ _ Hp), (bind_ok _ _ _ _ _ Hrun).
    reflexivity.
Qed.

Lemma Listing_find_run (c : ListingConditions) (w : World) :
  holdsSome (c_gte c) isNaN || holdsSome (c_lte c) isNaN = false ->
  Listing_find c w
  = (Ok (sortNewest Listing.createdAt (filter (satisfies c) (listings w))),
     addEvent (DbRead "listings") w).
Proof. intros H. unfold Listing_find. now rewrite H. Qed.

Lemma Listing_find_NaN (c : ListingConditions) (w : World) :
  holdsSome (c_gte c) isNaN || holdsSome (c_lte c) isNaN = true ->
  Listing_find c w = (Throw castError, w).
Proof. intros H. unfold Listing_find. now rewrite H. Qed.

Lemma sortNewest_In {A} (key : A -> Z) (l : list A) (x : A) :
  In x (sortNewest key l) <-> In x l.
Proof.
  split; apply Permutation_in;
    [apply sortNewest_perm | symmetry; apply sortNewest_perm].
Qed.

Lemma sortNewest_listings (ls : list Listing.t) :
  StronglySorted newerFirst (sortNewest Listing.createdAt ls).
Proof. apply (sortNewest_sorted Listing.createdAt). Qed.

Lemma filter_split_perm {A} (f : A -> bool) (l : list A) :
  Permutation (filter f l ++ filter (fun x => negb (f x)) l) l.
Proof.
  induction l as [| x l IH]; cbn; [constructor |].
  destruct (f x); cbn.
  - now constructor.
  - rewrite <- Permutation_middle. now constructor.
Qed.

(** Compiling the search pattern leaves the world as it is. *)
Lemma search_stage_world (host : Host) (search : option string)
    (r : Result (option (string -> bool))) (w w1 : World) :
  (if truthyStr search
   then bind (newRegExp host (valStr search))
             (fun searchRegex => ret (Some searchRegex))
   else ret None) w = (r, w1) ->
  w1 = w.
Proof.
  destruct (truthyStr search); [| now intros [= _ <-]].
  unfold bind, newRegExp, ret, throw.
  destruct (parseAtoms _); [now intros [= _ <-] |].
  destruct (regExpHost _ _); now intros [= _ <-].
Qed.

Lemma satisfies_approved (c : ListingConditions) (l : Listing.t) :
  c_isApproved c = Some true -> satisfies c l = true ->
  Listing.isApproved l = true.
Proof.
  unfold satisfies. intros ->. rewrite approved_cond.
  rewrite !andb_true_iff. tauto.
Qed.

(** What [getAllListings] answers, for any query. *)
Lemma getAllListings_cases
    (host : Host) (query : ListingQuery.t) (w : World) :
  answer (getAllListings host query) w
  = Ok (failure 500 "Failed to fetch listings. Please try again.")
  \/ exists ls,
       answer (getAllListings host query) w
       = Ok (mkResponse 200 true None (Some (List.length ls))
                        (ManyListingViews (map (viewOf w) ls)))
       /\ (forall l, In l ls ->
                     In l (listings w) /\ Listing.isApproved l = true)
       /\ (exists rest, Permutation (ls ++ rest) (listings w))
       /\ StronglySorted newerFirst ls.
Proof.
  unfold answer, getAllListings, tryCatch.
  match goal with
  | |- context [bind ?stage _ w] =>
      destruct (stage w) as [[o | e] w1] eqn:Estage
  end.
  2:{ rewrite (bind_throw _ _ _ _ _ Estage). now left. }
  rewrite (bind_ok _ _ _ _ _ Estage).
  apply search_stage_world in Estage. subst w1.
  match goal with
  | |- context [Listing_find ?c] =>
      destruct (holdsSome (c_gte c) isNaN || holdsSome (c_lte c) isNaN)
        eqn:Enan;
      [ rewrite (bind_throw _ _ _ _ _ (Listing_find_NaN c w Enan));
        now left
      | rewrite (bind_ok _ _ _ _ _ (Listing_find_run c w Enan));
        clear Enan;
        pose proof (fun l => satisfies_approved c l eq_refl) as Happroved;
        revert Happroved; generalize c; intros conds Happroved ]
  end.
  destruct (mapM_populateOwner_run
              (sortNewest Listing.createdAt
                 (filter (satisfies conds) (listings w)))
              (addEvent (DbRead "listings") w)) as (w' & Hrun & _).
  rewrite (bind_ok _ _ _ _ _ Hrun). cbn [ret fst].
  right. eexists. rewrite length_map. split; [reflexivity |].
  split; [| split].
  - intros l Hin. apply sortNewest_In, filter_In in Hin as [Hin Hsat].
    split; [exact Hin | now apply Happroved].
  - exists (filter (fun x => negb (satisfies conds x)) (listings w)).
    rewrite (sortNewest_perm Listing.createdAt). apply filter_split_perm.
  - apply sortNewest_listings.
Qed.

(** X10. Whatever the query, and whatever the host makes of a pattern
    or of a number: [getAllListings] answers 200 or 500 and changes
    nothing stored; on 200 every listing returned is stored and
    approved, none is returned twice over the stored ones, each carries
    the summary of its owner, newest first; a price bound that is given
    and is not a number is answered 500. *)
Theorem getAllListings_only_approved
    (host : Host) (query : ListingQuery.t) (w : World) :
  (answer (getAllListings host query) w
   = Ok (failure 500 "Failed to fetch listings. Please try again.")
   \/ exists ls,
        answer (getAllListings host query) w
        = Ok (mkResponse 200 true None (Some (List.length ls))
                         (ManyListingViews (map (viewOf w) ls)))
        /\ (forall l, In l ls ->
                      In l (listings w) /\ Listing.isApproved l = true)
        /\ (exists rest, Permutation (ls ++ rest) (listings w))
        /\ StronglySorted newerFirst ls)
  /\ sameStore w (worldAfter (getAllListings host query) w)
  /\ (forall bound,
        (ListingQuery.minPrice query = Some bound
         \/ ListingQuery.maxPrice query = Some bound) ->
        bound <> EmptyString -> Number host bound = NaN ->
        answer (getAllListings host query) w
        = Ok (failure 500 "Failed to fetch listings. Please try again.")).
Proof.
  split; [apply getAllListings_cases | split].
  - read_only.
  - intros bound Hbound Hne Hnan.
    assert (truthyStr (Some bound) = true) as Htruthy
      by now apply truthy_nonempty.
    unfold answer, getAllListings, tryCatch.
    match goal with
    | |- context [bind ?stage _ w] =>
        destruct (stage w) as [[o | e] w1] eqn:Estage
    end.
    2:{ now rewrite (bind_throw _ _ _ _ _ Estage). }
    rewrite (bind_ok _ _ _ _ _ Estage).
    match goal with
    | |- context [Listing_find ?c] =>
        assert (holdsSome (c_gte c) isNaN || holdsSome (c_lte c) isNaN = true)
          as Enan;
        [| now rewrite (bind_throw _ _ _ _ _ (Listing_find_NaN c w1 Enan))]
    end.
    cbn [c_gte c_lte].
    destruct Hbound as [-> | ->]; cbn [valStr]; rewrite Htruthy.
    + cbn [orb andb holdsSome]. now rewrite Hnan.
    + rewrite orb_true_r. cbn [andb holdsSome]. rewrite Hnan.
      apply orb_true_r.
Qed.

Lemma getAllListings_only_approved_witness :
  answer (getAllListings Sample.host
            (ListingQuery.mk None (Some "cheap") None None))
         Sample.world
  = Ok (failure 500 "Failed to fetch listings. Please try again.").
Proof.
  apply (proj2 (proj2 (getAllListings_only_approved Sample.host
           (ListingQuery.mk None (Some "cheap") None None) Sample.world))
           "cheap");
    [now left | discriminate | reflexivity].
Defined.

Lemma satisfies_owner (oid : ObjectId) (l : Listing.t) :
  satisfies (mkConditions None None None None None (Some oid)) l
  = N.eqb (Listing.ownerId l) oid.
Proof. reflexivity. Qed.

(** X11. [getOwnerListings] always answers 200 with exactly the stored
    listings whose owner is the caller, approved or not, each once,
    newest first, and their number as the count; it changes nothing
    stored. *)
Theorem getOwnerListings_exactly_own (user : User.t) (w : World) :
  exists ls,
    answer (getOwnerListings user) w
    = Ok (mkResponse 200 true None (Some (List.length ls)) (ManyListings ls))
    /\ Permutation ls
         (filter (fun l => N.eqb (Listing.ownerId l) (User._id user))
                 (listings w))
    /\ (forall l, In l ls <->
                  In l (listings w) /\ Listing.ownerId l = User._id user)
    /\ StronglySorted newerFirst ls
    /\ sameStore w (worldAfter (getOwnerListings user) w).
Proof.
  eexists. split; [reflexivity |]. split; [| split; [| split]].
  - apply sortNewest_perm.
  - intros l. rewrite sortNewest_In, filter_In, satisfies_owner, N.eqb_eq.
    reflexivity.
  - apply sortNewest_listings.
  - read_only.
Qed.

(** X12. [getAdminListings] always answers 200 with every stored
    listing, approved or not, each once, newest first, each with the
    summary of its owner (none when the owner is not stored); it
    changes nothing stored. *)
Theorem getAdminListings_everything (w : World) :
  exists ls,
    answer getAdminListings w
    = Ok (mkResponse 200 true None (Some (List.length ls))
                     (ManyListingViews (map (viewOf w) ls)))
    /\ Permutation ls (listings w)
    /\ StronglySorted newerFirst ls
    /\ sameStore w (worldAfter getAdminListings w).
Proof.
  exists (sortNewest Listing.createdAt (listings w)).
  split; [| split; [| split]].
  - unfold answer, getAdminListings, tryCatch.
    rewrite (bind_ok _ _ _ _ _ (Listing_find_run noConditions w eq_refl)).
    destruct (mapM_populateOwner_run
                (sortNewest Listing.createdAt
                   (filter (satisfies noConditions) (listings w)))
                (addEvent (DbRead "listings") w)) as (w' & Hrun & _).
    rewrite (bind_ok _ _ _ _ _ Hrun). cbn [ret fst].
    rewrite length_map.
    assert (filter (satisfies noConditions) (listings w) = listings w) as ->.
    { apply forallb_filter_id. apply forallb_forall. reflexivity. }
    reflexivity.
  - apply sortNewest_perm.
  - apply sortNewest_listings.
  - read_only.
Qed.

(** X13. [getListingById] answers 200 with the stored listing of that
    id and the summary of its owner, whether the listing is approved or
    not, and 404 when no listing has the id; it changes nothing
    stored. *)
Theorem getListingById_found
    (host : Host) (id : string) (oid : ObjectId) (w : World) :
  castObjectId host id = Some oid ->
  match findListing oid (listings w) with
  | Some l =>
      answer (getListingById host id) w
      = Ok (mkResponse 200 true None None (OneListingView (viewOf w l)))
  | None =>
      answer (getListingById host id) w
      = Ok (failure 404 "Listing not found")
  end
  /\ sameStore w (worldAfter (getListingById host id) w).
Proof.
  intros Hcast. split; [| read_only].
  unfold answer, getListingById, tryCatch.
  rewrite (bind_ok _ _ _ _ _ (Listing_findById_ok host _ oid w Hcast)).
  destruct (findListing oid (listings w)); reflexivity.
Qed.

Lemma getListingById_found_witness :
  answer (getListingById Sample.host Sample.id16) Sample.world
  = Ok (mkResponse 200 true None None
          (OneListingView
             (mkView Sample.room
                     (Some (mkOwner 1 "Olivia Owner" "olivia@example.com")))))
  /\ sameStore Sample.world
       (worldAfter (getListingById Sample.host Sample.id16) Sample.world).
Proof.
  apply (getListingById_found Sample.host Sample.id16 16%N Sample.world).
  reflexivity.
Defined.

(** ** Moderation *)

Lemma Listing_findByIdAndUpdate_run (host : Host) (id : string)
    (oid : ObjectId) (b : bool) (w : World) :
  castObjectId host id = Some oid ->
  Listing_findByIdAndUpdate host id b w
  = match findListing oid (listings w) with
    | Some l =>
        let doc := Listing.touch (now w) (Listing.setApproved b l) in
        (Ok (Some doc),
         setListings (replaceListing doc (listings w))
                     (addEvent (DbWrite "listings") w))
    | None => (Ok None, addEvent (DbWrite "listings") w)
    end.
Proof.
  intros Hcast. unfold Listing_findByIdAndUpdate, castId. rewrite Hcast.
  run_monad. cbn -[findListing replaceListing].
  now destruct (findListing oid (listings w)).
Qed.

Lemma updateListingStatus_frame (host : Host) (id : string) (v : JsVal) :
  unchanged users (updateListingStatus host id v)
  /\ unchanged bookings (updateListingStatus host id v)
  /\ unchanged cloud (updateListingStatus host id v).
Proof. repeat split; frame. Qed.

(** X14. [updateListingStatus], for an id that is an ObjectId: a value
    of [isApproved] that is not a boolean is answered 400 before the
    store is touched; an id that no listing has is answered 404 and no
    listing changes; otherwise the answer is 200, the stored listing
    takes the given approval and the time of the write as [updatedAt]
    and keeps every other field, the listings with other ids stay as
    they are, and users, bookings and images are not touched. *)
Theorem updateListingStatus_sets_the_flag
    (host : Host) (id : string) (oid : ObjectId) (w : World) :
  castObjectId host id = Some oid ->
  (forall v, (forall b, v <> JBool b) ->
             updateListingStatus host id v w
             = (Ok (failure 400 "Invalid status provided"), w))
  /\ (forall b,
        let w' := worldAfter (updateListingStatus host id (JBool b)) w in
        match findListing oid (listings w) with
        | None =>
            answer (updateListingStatus host id (JBool b)) w
            = Ok (failure 404 "Listing not found")
            /\ listings w' = listings w
        | Some l =>
            let doc :=
              Listing.mk (Listing._id l) (Listing.title l)
                (Listing.description l) (Listing.price l)
                (Listing.location l) (Listing.latitude l)
                (Listing.longitude l) (Listing.type l) (Listing.images l)
                (Listing.ownerId l) b (Listing.createdAt l) (now w) in
            answer (updateListingStatus host id (JBool b)) w
            = Ok (mkResponse 200 true
                    (Some (if b then "Listing approved successfully"
                           else "Listing rejected successfully"))
                    None (OneListing doc))
            /\ listings w'
               = map (fun x => if N.eqb (Listing._id x) oid then doc else x)
                     (listings w)
        end
        /\ users w' = users w /\ bookings w' = bookings w
        /\ cloud w' = cloud w).
Proof.
  intros Hcast. split.
  - intros v Hv. destruct v; try reflexivity. now contradiction (Hv b).
  - intros b w'.
    destruct (updateListingStatus_frame host id (JBool b)) as (U & B & C).
    split; [| repeat split; [apply U | apply B | apply C]].
    subst w'. unfold answer, worldAfter, updateListingStatus, tryCatch.
    pose proof (Listing_findByIdAndUpdate_run host id oid b w Hcast) as Hrun.
    destruct (findListing oid (listings w)) as [l |] eqn:Efind;
      rewrite (bind_ok _ _ _ _ _ Hrun); cbn [ret fst snd].
    + apply findListing_id in Efind as Hid.
      split; [now destruct b |].
      cbn. unfold replaceListing. now rewrite <- Hid.
    + split; reflexivity.
Qed.

Lemma updateListingStatus_sets_the_flag_witness :
  updateListingStatus Sample.host Sample.id16 (JStr "false") Sample.world
  = (Ok (failure 400 "Invalid status provided"), Sample.world).
Proof.
  apply (proj1 (updateListingStatus_sets_the_flag Sample.host Sample.id16
                  16%N Sample.world eq_refl)).
  discriminate.
Defined.

Lemma updateListingStatus_run (host : Host) (id : string) (oid : ObjectId)
    (b : bool) (l : Listing.t) (w : World) :
  castObjectId host id = Some oid ->
  findListing oid (listings w) = Some l ->
  let doc := Listing.touch (now w) (Listing.setApproved b l) in
  updateListingStatus host id (JBool b) w
  = (Ok (mkResponse 200 true
           (Some ("Listing " ++ (if b then "approved" else "rejected")
                  ++ " successfully")%string)
           None (OneListing doc)),
     setListings (replaceListing doc (listings w))
                 (addEvent (DbWrite "listings") w)).
Proof.
  intros Hcast Hfind doc. unfold updateListingStatus, tryCatch.
  pose proof (Listing_findByIdAndUpdate_run host id oid b w Hcast) as Hrun.
  rewrite Hfind in Hrun. now rewrite (bind_ok _ _ _ _ _ Hrun).
Qed.

Lemma In_replaceListing (doc x : Listing.t) (ls : list Listing.t) :
  In x (replaceListing doc ls) ->
  x = doc \/ (In x ls /\ Listing._id x <> Listing._id doc).
Proof.
  unfold replaceListing. intros H. apply in_map_iff in H as (y & Hy & Hin).
  destruct (N.eqb_spec (Listing._id y) (Listing._id doc)) as [E | E].
  - now left.
  - right. subst y. now split.
Qed.

(** The listings without filters. *)
Lemma getAllListings_unfiltered (host : Host) (w : World) :
  exists ls,
    answer (getAllListings host (ListingQuery.mk None None None None)) w
    = Ok (mkResponse 200 true None (Some (List.length ls))
                     (ManyListingViews (map (viewOf w) ls)))
    /\ forall l, In l ls <-> In l (listings w) /\ Listing.isApproved l = true.
Proof.
  unfold answer, getAllListings, tryCatch.
  cbn [ListingQuery.type ListingQuery.minPrice ListingQuery.maxPrice
       ListingQuery.search truthyStr andb orb].
  erewrite bind_ok; [| reflexivity].
  match goal with
  | |- context [Listing_find ?c] =>
      rewrite (bind_ok _ _ _ _ _ (Listing_find_run c w eq_refl));
      set (conds := c)
  end.
  destruct (mapM_populateOwner_run
              (sortNewest Listing.createdAt
                 (filter (satisfies conds) (listings w)))
              (addEvent (DbRead "listings") w)) as (w' & Hrun & _).
  rewrite (bind_ok _ _ _ _ _ Hrun). cbn [ret fst].
  eexists. rewrite length_map. split; [reflexivity |].
  intros l. rewrite sortNewest_In, filter_In.
  unfold conds, satisfies. rewrite approved_cond. cbn [holdsOpt c_type c_gte c_lte c_or c_ownerId].
  now rewrite !andb_true_r.
Qed.

(** X15. Moderation decides what visitors see.  Once an administrator
    has rejected a stored listing, no query of [getAllListings] returns
    a listing with its id, while [getListingById] still answers 200
    with it; once the listing is approved, [getAllListings] without
    filters returns it. *)
Theorem moderation_controls_visibility
    (host : Host) (id : string) (oid : ObjectId) (l : Listing.t) (w : World) :
  castObjectId host id = Some oid ->
  findListing oid (listings w) = Some l ->
  let rejected := worldAfter (updateListingStatus host id (JBool false)) w in
  let approved := worldAfter (updateListingStatus host id (JBool true)) w in
  (forall query n vs,
      answer (getAllListings host query) rejected
      = Ok (mkResponse 200 true None n (ManyListingViews vs)) ->
      forall v, In v vs -> Listing._id (v_listing v) <> oid)
  /\ (exists v,
        answer (getListingById host id) rejected
        = Ok (mkResponse 200 true None None (OneListingView v))
        /\ Listing._id (v_listing v) = oid
        /\ Listing.isApproved (v_listing v) = false)
  /\ (exists n vs v,
        answer (getAllListings host (ListingQuery.mk None None None None))
               approved
        = Ok (mkResponse 200 true None n (ManyListingViews vs))
        /\ In v vs
        /\ Listing._id (v_listing v) = oid
        /\ Listing.isApproved (v_listing v) = true).
Proof.
  intros Hcast Hfind rejected approved.
  pose proof (findListing_id _ _ _ Hfind) as Hid.
  assert (forall b,
             listings (worldAfter (updateListingStatus host id (JBool b)) w)
             = replaceListing (Listing.touch (now w) (Listing.setApproved b l))
                              (listings w)) as Hlistings.
  { intros b. unfold worldAfter.
    now rewrite (updateListingStatus_run host id oid b l w Hcast Hfind). }
  split; [| split].
  - intros query n vs Hanswer v Hv Hoid.
    destruct (getAllListings_cases host query rejected)
      as [H500 | (ls & H200 & Hin & _)];
      rewrite Hanswer in *; [discriminate |].
    injection H200 as _ ->.
    apply in_map_iff in Hv as (x & <- & Hx). cbn in Hoid.
    destruct (Hin x Hx) as [Hstored Happroved].
    unfold rejected in Hstored. rewrite Hlistings in Hstored.
    apply In_replaceListing in Hstored as [-> | [_ Hne]].
    + discriminate Happroved.
    + apply Hne. cbn. congruence.
  - exists (viewOf rejected
              (Listing.touch (now w) (Listing.setApproved false l))).
    split; [| split; [exact Hid | reflexivity]].
    unfold answer, getListingById, tryCatch.
    rewrite (bind_ok _ _ _ _ _
               (Listing_findById_ok host _ oid rejected Hcast)).
    unfold rejected at 1. rewrite Hlistings.
    rewrite (findListing_replace oid _ l
               (Listing.touch (now w) (Listing.setApproved false l))
               Hfind Hid).
    reflexivity.
  - destruct (getAllListings_unfiltered host approved) as (ls & Hanswer & Hin).
    exists (Some (List.length ls)), (map (viewOf approved) ls),
      (viewOf approved (Listing.touch (now w) (Listing.setApproved true l))).
    split; [exact Hanswer |]. split; [| split; [exact Hid | reflexivity]].
    apply in_map, Hin. split; [| reflexivity].
    unfold approved. rewrite Hlistings.
    apply find_some with (f := fun x => N.eqb (Listing._id x) oid).
    exact (findListing_replace oid _ l
             (Listing.touch (now w) (Listing.setApproved true l)) Hfind Hid).
Qed.

Lemma moderation_controls_visibility_witness :
  (forall query n vs,
      answer (getAllListings Sample.host query)
             (worldAfter (updateListingStatus Sample.host Sample.id16
                                              (JBool false)) Sample.world)
      = Ok (mkResponse 200 true None n (ManyListingViews vs)) ->
      forall v, In v vs -> Listing._id (v_listing v) <> 16%N)
  /\ (exists v,
        answer (getListingById Sample.host Sample.id16)
               (worldAfter (updateListingStatus Sample.host Sample.id16
                                                (JBool false)) Sample.world)
        = Ok (mkResponse 200 true None None (OneListingView v))
        /\ Listing._id (v_listing v) = 16%N
        /\ Listing.isApproved (v_listing v) = false)
  /\ (exists n vs v,
        answer (getAllListings Sample.host
                  (ListingQuery.mk None None None None))
               (worldAfter (updateListingStatus Sample.host Sample.id16
                                                (JBool true)) Sample.world)
        = Ok (mkResponse 200 true None n (ManyListingViews vs))
        /\ In v vs
        /\ Listing._id (v_listing v) = 16%N
        /\ Listing.isApproved (v_listing v) = true).
Proof.
  apply (moderation_controls_visibility Sample.host Sample.id16 16%N
           Sample.room Sample.world); reflexivity.
Defined.

(** *** Stored listings satisfy the schema *)

Lemma not_le_positive (p : Q) : Qle_bool p 0 = false -> (0 < p)%Q.
Proof.
  intros H. apply Qnot_le_lt. intros Hle.
  apply Qle_bool_iff in Hle. congruence.
Qed.

Lemma sound_replace (d : Listing.t) (ls : list Listing.t) :
  soundListing d -> Forall soundListing ls ->
  Forall soundListing (replaceListing d ls).
Proof.
  intros Hd Hls. unfold replaceListing. apply Forall_map.
  eapply Forall_impl; [| exact Hls]. cbn. intros l Hl.
  now destruct (Listing._id l =? Listing._id d)%N.
Qed.

Lemma sound_remove (oid : ObjectId) (ls : list Listing.t) :
  Forall soundListing ls -> Forall soundListing (removeListing oid ls).
Proof.
  intros H. unfold removeListing. rewrite Forall_forall in *.
  intros l Hl. apply filter_In in Hl. now apply H.
Qed.

Lemma sound_Listing_create (title description : string) (price : Q)
    (location : string) (latitude longitude : option Q) (type : string)
    (images : list string) (ownerId : ObjectId) (isApproved : bool) :
  (0 < price)%Q ->
  preserves listingsSound
    (Listing_create title description price location latitude longitude
                    type images ownerId isApproved).
Proof.
  intros Hprice w H. unfold worldAfter, Listing_create. cbv zeta.
  destruct (validateTitle (trim title)) eqn:E1; cbn [app]; [| exact H].
  destruct (validateDescription (trim description)) eqn:E2; cbn [app];
    [| exact H].
  destruct (validatePrice price) eqn:E3; cbn [app]; [| exact H].
  destruct (validateLocation (trim location)) eqn:E4; cbn [app]; [| exact H].
  destruct (validateLatitude latitude) eqn:E5; cbn [app]; [| exact H].
  destruct (validateLongitude longitude) eqn:E6; cbn [app]; [| exact H].
  destruct (ListingType.ofString type) as [ty |]; cbn [app]; [| exact H].
  destruct (validateImages images) eqn:E7; [| exact H].
  run_monad. cbn. unfold listingsSound. cbn.
  apply Forall_app. split; [exact H |].
  constructor; [| constructor]. split; [| exact Hprice].
  unfold validateListing. cbn. now rewrite E1, E2, E3, E4, E5, E6, E7.
Qed.

Lemma sound_createListing (user : User.t) (body : ListingBody.t) :
  preserves listingsSound (createListing user body).
Proof.
  unfold createListing. cbv zeta.
  apply preserves_tryCatch.
  - match goal with |- preserves _ (if ?c then _ else _) => destruct c end;
      [apply preserves_ret |].
    destruct (Qle_bool (valNum (ListingBody.price body)) 0) eqn:Eprice;
      [apply preserves_ret |].
    match goal with |- preserves _ (if ?c then _ else _) => destruct c end;
      [apply preserves_ret |].
    apply preserves_bind; [| intros; apply preserves_ret].
    now apply sound_Listing_create, not_le_positive.
  - intros e. repeat inv_step fail.
Qed.

Lemma assignFields_price (body : ListingBody.t) (l : Listing.t) :
  Listing.price (assignFields body l)
  = if truthyNum (ListingBody.price body)
    then valNum (ListingBody.price body) else Listing.price l.
Proof.
  unfold assignFields. cbv zeta.
  destruct (truthyStr (ListingBody.title body)),
    (truthyStr (ListingBody.description body)),
    (truthyNum (ListingBody.price body)),
    (truthyStr (ListingBody.location body)),
    (ListingBody.latitude body), (ListingBody.longitude body),
    (truthyStr (ListingBody.type body)),
    (ListingType.ofString (valStr (ListingBody.type body))),
    (ListingBody.images body); reflexivity.
Qed.

Lemma sound_updateListing (host : Host) (user : User.t) (id : string)
    (body : ListingBody.t) :
  preserves listingsSound (updateListing host user id body).
Proof.
  intros w H. unfold worldAfter, updateListing, tryCatch. cbv zeta.
  destruct (castObjectId host id) as [oid |] eqn:Hcast.
  2:{ now rewrite (bind_throw _ _ _ _ _
                     (Listing_findById_malformed host id w Hcast)). }
  rewrite (bind_ok _ _ _ _ _ (Listing_findById_ok host id oid w Hcast)).
  destruct (findListing oid (listings w)) as [l |] eqn:Hfind; [| exact H].
  destruct (negb (Listing.ownerId l =? User._id user)%N); [exact H |].
  destruct (match ListingBody.price body with
            | Some p => Qle_bool p 0
            | None => false
            end) eqn:Eprice; [exact H |].
  match goal with |- context [if ?c then ret _ else _] => destruct c end;
    [exact H |].
  destruct (Listing_save_cases l (assignFields body l)
              (addEvent (DbRead "listings") w))
    as [(m & ms & Hv & Hrun) | [(Hv & Hs & Hrun) | (Hv & Hs & Hrun)]].
  - now rewrite (bind_throw _ _ _ _ _ Hrun).
  - now rewrite (bind_ok _ _ _ _ _ Hrun).
  - rewrite (bind_ok _ _ _ _ _ Hrun).
    unfold listingsSound. cbn -[replaceListing soundListing].
    apply sound_replace; [| exact H].
    split; [unfold validateListing in *; exact Hv |].
    cbn. rewrite assignFields_price.
    unfold findListing in Hfind. apply find_some in Hfind as [Hin _].
    unfold listingsSound in H. rewrite Forall_forall in H.
    destruct (ListingBody.price body) as [p |].
    + apply not_le_positive in Eprice.
      now rewrite (positive_truthy p Eprice).
    + now apply H.
Qed.

Lemma sound_findByIdAndDelete (host : Host) (id : string) :
  preserves listingsSound (Listing_findByIdAndDelete host id).
Proof.
  intros w H. unfold worldAfter, Listing_findByIdAndDelete. run_monad.
  destruct (castObjectId host id); cbn; [| exact H].
  now apply sound_remove.
Qed.

Lemma sound_findByIdAndUpdate (host : Host) (id : string) (b : bool) :
  preserves listingsSound (Listing_findByIdAndUpdate host id b).
Proof.
  intros w H. unfold worldAfter.
  destruct (castObjectId host id) as [oid |] eqn:Hcast.
  2:{ unfold Listing_findByIdAndUpdate, castId. rewrite Hcast. exact H. }
  rewrite (Listing_findByIdAndUpdate_run host id oid b w Hcast).
  destruct (findListing oid (listings w)) as [l |] eqn:Hfind; [| exact H].
  unfold listingsSound. cbn -[replaceListing soundListing].
  apply sound_replace; [| exact H].
  unfold findListing in Hfind. apply find_some in Hfind as [Hin _].
  unfold listingsSound in H. rewrite Forall_forall in H. exact (H l Hin).
Qed.

Ltac sound_ops :=
  idtac;
  lazymatch goal with
  | |- preserves _ (createListing _ _) => apply sound_createListing
  | |- preserves _ (updateListing _ _ _ _) => apply sound_updateListing
  | |- preserves _ (Listing_findByIdAndDelete _ _) =>
      apply sound_findByIdAndDelete
  | |- preserves _ (Listing_findByIdAndUpdate _ _ _) =>
      apply sound_findByIdAndUpdate
  end.

Lemma sound_route (host : Host) (r : Request) :
  preserves listingsSound (route host r).
Proof.
  destruct r; unfold route, gated, protected; repeat inv_step sound_ops.
Qed.

(** X16. Every stored listing satisfies the listing schema and has a
    price above zero, in every world the API can reach: from listings
    that do, no sequence of requests stores a listing whose title,
    description, location, coordinates or image URLs the schema
    refuses, or whose price is zero or less. *)
Theorem listings_stay_sound (host : Host) (rs : list Request) (w : World) :
  listingsSound w -> listingsSound (serve host rs w).
Proof. apply preserves_serve, sound_route. Qed.

Lemma listings_stay_sound_witness :
  listingsSound
    (serve Sample.host
       [POST_listings SampleRequests.ownerToken Sample.newRoom;
        PUT_listings_id SampleRequests.ownerToken Sample.id16 Sample.priceZero;
        PUT_listings_id SampleRequests.ownerToken Sample.id16 Sample.retitle]
       Sample.world).
Proof.
  apply listings_stay_sound. unfold listingsSound. cbn.
  repeat constructor.
Defined.

(** *** A listing keeps its owner *)

Lemma map_id_replaceListing (d : Listing.t) (ls : list Listing.t) :
  map Listing._id (replaceListing d ls) = map Listing._id ls.
Proof.
  unfold replaceListing. rewrite map_map. apply map_ext. intros l.
  destruct (N.eqb_spec (Listing._id l) (Listing._id d)); congruence.
Qed.

Lemma removeListing_keeps_ids_distinct (oid : ObjectId) (ls : list Listing.t) :
  NoDup (map Listing._id ls) ->
  NoDup (map Listing._id (removeListing oid ls)).
Proof.
  unfold removeListing. intros Hnd.
  induction ls as [| x ls IH]; cbn; [constructor |].
  inversion Hnd as [| ? ? Hfresh Hrest]; subst.
  destruct (negb (Listing._id x =? oid)%N); cbn; [| now apply IH].
  constructor; [| now apply IH].
  intros Hin. apply Hfresh. apply in_map_iff in Hin as (y & Hy & Hin).
  apply filter_In in Hin as [Hin _]. rewrite <- Hy. now apply in_map.
Qed.

Lemma preserves_serve_where (host : Host) (Inv : World -> Prop)
    (allowed : Request -> bool) :
  (forall r, allowed r = true -> preserves Inv (route host r)) ->
  forall rs w, forallb allowed rs = true -> Inv w -> Inv (serve host rs w).
Proof.
  intros Hr rs. unfold serve.
  induction rs as [| r rs IH]; intros w Hrs H; cbn; [exact H |].
  cbn in Hrs. apply andb_true_iff in Hrs as [Hallowed Hrs].
  apply IH; [exact Hrs |]. now apply Hr.
Qed.

Section KeepsListings.
Context {T : Type} (proj : Listing.t -> T).
Variable host : Host.
Variable w0 : World.
Hypothesis Hold :
  Forall (fun l => (Listing._id l < nextId w0)%N) (listings w0).
Hypothesis proj_touch : forall t l, proj (Listing.touch t l) = proj l.
Hypothesis proj_assign : forall body l, proj (assignFields body l) = proj l.

(** The world changes, the listings and the id supply do not go back. *)
Lemma keepsListings_frame (w w' : World) :
  listings w' = listings w -> (nextId w <= nextId w')%N ->
  keepsListings proj w0 w -> keepsListings proj w0 w'.
Proof.
  unfold keepsListings, listingsWellKeyed.
  intros -> Hle (Hnext & (Hlt & Hnd) & Hkeep).
  repeat split; try assumption; try lia.
  eapply Forall_impl; [| exact Hlt]. cbn. intros l Hl. lia.
Qed.

Lemma keepsListings_replaced (w w' : World) (l doc : Listing.t) :
  listings w' = replaceListing doc (listings w) ->
  nextId w' = nextId w ->
  In l (listings w) ->
  Listing._id doc = Listing._id l ->
  proj doc = proj l ->
  keepsListings proj w0 w -> keepsListings proj w0 w'.
Proof.
  unfold keepsListings, listingsWellKeyed.
  intros -> -> Hin Hid Hproj (Hnext & (Hlt & Hnd) & Hkeep).
  rewrite map_id_replaceListing.
  split; [exact Hnext |]. split; [split; [| exact Hnd] |].
  - rewrite Forall_forall in *. intros x Hx.
    apply In_replaceListing in Hx as [-> | [Hx _]]; [| now apply Hlt].
    rewrite Hid. now apply Hlt.
  - intros l0 x Hl0 Hx Hsame.
    apply In_replaceListing in Hx as [-> | [Hx _]]; [| now apply Hkeep].
    rewrite Hproj. apply Hkeep; [exact Hl0 | exact Hin | congruence].
Qed.

Lemma keepsListings_removed (w w' : World) (oid : ObjectId) :
  listings w' = removeListing oid (listings w) ->
  nextId w' = nextId w ->
  keepsListings proj w0 w -> keepsListings proj w0 w'.
Proof.
  unfold keepsListings, listingsWellKeyed, removeListing.
  intros -> -> (Hnext & (Hlt & Hnd) & Hkeep).
  split; [exact Hnext |]. split; [split |].
  - rewrite Forall_forall in *. intros x Hx.
    apply filter_In in Hx as [Hx _]. now apply Hlt.
  - now apply (removeListing_keeps_ids_distinct oid).
  - intros l0 x Hl0 Hx. apply filter_In in Hx as [Hx _]. now apply Hkeep.
Qed.

Lemma keepsListings_added (w w' : World) (doc : Listing.t) :
  listings w' = listings w ++ [doc] ->
  nextId w' = N.succ (nextId w) ->
  Listing._id doc = nextId w ->
  keepsListings proj w0 w -> keepsListings proj w0 w'.
Proof.
  unfold keepsListings, listingsWellKeyed.
  intros -> -> Hid (Hnext & (Hlt & Hnd) & Hkeep).
  rewrite map_app. cbn [map].
  split; [lia |]. split; [split |].
  - apply Forall_app. split.
    + eapply Forall_impl; [| exact Hlt]. cbn. intros l Hl. lia.
    + constructor; [lia | constructor].
  - apply NoDup_snoc; [exact Hnd |].
    rewrite Hid. intros Hin. apply in_map_iff in Hin as (x & Hx & Hin).
    rewrite Forall_forall in Hlt. specialize (Hlt x Hin). lia.
  - intros l0 x Hl0 Hx Hsame. apply in_app_or in Hx as [Hx | [<- | []]].
    + now apply Hkeep.
    + rewrite Forall_forall in Hold. specialize (Hold l0 Hl0). lia.
Qed.

Lemma keeps_newObjectId : preserves (keepsListings proj w0) newObjectId.
Proof.
  intros w H.
  apply (keepsListings_frame w); [reflexivity | cbn; lia | exact H].
Qed.

Lemma keeps_Listing_create title description price location latitude
    longitude type images ownerId isApproved :
  preserves (keepsListings proj w0)
    (Listing_create title description price location latitude longitude
                    type images ownerId isApproved).
Proof.
  intros w H. unfold worldAfter, Listing_create.
  match goal with
  | |- context [match ?errs with nil => _ | cons _ _ => _ end] =>
      generalize errs
  end.
  intros errors. destruct errors as [| m ms]; [| exact H].
  destruct (ListingType.ofString type) as [ty |]; [| exact H].
  run_monad. cbn.
  eapply (keepsListings_added w); [| | | exact H]; reflexivity.
Qed.

Lemma keeps_updateListing user id body :
  preserves (keepsListings proj w0) (updateListing host user id body).
Proof.
  intros w H. unfold worldAfter, updateListing, tryCatch. cbv zeta.
  destruct (castObjectId host id) as [oid |] eqn:Hcast.
  2:{ now rewrite (bind_throw _ _ _ _ _
                     (Listing_findById_malformed host id w Hcast)). }
  rewrite (bind_ok _ _ _ _ _ (Listing_findById_ok host id oid w Hcast)).
  destruct (findListing oid (listings w)) as [l |] eqn:Hfind; [| exact H].
  destruct (negb (Listing.ownerId l =? User._id user)%N); [exact H |].
  match goal with |- context [if ?c then ret _ else _] => destruct c end;
    [exact H |].
  match goal with |- context [if ?c then ret _ else _] => destruct c end;
    [exact H |].
  destruct (Listing_save_cases l (assignFields body l)
              (addEvent (DbRead "listings") w))
    as [(m & ms & Hv & Hrun) | [(Hv & Hs & Hrun) | (Hv & Hs & Hrun)]].
  - now rewrite (bind_throw _ _ _ _ _ Hrun).
  - now rewrite (bind_ok _ _ _ _ _ Hrun).
  - rewrite (bind_ok _ _ _ _ _ Hrun). cbn [ret snd].
    unfold findListing in Hfind. apply find_some in Hfind as [Hin _].
    destruct (assignFields_frame body l) as (Hid & _).
    apply (keepsListings_replaced w _ l
             (Listing.touch (now w) (assignFields body l)));
      try assumption; try reflexivity.
    now rewrite proj_touch, proj_assign.
Qed.

Lemma keeps_findByIdAndDelete id :
  preserves (keepsListings proj w0) (Listing_findByIdAndDelete host id).
Proof.
  intros w H. unfold worldAfter, Listing_findByIdAndDelete. run_monad.
  destruct (castObjectId host id) as [oid |]; cbn -[removeListing];
    [| exact H].
  now apply (keepsListings_removed w _ oid).
Qed.

Lemma keeps_findByIdAndUpdate id b :
  (forall l, proj (Listing.setApproved b l) = proj l) ->
  preserves (keepsListings proj w0) (Listing_findByIdAndUpdate host id b).
Proof.
  intros proj_approve w H. unfold worldAfter.
  destruct (castObjectId host id) as [oid |] eqn:Hcast.
  2:{ unfold Listing_findByIdAndUpdate, castId. rewrite Hcast. exact H. }
  rewrite (Listing_findByIdAndUpdate_run host id oid b w Hcast).
  destruct (findListing oid (listings w)) as [l |] eqn:Hfind; [| exact H].
  cbn [snd]. unfold findListing in Hfind.
  apply find_some in Hfind as [Hin _].
  apply (keepsListings_replaced w _ l
           (Listing.touch (now w) (Listing.setApproved b l)));
    try assumption; try reflexivity.
  now rewrite proj_touch, proj_approve.
Qed.

End KeepsListings.

Ltac keeps_ops :=
  idtac;
  lazymatch goal with
  | |- preserves _ newObjectId => apply keeps_newObjectId
  | |- preserves _ (Listing_create _ _ _ _ _ _ _ _ _ _) =>
      apply keeps_Listing_create; assumption
  | |- preserves _ (updateListing _ _ _ _) =>
      apply keeps_updateListing; assumption
  | |- preserves _ (Listing_findByIdAndDelete _ _) =>
      apply keeps_findByIdAndDelete; assumption
  | |- preserves _ (Listing_findByIdAndUpdate _ _ _) =>
      apply keeps_findByIdAndUpdate;
      first [assumption | intros; reflexivity]
  end.

Lemma origin_assignFields (body : ListingBody.t) (l : Listing.t) :
  origin (assignFields body l) = origin l.
Proof.
  destruct (assignFields_frame body l) as (_ & Hown & _ & Hat & _).
  unfold origin. now rewrite Hown, Hat.
Qed.

Lemma approval_assignFields (body : ListingBody.t) (l : Listing.t) :
  Listing.isApproved (assignFields body l) = Listing.isApproved l.
Proof. apply assignFields_frame. Qed.

Lemma origin_route (host : Host) (w0 : World) (r : Request) :
  Forall (fun l => (Listing._id l < nextId w0)%N) (listings w0) ->
  preserves (keepsListings origin w0) (route host r).
Proof.
  intros Hold.
  pose proof (fun (t : Z) (l : Listing.t) =>
                eq_refl : origin (Listing.touch t l) = origin l) as Htouch.
  pose proof origin_assignFields as Hassign.
  destruct r; unfold route, gated, protected; repeat inv_step keeps_ops.
Qed.

Lemma approval_route (host : Host) (w0 : World) (r : Request) :
  Forall (fun l => (Listing._id l < nextId w0)%N) (listings w0) ->
  isModeration r = false ->
  preserves (keepsListings Listing.isApproved w0) (route host r).
Proof.
  intros Hold Hr.
  pose proof (fun (t : Z) (l : Listing.t) =>
                eq_refl : Listing.isApproved (Listing.touch t l)
                          = Listing.isApproved l) as Htouch.
  pose proof approval_assignFields as Hassign.
  destruct r; try discriminate Hr; unfold route, gated, protected;
    repeat inv_step keeps_ops.
Qed.

Lemma keepsListings_start {T} (proj : Listing.t -> T) (w : World) :
  listingsWellKeyed w -> keepsListings proj w w.
Proof.
  intros Hkeyed. split; [lia |]. split; [exact Hkeyed |].
  intros l0 l Hl0 Hl Hid.
  assert (l = l0) as ->; [| reflexivity].
  apply (NoDup_map_In_eq Listing._id (listings w));
    [exact (proj2 Hkeyed) | | |]; assumption.
Qed.

(** X17. No route transfers a listing or changes when it was created.
    From listings with distinct ids below the id supply, after any
    sequence of requests the listings still have distinct ids, and
    every listing that is still stored under the id of a listing of the
    start has the owner and the time of creation of that listing. *)
Theorem listing_owner_is_permanent
    (host : Host) (rs : list Request) (w : World) :
  listingsWellKeyed w ->
  listingsWellKeyed (serve host rs w)
  /\ forall l l',
       In l (listings w) -> In l' (listings (serve host rs w)) ->
       Listing._id l' = Listing._id l ->
       Listing.ownerId l' = Listing.ownerId l
       /\ Listing.createdAt l' = Listing.createdAt l.
Proof.
  intros Hkeyed.
  assert (keepsListings origin w (serve host rs w)) as (_ & Hk & Hkeep).
  { apply preserves_serve; [| now apply keepsListings_start].
    intros r. apply origin_route. exact (proj1 Hkeyed). }
  split; [exact Hk |].
  intros l l' Hl Hl' Hid. specialize (Hkeep l l' Hl Hl' Hid).
  unfold origin in Hkeep. now injection Hkeep.
Qed.

Lemma listing_owner_is_permanent_witness :
  listingsWellKeyed
    (serve Sample.host
       [PUT_listings_id SampleRequests.ownerToken Sample.id16 Sample.retitle;
        PATCH_listings_id_status SampleRequests.adminToken Sample.id16
                                 (JBool false);
        POST_listings SampleRequests.ownerToken Sample.newRoom]
       Sample.world)
  /\ forall l l',
       In l (listings Sample.world) ->
       In l' (listings
                (serve Sample.host
                   [PUT_listings_id SampleRequests.ownerToken Sample.id16
                                    Sample.retitle;
                    PATCH_listings_id_status SampleRequests.adminToken
                                             Sample.id16 (JBool false);
                    POST_listings SampleRequests.ownerToken Sample.newRoom]
                   Sample.world)) ->
       Listing._id l' = Listing._id l ->
       Listing.ownerId l' = Listing.ownerId l
       /\ Listing.createdAt l' = Listing.createdAt l.
Proof.
  apply listing_owner_is_permanent. unfold listingsWellKeyed. cbn.
  split; repeat constructor; cbn; try lia; intuition discriminate.
Defined.

(** X18. Approval changes on the moderation route only.  Over any
    sequence of requests none of which is PATCH /listings/:id/status,
    every listing still stored under the id of a listing of the start
    has the approval that listing had: creating, updating and deleting
    listings, bookings and accounts never approve or reject. *)
Theorem approval_changes_by_moderation_only
    (host : Host) (rs : list Request) (w : World) :
  listingsWellKeyed w ->
  forallb (fun r => negb (isModeration r)) rs = true ->
  forall l l',
    In l (listings w) -> In l' (listings (serve host rs w)) ->
    Listing._id l' = Listing._id l ->
    Listing.isApproved l' = Listing.isApproved l.
Proof.
  intros Hkeyed Hrs.
  assert (keepsListings Listing.isApproved w (serve host rs w))
    as (_ & _ & Hkeep).
  { apply (preserves_serve_where host _ (fun r => negb (isModeration r)));
      [| exact Hrs | now apply keepsListings_start].
    intros r Hr. apply approval_route; [exact (proj1 Hkeyed) |].
    now apply negb_true_iff. }
  exact Hkeep.
Qed.

Lemma approval_changes_by_moderation_only_witness :
  Listing.isApproved
    (hd Sample.flat
        (listings
           (serve Sample.host
              [PUT_listings_id SampleRequests.ownerToken Sample.id16
                               Sample.retitle;
               SampleRequests.deleteFlat;
               POST_listings SampleRequests.ownerToken Sample.newRoom]
              Sample.world)))
  = Listing.isApproved Sample.room.
Proof.
  apply (approval_changes_by_moderation_only Sample.host
           [PUT_listings_id SampleRequests.ownerToken Sample.id16
                            Sample.retitle;
            SampleRequests.deleteFlat;
            POST_listings SampleRequests.ownerToken Sample.newRoom]
           Sample.world).
  - unfold listingsWellKeyed. cbn.
    split; repeat constructor; cbn; try lia; intuition discriminate.
  - reflexivity.
  - now left.
  - vm_compute. now left.
  - vm_compute. reflexivity.
Defined.

(** ** Who may change a listing, and what a deletion leaves *)

(** X19. Only the owner of a listing updates or deletes it.  A caller
    whose id is not the listing's [ownerId] is answered 403 by
    [updateListing] and by [deleteListing], whatever the role (an
    administrator too) and whatever the body; the listing is read and
    nothing is written. *)
Theorem only_the_owner_writes
    (host : Host) (user : User.t) (id : string) (oid : ObjectId)
    (l : Listing.t) (body : ListingBody.t) (w : World) :
  castObjectId host id = Some oid ->
  findListing oid (listings w) = Some l ->
  Listing.ownerId l <> User._id user ->
  updateListing host user id body w
  = (Ok (failure 403 "You are not authorized to update this listing"),
     addEvent (DbRead "listings") w)
  /\ deleteListing host user id w
     = (Ok (failure 403 "You are not authorized to delete this listing"),
        addEvent (DbRead "listings") w).
Proof.
  intros Hcast Hfind Hown.
  apply N.eqb_neq in Hown.
  unfold updateListing, deleteListing, tryCatch. cbv zeta.
  rewrite !(bind_ok _ _ _ _ _ (Listing_findById_ok host id oid w Hcast)).
  now rewrite Hfind, Hown.
Qed.

Lemma only_the_owner_writes_witness :
  updateListing Sample.host Sample.admin Sample.id16 Sample.retitle
                Sample.world
  = (Ok (failure 403 "You are not authorized to update this listing"),
     addEvent (DbRead "listings") Sample.world)
  /\ deleteListing Sample.host Sample.admin Sample.id16 Sample.world
     = (Ok (failure 403 "You are not authorized to delete this listing"),
        addEvent (DbRead "listings") Sample.world).
Proof.
  apply (only_the_owner_writes Sample.host Sample.admin Sample.id16 16%N
           Sample.room Sample.retitle Sample.world);
    [reflexivity | reflexivity | discriminate].
Defined.

Lemma worldAfter_bind_ret {A B} (m : M A) (f : A -> B) (w : World) :
  worldAfter (bind m (fun x => ret (f x))) w = worldAfter m w.
Proof.
  unfold worldAfter, bind, ret. now destruct (m w) as [[a | e] w1].
Qed.

(** What the deletions of the images leave in the store: an image
    stays when no deletion of it was accepted. *)
Lemma mapM_deleteImage_cloud (host : Host) (urls : list string) (w : World) :
  forall p,
    In p (cloud (worldAfter (mapM (deleteImage host) urls) w))
    <-> In p (cloud w)
        /\ forall url, In url urls -> getPublicIdFromUrl url = Some p ->
                       destroyRejects host p = true.
Proof.
  revert w. induction urls as [| url urls IH]; intros w p.
  - cbn. split; [intros H; split; [exact H | intros ? []] | tauto].
  - assert (exists q, getPublicIdFromUrl url = Some q) as [q Hq]
      by (eexists; reflexivity).
    assert (forall (k : Settled unit -> M (list (Settled unit))) r w1,
               deleteImage host url w = (Ok r, w1) ->
               worldAfter (bind (deleteImage host url) k) w
               = worldAfter (k r) w1) as Hstep.
    { intros k r w1 H. unfold worldAfter. now rewrite (bind_ok _ _ _ _ _ H). }
    cbn [mapM].
    destruct (destroyRejects host q) eqn:Hrej.
    + erewrite Hstep.
      2:{ unfold deleteImage. rewrite Hq. unfold cloudinary_destroy.
          run_monad. cbn. rewrite Hrej. reflexivity. }
      rewrite worldAfter_bind_ret, IH. cbn [cloud addEvent].
      split; intros [Hin Hall]; (split; [exact Hin |]).
      * intros url0 [<- | Hurl0] Hp; [congruence | now apply (Hall url0)].
      * intros url0 Hurl0. apply (Hall url0). now right.
    + erewrite Hstep.
      2:{ unfold deleteImage. rewrite Hq. unfold cloudinary_destroy.
          run_monad. cbn. rewrite Hrej. reflexivity. }
      rewrite worldAfter_bind_ret, IH. cbn [cloud addEvent setCloud].
      rewrite filter_In, negb_true_iff, String.eqb_neq.
      split.
      * intros [[Hin Hne] Hall]. split; [exact Hin |].
        intros url0 [<- | Hurl0] Hp; [congruence | now apply (Hall url0)].
      * intros [Hin Hall]. split; [split; [exact Hin |] |].
        -- intros ->. specialize (Hall url (or_introl eq_refl) Hq).
           congruence.
        -- intros url0 Hurl0. apply (Hall url0). now right.
Qed.

(** X20. What [deleteListing] by the owner leaves of the images.  All
    the deletions are issued before the record is touched, and none is
    undone: afterwards an image is in the store exactly when it was
    there before and the store refused to delete it or it is not an
    image of the listing, whether the request ends in 200 or, one
    deletion being refused, in 500 with the listing kept. *)
Theorem deleteListing_destroys_images
    (host : Host) (user : User.t) (id : string) (oid : ObjectId)
    (l : Listing.t) (w : World) :
  castObjectId host id = Some oid ->
  findListing oid (listings w) = Some l ->
  Listing.ownerId l = User._id user ->
  forall p,
    In p (cloud (worldAfter (deleteListing host user id) w))
    <-> In p (cloud w)
        /\ forall url, In url (Listing.images l) ->
                       getPublicIdFromUrl url = Some p ->
                       destroyRejects host p = true.
Proof.
  intros Hcast Hfind Hown p.
  set (w0 := addEvent (DbRead "listings") w).
  assert (cloud (worldAfter (deleteListing host user id) w)
          = cloud (worldAfter (mapM (deleteImage host) (Listing.images l)) w0))
    as ->.
  { unfold worldAfter at 1. unfold deleteListing, tryCatch.
    rewrite (bind_ok _ _ _ _ _ (Listing_findById_ok host id oid w Hcast)).
    fold w0. rewrite Hfind, Hown, N.eqb_refl. cbn [negb].
    destruct (mapM_deleteImage host (Listing.images l) w0)
      as (ps & w1 & Hrun & _).
    unfold worldAfter. rewrite Hrun. cbn [snd].
    destruct (0 <? List.length (Listing.images l))%nat eqn:Elen.
    - unfold bind. rewrite Hrun. unfold promiseAll.
      destruct (firstRejection ps) as [e |].
      + unfold throw, emit, modify. cbn.
        now destruct (err_name e =? "CastError").
      + unfold ret at 1.
        now rewrite (Listing_findByIdAndDelete_ok host id oid w1 Hcast).
    - destruct (Listing.images l); [| discriminate].
      cbn in Hrun. injection Hrun as _ <-.
      unfold bind, ret at 1.
      now rewrite (Listing_findByIdAndDelete_ok host id oid w0 Hcast). }
  rewrite mapM_deleteImage_cloud. reflexivity.
Qed.

Lemma deleteListing_destroys_images_witness :
  In "gharsathi/listings/broken"
     (cloud (worldAfter (deleteListing Sample.host Sample.owner Sample.id17)
                        Sample.world))
  <-> In "gharsathi/listings/broken" (cloud Sample.world)
      /\ forall url, In url (Listing.images Sample.flat) ->
                     getPublicIdFromUrl url = Some "gharsathi/listings/broken" ->
                     destroyRejects Sample.host "gharsathi/listings/broken"
                     = true.
Proof.
  apply (deleteListing_destroys_images Sample.host Sample.owner Sample.id17
           17%N Sample.flat Sample.world); reflexivity.
Defined.

(** ** The bookings an owner sees *)

Lemma mapM_populateBooking_run (bs : list Booking.t) (w : World) :
  exists w',
    mapM populateBooking bs w = (Ok (map (bookingViewOf w) bs), w')
    /\ sameStore w w'.
Proof.
  revert w. induction bs as [| b bs IH]; intros w.
  - exists w. split; [reflexivity | apply sameStore_refl].
  - cbn [mapM map].
    destruct (IH (addEvent (DbRead "users") (addEvent (DbRead "listings") w)))
      as (w' & Hrun & Hsame).
    exists w'. split; [| exact Hsame].
    assert (populateBooking b w
            = (Ok (bookingViewOf w b),
               addEvent (DbRead "users") (addEvent (DbRead "listings") w)))
      as Hp by reflexivity.
    rewrite (bind_ok _ _ _ _ _ Hp), (bind_ok _ _ _ _ _ Hrun).
    reflexivity.
Qed.

Lemma getOwnerBookings_run (user : User.t) (w : World) :
  answer (getOwnerBookings user) w
  = let bs := sortNewest Booking.createdAt
                (filter (fun b => N.eqb (Booking.ownerId b) (User._id user))
                        (bookings w)) in
    Ok (mkResponse 200 true None (Some (List.length bs))
                   (ManyBookings (map (bookingViewOf w) bs))).
Proof.
  unfold answer, getOwnerBookings, tryCatch.
  erewrite bind_ok; [| reflexivity].
  destruct (mapM_populateBooking_run
              (sortNewest Booking.createdAt
                 (filter (fun b => N.eqb (Booking.ownerId b) (User._id user))
                         (bookings w)))
              (addEvent (DbRead "bookings") w)) as (w' & Hrun & _).
  rewrite (bind_ok _ _ _ _ _ Hrun). cbn [ret fst].
  now rewrite length_map.
Qed.

(** X21. [getOwnerBookings] always answers 200 with exactly the stored
    bookings whose [ownerId] is the caller, each once, newest first,
    each with the summary of its listing and of its tenant as stored
    now (none when the listing or the tenant is not stored), and their
    number as the count; it changes nothing stored. *)
Theorem getOwnerBookings_exactly_own (user : User.t) (w : World) :
  exists bs,
    answer (getOwnerBookings user) w
    = Ok (mkResponse 200 true None (Some (List.length bs))
                     (ManyBookings (map (bookingViewOf w) bs)))
    /\ Permutation bs
         (filter (fun b => N.eqb (Booking.ownerId b) (User._id user))
                 (bookings w))
    /\ (forall b, In b bs <->
                  In b (bookings w) /\ Booking.ownerId b = User._id user)
    /\ StronglySorted
         (fun a b => (Booking.createdAt b <= Booking.createdAt a)%Z) bs
    /\ sameStore w (worldAfter (getOwnerBookings user) w).
Proof.
  eexists. split; [apply getOwnerBookings_run |].
  split; [| split; [| split]].
  - apply sortNewest_perm.
  - intros b. rewrite sortNewest_In, filter_In, N.eqb_eq. reflexivity.
  - apply (sortNewest_sorted Booking.createdAt).
  - read_only.
Qed.

Lemma deleteListing_200 (host : Host) (user : User.t) (id : string)
    (oid : ObjectId) (w : World) :
  castObjectId host id = Some oid ->
  answer (deleteListing host user id) w
  = Ok (mkResponse 200 true (Some "Listing deleted successfully") None NoData) ->
  listings (worldAfter (deleteListing host user id) w)
  = removeListing oid (listings w).
Proof.
  intros Hcast. unfold answer, worldAfter, deleteListing, tryCatch.
  rewrite (bind_ok _ _ _ _ _ (Listing_findById_ok host id oid w Hcast)).
  destruct (findListing oid (listings w)) as [l |]; [| discriminate].
  destruct (negb (Listing.ownerId l =? User._id user)%N); [discriminate |].
  destruct (delete_images_stage host (Listing.images l)
              (addEvent (DbRead "listings") w))
    as (r & w1 & Hstage & Hl1 & [-> | ->] & _).
  - rewrite (bind_ok _ _ _ _ _ Hstage).
    rewrite (bind_ok _ _ _ _ _
               (Listing_findByIdAndDelete_ok host id oid w1 Hcast)).
    intros _. cbn. now rewrite Hl1.
  - rewrite (bind_throw _ _ _ _ _ Hstage). discriminate.
Qed.

(** X22. Bookings outlive their listing.  [deleteListing] removes no
    booking; after a deletion answered 200, the owner still gets every
    booking of the deleted listing from [getOwnerBookings], now without
    the summary of the listing. *)
Theorem bookings_outlive_their_listing
    (host : Host) (user : User.t) (id : string) (oid : ObjectId) (w : World) :
  castObjectId host id = Some oid ->
  answer (deleteListing host user id) w
  = Ok (mkResponse 200 true (Some "Listing deleted successfully") None NoData) ->
  let w' := worldAfter (deleteListing host user id) w in
  bookings w' = bookings w
  /\ exists vs,
       answer (getOwnerBookings user) w'
       = Ok (mkResponse 200 true None (Some (List.length vs))
                        (ManyBookings vs))
       /\ (forall b, In b (bookings w) ->
                     Booking.ownerId b = User._id user ->
                     Booking.listingId b = oid ->
                     exists v, In v vs /\ bv_booking v = b)
       /\ (forall v, In v vs ->
                     Booking.listingId (bv_booking v) = oid ->
                     bv_listing v = None).
Proof.
  intros Hcast H200 w'.
  assert (bookings w' = bookings w) as Hb.
  { apply (proj1 (proj2 (proj2 (proj2 (proj2
             (bookings_frame_listing_ops host)))))). }
  assert (findListing oid (listings w') = None) as Hgone.
  { unfold w'. rewrite (deleteListing_200 host user id oid w Hcast H200).
    apply findListing_removed. }
  split; [exact Hb |].
  exists (map (bookingViewOf w')
            (sortNewest Booking.createdAt
               (filter (fun b => N.eqb (Booking.ownerId b) (User._id user))
                       (bookings w')))).
  rewrite length_map. split; [apply getOwnerBookings_run |]. split.
  - intros b Hin Hown Hlisting. exists (bookingViewOf w' b).
    split; [| reflexivity].
    apply in_map, sortNewest_In, filter_In. rewrite Hb.
    split; [exact Hin | now apply N.eqb_eq].
  - intros v Hv Hlisting. apply in_map_iff in Hv as (b & <- & _).
    cbn in *. now rewrite Hlisting, Hgone.
Qed.

Lemma bookings_outlive_their_listing_witness :
  bookings (worldAfter (deleteListing Sample.host Sample.owner Sample.id16)
                       Sample.world)
  = bookings Sample.world
  /\ exists vs,
       answer (getOwnerBookings Sample.owner)
              (worldAfter (deleteListing Sample.host Sample.owner Sample.id16)
                          Sample.world)
       = Ok (mkResponse 200 true None (Some (List.length vs))
                        (ManyBookings vs))
       /\ (forall b, In b (bookings Sample.world) ->
                     Booking.ownerId b = User._id Sample.owner ->
                     Booking.listingId b = 16%N ->
                     exists v, In v vs /\ bv_booking v = b)
       /\ (forall v, In v vs ->
                     Booking.listingId (bv_booking v) = 16%N ->
                     bv_listing v = None).
Proof.
  apply (bookings_outlive_their_listing Sample.host Sample.owner Sample.id16
           16%N Sample.world); reflexivity.
Defined.

(** ** Refusals of [createListing] *)

(** X23. [createListing] refuses with 400 and stores nothing: when the
    title, the description, the price, the location or the type is
    missing or falsy (a price of 0 is such a price); when the price is
    below zero; when the type is not one of the four of the schema.
    These are answered before the store is reached.  A body that passes
    the three tests is answered 201, or 400 with the messages of the
    schema joined by commas and nothing stored; never 500. *)
Theorem createListing_refusals
    (user : User.t) (body : ListingBody.t) (w : World) :
  let present :=
    truthyStr (ListingBody.title body)
    && truthyStr (ListingBody.description body)
    && truthyNum (ListingBody.price body)
    && truthyStr (ListingBody.location body)
    && truthyStr (ListingBody.type body) in
  let positive := negb (Qle_bool (valNum (ListingBody.price body)) 0) in
  let known :=
    includes ListingType.values (valStr (ListingBody.type body)) in
  (present = false ->
   createListing user body w
   = (Ok (failure 400
        "Please provide all required fields: title, description, price, location, type"),
      w))
  /\ (present = true -> positive = false ->
      createListing user body w
      = (Ok (failure 400 "Price must be a positive number"), w))
  /\ (present = true -> positive = true -> known = false ->
      createListing user body w
      = (Ok (failure 400
           "Type must be either Room, Hostel, Apartment, or Flat"), w))
  /\ (present = true -> positive = true -> known = true ->
      (exists l,
          answer (createListing user body) w
          = Ok (mkResponse 201 true (Some "Listing created successfully")
                           None (OneListing l))
          /\ listings (worldAfter (createListing user body) w)
             = listings w ++ [l])
      \/ (exists messages,
             createListing user body w
             = (Ok (failure 400 (joinMessages messages)),
                addEvent (ConsoleError "Create Listing Error:") w))).
Proof.
  intros present positive known. subst present positive known.
  unfold createListing, tryCatch. cbv zeta.
  destruct (truthyStr (ListingBody.title body)),
    (truthyStr (ListingBody.description body)),
    (truthyNum (ListingBody.price body)),
    (truthyStr (ListingBody.location body)),
    (truthyStr (ListingBody.type body));
    cbn [andb orb negb];
    try (repeat split; intros; first [discriminate | reflexivity]).
  destruct (Qle_bool (valNum (ListingBody.price body)) 0); cbn [negb];
    try (repeat split; intros; first [discriminate | reflexivity]).
  destruct (includes ListingType.values (valStr (ListingBody.type body)));
    cbn [negb];
    try (repeat split; intros; first [discriminate | reflexivity]).
  repeat split; try discriminate. intros _ _ _.
  match goal with
  | |- context [Listing_create ?a ?b ?c ?d ?e ?f ?g ?h ?i ?j] =>
      destruct (Listing_create_cases a b c d e f g h i j w)
        as [(msgs & Hrun) | (doc & w' & Hrun & _ & _ & Hl)]
  end.
  - right. exists msgs. now rewrite (bind_throw _ _ _ _ _ Hrun).
  - left. exists doc. unfold answer, worldAfter.
    rewrite (bind_ok _ _ _ _ _ Hrun). split; [reflexivity | exact Hl].
Qed.

Lemma createListing_refusals_witness :
  createListing Sample.owner
    (ListingBody.mk (Some "Room with a view")
       (Some "A small room on the top floor, shared kitchen.")
       (Some 0%Q) (Some "Bhaktapur") None None (Some "Room") None)
    Sample.world
  = (Ok (failure 400
       "Please provide all required fields: title, description, price, location, type"),
     Sample.world)
  /\ createListing Sample.owner
       (ListingBody.mk (Some "Room with a view")
          (Some "A small room on the top floor, shared kitchen.")
          (Some (-5)%Q) (Some "Bhaktapur") None None (Some "Room") None)
       Sample.world
     = (Ok (failure 400 "Price must be a positive number"), Sample.world)
  /\ createListing Sample.owner
       (ListingBody.mk (Some "Room with a view")
          (Some "A small room on the top floor, shared kitchen.")
          (Some 1000%Q) (Some "Bhaktapur") None None (Some "room") None)
       Sample.world
     = (Ok (failure 400
          "Type must be either Room, Hostel, Apartment, or Flat"),
        Sample.world).
Proof.
  split; [| split].
  - apply (proj1 (createListing_refusals Sample.owner
      (ListingBody.mk (Some "Room with a view")
         (Some "A small room on the top floor, shared kitchen.")
         (Some 0%Q) (Some "Bhaktapur") None None (Some "Room") None)
      Sample.world)); reflexivity.
  - apply (proj1 (proj2 (createListing_refusals Sample.owner
      (ListingBody.mk (Some "Room with a view")
         (Some "A small room on the top floor, shared kitchen.")
         (Some (-5)%Q) (Some "Bhaktapur") None None (Some "Room") None)
      Sample.world))); reflexivity.
  - apply (proj1 (proj2 (proj2 (createListing_refusals Sample.owner
      (ListingBody.mk (Some "Room with a view")
         (Some "A small room on the top floor, shared kitchen.")
         (Some 1000%Q) (Some "Bhaktapur") None None (Some "room") None)
      Sample.world)))); reflexivity.
Defined.

(** ** The public id of an image *)

Lemma splitOn_lacking (sep : ascii) (l : list ascii) :
  forallb (fun x => negb (Ascii.eqb x sep)) l = true -> splitOn sep l = [l].
Proof.
  induction l as [| c l IH]; cbn; [reflexivity |].
  intros H. apply andb_true_iff in H as [Hc Hl].
  apply negb_true_iff in Hc. now rewrite Hc, (IH Hl).
Qed.

Lemma splitOn_not_nil (sep : ascii) (l : list ascii) : splitOn sep l <> [].
Proof.
  induction l as [| c l IH]; cbn; [discriminate |].
  destruct (Ascii.eqb c sep); [discriminate |].
  now destruct (splitOn sep l).
Qed.

Lemma splitOn_two (sep : ascii) (a b : list ascii) :
  exists s1 s2 ss, splitOn sep (a ++ sep :: b) = s1 :: s2 :: ss.
Proof.
  induction a as [| c a (s1 & s2 & ss & IH)]; cbn [app splitOn].
  - rewrite Ascii.eqb_refl. pose proof (splitOn_not_nil sep b).
    destruct (splitOn sep b) as [| s2 ss]; [contradiction |].
    now exists [], s2, ss.
  - rewrite IH. destruct (Ascii.eqb c sep); now eexists _, _, _.
Qed.

(** The last piece is what follows the last separator. *)
Lemma last_splitOn (sep : ascii) (a b : list ascii) :
  last (splitOn sep (a ++ sep :: b)) [] = last (splitOn sep b) [].
Proof.
  induction a as [| c a IH]; cbn [app splitOn].
  - rewrite Ascii.eqb_refl. pose proof (splitOn_not_nil sep b).
    cbn [last]. now destruct (splitOn sep b).
  - destruct (splitOn_two sep a b) as (s1 & s2 & ss & E).
    rewrite E in *. now destruct (Ascii.eqb c sep).
Qed.

(** The first piece is what precedes the first separator. *)
Lemma hd_splitOn (sep : ascii) (a b : list ascii) :
  forallb (fun x => negb (Ascii.eqb x sep)) a = true ->
  hd [] (splitOn sep (a ++ sep :: b)) = a.
Proof.
  induction a as [| c a IH]; cbn [app splitOn forallb].
  - now rewrite Ascii.eqb_refl.
  - intros H. apply andb_true_iff in H as [Hc Ha].
    apply negb_true_iff in Hc. rewrite Hc.
    specialize (IH Ha).
    destruct (splitOn_two sep a b) as (s1 & s2 & ss & E).
    rewrite E in *. cbn in *. now rewrite IH.
Qed.

Lemma chars_app (a b : string) : chars (a ++ b) = chars a ++ chars b.
Proof.
  unfold chars. induction a as [| c a IH]; cbn; [reflexivity |].
  now rewrite IH.
Qed.

Lemma str_chars (s : string) : str (chars s) = s.
Proof. apply string_of_list_ascii_of_string. Qed.

(** X24. [getPublicIdFromUrl] keeps, of a URL, what lies between its
    last slash and the first dot after it, and puts the folder
    gharsathi/listings before it: the folder the URL names plays no
    part, and a file name without a dot is kept whole. *)
Theorem getPublicIdFromUrl_file_name (folder name extension : string) :
  lacks "/" name = true -> lacks "." name = true ->
  lacks "/" extension = true ->
  getPublicIdFromUrl (folder ++ "/" ++ name ++ "." ++ extension)
  = Some ("gharsathi/listings/" ++ name)%string
  /\ getPublicIdFromUrl (folder ++ "/" ++ name)
     = Some ("gharsathi/listings/" ++ name)%string.
Proof.
  unfold lacks. intros Hslash Hdot Hext.
  unfold getPublicIdFromUrl. cbv zeta.
  split; f_equal; f_equal.
  - rewrite !chars_app. change (chars "/") with ["/"%char].
    change (chars ".") with ["."%char]. cbn [app].
    rewrite last_splitOn, (splitOn_lacking "/").
    + cbn [last]. rewrite hd_splitOn; [apply str_chars | exact Hdot].
    + rewrite forallb_app. cbn [forallb].
      now rewrite Hslash, Hext.
  - rewrite !chars_app. change (chars "/") with ["/"%char]. cbn [app].
    rewrite last_splitOn, (splitOn_lacking "/"); [| exact Hslash].
    cbn [last]. rewrite splitOn_lacking; [apply str_chars | exact Hdot].
Qed.

Lemma getPublicIdFromUrl_file_name_witness :
  getPublicIdFromUrl
    ("https://res.cloudinary.com/demo/image/upload/v1/elsewhere"
     ++ "/" ++ "abc" ++ "." ++ "tar.gz")
  = Some ("gharsathi/listings/" ++ "abc")%string
  /\ getPublicIdFromUrl
       ("https://res.cloudinary.com/demo/image/upload/v1/elsewhere"
        ++ "/" ++ "abc")
     = Some ("gharsathi/listings/" ++ "abc")%string.
Proof.
  apply (getPublicIdFromUrl_file_name
           "https://res.cloudinary.com/demo/image/upload/v1/elsewhere"
           "abc" "tar.gz"); reflexivity.
Defined.

(** ** What [login] writes *)

Lemma valStr_some (o : option string) (s : string) :
  valStr o = s -> s <> EmptyString -> o = Some s.
Proof. destruct o; cbn; intros <- H; [reflexivity | contradiction]. Qed.

Lemma tryCatch_bind_ok {A B} (m : M A) (k : A -> M B) (h : JsError -> M B)
    (a : A) (w w1 : World) :
  m w = (Ok a, w1) ->
  worldAfter (tryCatch (bind m k) h) w = worldAfter (tryCatch (k a) h) w1.
Proof.
  intros H. unfold worldAfter, tryCatch. now rewrite (bind_ok _ _ _ _ _ H).
Qed.

(** X25. [login] answers 400 without reading the store when the e-mail
    address or the password is missing or empty, and it stores nothing
    unless the body is the development pair (admin@gharsathi.com,
    admin123): whatever else is presented, known or unknown, right or
    wrong, no account is created and nothing stored changes.  With the
    development pair nothing is stored either once that account
    exists. *)
Theorem login_stores_nothing
    (host : Host) (body : LoginBody.t) (w : World) :
  (truthyStr (LoginBody.email body) && truthyStr (LoginBody.password body)
   = false ->
   login host body w
   = (Ok (failure 400 "Please provide email and password"), w))
  /\ (~ (LoginBody.email body = Some "admin@gharsathi.com"
         /\ LoginBody.password body = Some "admin123") ->
      sameStore w (worldAfter (login host body) w))
  /\ (forall account,
        findUserByEmail "admin@gharsathi.com" (users w) = Some account ->
        sameStore w (worldAfter (login host body) w)).
Proof.
  split; [| split].
  - intros H. unfold login, tryCatch. cbv zeta.
    rewrite <- negb_andb, H. reflexivity.
  - intros Hdev. unfold login. cbv zeta.
    destruct ((valStr (LoginBody.email body) =? "admin@gharsathi.com")
              && (valStr (LoginBody.password body) =? "admin123")) eqn:E.
    + apply andb_true_iff in E as [Ee Ep].
      apply String.eqb_eq in Ee, Ep.
      contradiction Hdev.
      split; apply valStr_some; first [assumption | discriminate].
    + read_only.
  - intros account Hfound. unfold login. cbv zeta.
    destruct ((valStr (LoginBody.email body) =? "admin@gharsathi.com")
              && (valStr (LoginBody.password body) =? "admin123")) eqn:E;
      [| read_only].
    apply andb_true_iff in E as [Ee _]. apply String.eqb_eq in Ee.
    rewrite Ee.
    destruct (negb (truthyStr (LoginBody.email body))
              || negb (truthyStr (LoginBody.password body)));
      [apply sameStore_refl |].
    erewrite tryCatch_bind_ok.
    2:{ rewrite (bind_ok _ _ _ _ _ (User_findOne_email_run _ w)).
        change (normalizeEmail "admin@gharsathi.com")
          with "admin@gharsathi.com".
        rewrite Hfound. reflexivity. }
    apply (sameStore_trans w (addEvent (DbRead "users") w));
      [repeat split | read_only].
Qed.

Lemma login_stores_nothing_witness :
  login Sample.host (LoginBody.mk (Some "olivia@example.com") None)
        Sample.world
  = (Ok (failure 400 "Please provide email and password"), Sample.world)
  /\ sameStore Sample.world
       (worldAfter
          (login Sample.host
             (LoginBody.mk (Some "admin@gharsathi.com") (Some "admin1234")))
          Sample.world).
Proof.
  split.
  - apply (proj1 (login_stores_nothing Sample.host
                    (LoginBody.mk (Some "olivia@example.com") None)
                    Sample.world)).
    reflexivity.
  - apply (proj1 (proj2 (login_stores_nothing Sample.host
                    (LoginBody.mk (Some "admin@gharsathi.com")
                                  (Some "admin1234"))
                    Sample.world))).
    intros [_ H]. discriminate H.
Defined.

(** ** The addresses the user schema accepts *)

Lemma Lang_alphabet (p : ascii -> bool) (r : Regex) (l : list ascii) :
  alphabet p r -> Lang r l -> forallb p l = true.
Proof.
  intros Hr Hl. induction Hl; cbn in *;
    rewrite ?forallb_app; try reflexivity.
  - now rewrite (Hr a H).
  - destruct Hr as [H1 H2]. now rewrite IHHl1, IHHl2.
  - now apply IHHl, Hr.
  - now apply IHHl, Hr.
  - now rewrite IHHl1, IHHl2.
Qed.

Lemma Lang_plus_word (l : list ascii) :
  Lang (plus (Sym CsWord)) l -> l <> [].
Proof.
  unfold plus. intros H. apply Lang_Seq in H as (x & y & -> & Hx & _).
  inversion Hx; subst. discriminate.
Qed.

Lemma chars_str (l : list ascii) : chars (str l) = l.
Proof. apply list_ascii_of_string_of_list_ascii. Qed.

Lemma str_app (a b : list ascii) : str (a ++ b) = (str a ++ str b)%string.
Proof.
  unfold str. induction a as [| c a IH]; cbn; [reflexivity |].
  now rewrite IH.
Qed.

Lemma str_not_empty (l : list ascii) : l <> [] -> str l <> EmptyString.
Proof. destruct l; [contradiction | discriminate]. Qed.

(** X26. An address that the user schema accepts has one at sign, with
    a part before it and a part after it that are not empty and are
    made of letters, digits, underscores, dots and hyphens only. *)
Theorem accepted_address_shape (address : string) :
  validateEmail address = [] ->
  exists name domain,
    address = (name ++ "@" ++ domain)%string
    /\ name <> EmptyString /\ domain <> EmptyString
    /\ forallb addressChar (chars name) = true
    /\ forallb addressChar (chars domain) = true.
Proof.
  unfold validateEmail.
  destruct (address =? EmptyString); [discriminate |].
  destruct (matches emailRegex (chars address)) eqn:Hm; [| discriminate].
  intros _. apply matches_Lang in Hm. unfold emailRegex in Hm. cbv zeta in Hm.
  apply Lang_Seq in Hm as (x1 & y1 & E1 & Hx1 & Hm).
  apply Lang_Seq in Hm as (x2 & y2 & -> & Hx2 & Hm).
  apply Lang_Seq in Hm as (x3 & y3 & -> & Hx3 & Hm).
  inversion Hx3 as [| cs a Ha | | | | |]; subst.
  cbn in Ha. apply Ascii.eqb_eq in Ha. subst a.
  assert (forall a, inSet CsWord a = true -> addressChar a = true) as Hword.
  { intros a Ha. unfold addressChar. cbn in Ha. now rewrite Ha. }
  assert (forall a, inSet (CsOneOf ["."; "-"]%char) a = true ->
                    addressChar a = true) as Hsep.
  { intros a Ha. unfold addressChar. cbn in Ha.
    rewrite orb_false_r in Ha. rewrite <- orb_assoc, Ha. apply orb_true_r. }
  assert (forall a, inSet (CsChar ".") a = true -> addressChar a = true)
    as Hdot.
  { intros a Ha. unfold addressChar. cbn in Ha. rewrite Ha.
    rewrite orb_true_r. reflexivity. }
  exists (str (x1 ++ x2)), (str y3).
  rewrite !chars_str. repeat split.
  - rewrite <- (str_chars address), E1.
    now rewrite app_assoc, !str_app.
  - apply str_not_empty. apply Lang_plus_word in Hx1.
    now destruct x1.
  - apply str_not_empty.
    apply Lang_Seq in Hm as (x4 & y4 & -> & Hx4 & _).
    apply Lang_plus_word in Hx4. now destruct x4.
  - rewrite forallb_app.
    apply (Lang_alphabet addressChar) in Hx1; [| cbn; auto].
    apply (Lang_alphabet addressChar) in Hx2; [| cbn; auto 10].
    now rewrite Hx1, Hx2.
  - apply (Lang_alphabet addressChar) in Hm; [exact Hm |].
    cbn. auto 20.
Qed.

Lemma accepted_address_shape_witness :
  exists name domain,
    "eve@example.com" = (name ++ "@" ++ domain)%string
    /\ name <> EmptyString /\ domain <> EmptyString
    /\ forallb addressChar (chars name) = true
    /\ forallb addressChar (chars domain) = true.
Proof.
  apply (accepted_address_shape "eve@example.com").
  vm_compute. reflexivity.
Defined.

(** X27. When the user schema refuses the name or the address of a
    registration that passed the tests of [register] (fields present,
    password of six characters or more, address not stored, role of the
    schema or none), the answer is 400 with the messages of the schema
    joined by commas, the error is logged, and no user is stored. *)
Theorem register_schema_refusal
    (host : Host) (name email password : string) (role : option string)
    (r : Role.t) (w : World) :
  name <> EmptyString -> email <> EmptyString ->
  validatePassword password = [] ->
  findUserByEmail (normalizeEmail (toLowerCase email)) (users w) = None ->
  Role.ofString (if truthyStr role then valStr role else "Tenant") = Some r ->
  let messages :=
    validateName (trim name)
    ++ validateEmail (normalizeEmail (toLowerCase email)) in
  messages <> [] ->
  register host
    (RegisterBody.mk (Some name) (Some email) (Some password) role) w
  = (Ok (failure 400 (joinMessages messages)),
     addEvent (ConsoleError "Registration Error:")
              (addEvent (DbRead "users") w)).
Proof.
  intros Hn He Hpw Hfresh Hrole messages Hmsgs.
  destruct (valid_password_long password Hpw) as [Hp Hlen].
  unfold register, tryCatch.
  cbn [RegisterBody.name RegisterBody.email RegisterBody.password
       RegisterBody.role valStr].
  rewrite (truthy_nonempty name Hn), (truthy_nonempty email He),
    (truthy_nonempty password Hp), Hlen.
  cbn [negb orb].
  rewrite (bind_ok _ _ _ _ _ (User_findOne_email_run _ w)), Hfresh.
  rewrite (role_included _ _ Hrole). cbn [negb].
  assert (User_create host name (toLowerCase email) password
            (if truthyStr role then valStr role else "Tenant")
            (addEvent (DbRead "users") w)
          = (Throw (validationError messages), addEvent (DbRead "users") w))
    as Hrun.
  { unfold User_create. rewrite Hpw, Hrole, !app_nil_r.
    fold messages. destruct messages; [contradiction | reflexivity]. }
  rewrite (bind_throw _ _ _ _ _ Hrun). reflexivity.
Qed.

Lemma register_schema_refusal_witness :
  register Sample.host
    (RegisterBody.mk (Some "E") (Some "eve.example.com") (Some "hunter22")
                     None)
    Sample.world
  = (Ok (failure 400
       "Name must be at least 2 characters long, Please provide a valid email address"),
     addEvent (ConsoleError "Registration Error:")
              (addEvent (DbRead "users") Sample.world)).
Proof.
  apply (register_schema_refusal Sample.host "E" "eve.example.com" "hunter22"
           None Role.Tenant Sample.world);
    try discriminate; vm_compute; first [reflexivity | discriminate].
Defined.

(** ** Refusals of [updateListing] *)

(** X28. [updateListing], for an id that is an ObjectId, writes
    nothing when it refuses: an id that no listing has is answered 404;
    for the owner, a type that is given and is not one of the four of
    the schema is answered 400; and when the listing with the given
    fields assigned does not pass the schema, the answer is 400 with
    the messages of the schema joined by commas and the error is
    logged. *)
Theorem updateListing_refusals
    (host : Host) (user : User.t) (id : string) (oid : ObjectId)
    (body : ListingBody.t) (w : World) :
  castObjectId host id = Some oid ->
  let positive :=
    match ListingBody.price body with
    | Some p => negb (Qle_bool p 0)
    | None => true
    end in
  let known :=
    negb (truthyStr (ListingBody.type body))
    || includes ListingType.values (valStr (ListingBody.type body)) in
  (findListing oid (listings w) = None ->
   updateListing host user id body w
   = (Ok (failure 404 "Listing not found"), addEvent (DbRead "listings") w))
  /\ (forall l,
        findListing oid (listings w) = Some l ->
        Listing.ownerId l = User._id user ->
        positive = true -> known = false ->
        updateListing host user id body w
        = (Ok (failure 400
             "Type must be either Room, Hostel, Apartment, or Flat"),
           addEvent (DbRead "listings") w))
  /\ (forall l,
        findListing oid (listings w) = Some l ->
        Listing.ownerId l = User._id user ->
        positive = true -> known = true ->
        validateListing (assignFields body l) <> [] ->
        updateListing host user id body w
        = (Ok (failure 400
                 (joinMessages (validateListing (assignFields body l)))),
           addEvent (ConsoleError "Update Listing Error:")
                    (addEvent (DbRead "listings") w))).
Proof.
  intros Hcast positive known. subst positive known.
  unfold updateListing, tryCatch. cbv zeta.
  rewrite (bind_ok _ _ _ _ _ (Listing_findById_ok host id oid w Hcast)).
  split; [| split].
  - now intros ->.
  - intros l -> -> Hprice Hknown. rewrite N.eqb_refl. cbn [negb].
    destruct (ListingBody.price body) as [p |];
      [apply negb_true_iff in Hprice; rewrite Hprice |].
    all: apply orb_false_iff in Hknown as [Ht Hk];
      apply negb_false_iff in Ht; now rewrite Ht, Hk.
  - intros l -> -> Hprice Hknown Hinvalid. rewrite N.eqb_refl. cbn [negb].
    assert ((truthyStr (ListingBody.type body)
             && negb (includes ListingType.values
                        (valStr (ListingBody.type body)))) = false) as ->.
    { destruct (truthyStr (ListingBody.type body)); [| reflexivity].
      cbn [negb orb] in Hknown. now rewrite Hknown. }
    destruct (Listing_save_cases l (assignFields body l)
                (addEvent (DbRead "listings") w))
      as [(m & ms & Hv & Hrun) | [(Hv & _) | (Hv & _)]];
      try contradiction.
    destruct (ListingBody.price body) as [p |];
      [apply negb_true_iff in Hprice; rewrite Hprice |];
      now rewrite (bind_throw _ _ _ _ _ Hrun), Hv.
Qed.

Lemma updateListing_refusals_witness :
  updateListing Sample.host Sample.owner Sample.id32 Sample.retitle
                Sample.world
  = (Ok (failure 404 "Listing not found"),
     addEvent (DbRead "listings") Sample.world)
  /\ updateListing Sample.host Sample.owner Sample.id16
       (ListingBody.mk None None None None None None (Some "Villa") None)
       Sample.world
     = (Ok (failure 400
          "Type must be either Room, Hostel, Apartment, or Flat"),
        addEvent (DbRead "listings") Sample.world)
  /\ updateListing Sample.host Sample.owner Sample.id16
       (ListingBody.mk (Some "Den") None None None (Some 91%Q) None None None)
       Sample.world
     = (Ok (failure 400
          "Title must be at least 5 characters long, Latitude must be between -90 and 90"),
        addEvent (ConsoleError "Update Listing Error:")
                 (addEvent (DbRead "listings") Sample.world)).
Proof.
  split; [| split].
  - apply (proj1 (updateListing_refusals Sample.host Sample.owner Sample.id32
                    32%N Sample.retitle Sample.world eq_refl)).
    reflexivity.
  - apply (proj1 (proj2 (updateListing_refusals Sample.host Sample.owner
             Sample.id16 16%N
             (ListingBody.mk None None None None None None (Some "Villa") None)
             Sample.world eq_refl)) Sample.room); reflexivity.
  - apply (proj2 (proj2 (updateListing_refusals Sample.host Sample.owner
             Sample.id16 16%N
             (ListingBody.mk (Some "Den") None None None (Some 91%Q) None
                             None None)
             Sample.world eq_refl)) Sample.room);
      try reflexivity. vm_compute. discriminate.
Defined.
